(** * FedSysDashboard: the ledger pipeline of [app.py]

    A shallow embedding of the ledger reader ([load_ledger]), the reshaper
    ([ledger_to_df]), the refresh cache ([get_cached_data]), the display
    formatter inside [render_dashboard_content] and the module-level poll
    loop, followed by the properties of the specification that concern them.

    Conventions.
    - A Python [str] is a list of code points ([pystr]); [U] reads an ASCII
      literal.
    - A Python value that comes out of [json.loads] is a [pyval]; a [dict]
      is an association list in insertion order.
    - A Python float is an IEEE binary64 number ([spec_float] of the
      Standard Library, operations at precision 53 and exponent bound 1024).
    - A computation that may raise returns a [result]; code that also reads
      the ledger document, sleeps or uses the cache runs in the monad [M].
    - Library calls whose behaviour is not fixed by [app.py] are parameters:
      the JSON parser, the states of the ledger document over time, and the
      sorting algorithm behind [DataFrame.sort_values]. *)

From Stdlib Require Import String Ascii.
From Stdlib Require Import ZArith NArith List Bool Lia.
From Stdlib Require Import Permutation Sorted.
From Stdlib Require Import Floats.SpecFloat.
Import ListNotations.

Set Implicit Arguments.
Set Warnings "-register-all".
Open Scope Z_scope.

(** ** Strings *)

Definition pystr := list N.

Definition U (s : string) : pystr := map N_of_ascii (list_ascii_of_string s).

Definition pystr_eq_dec : forall a b : pystr, {a = b} + {a <> b} :=
  list_eq_dec N.eq_dec.

Definition pystr_eqb (a b : pystr) : bool :=
  if pystr_eq_dec a b then true else false.

Definition py_len (s : pystr) : Z := Z.of_nat (length s).

(** [clamp_index i len] is the position a slice bound [i] denotes in a
    sequence of length [len]: a negative bound counts from the end, and
    every bound is clipped to [0 .. len]. *)
Definition clamp_index (i len : Z) : Z :=
  if i <? 0 then Z.max (i + len) 0 else Z.min i len.

(** [s[:stop]], for a string or any other sequence *)
Definition slice_to {A} (s : list A) (stop : Z) : list A :=
  firstn (Z.to_nat (clamp_index stop (Z.of_nat (List.length s)))) s.

(** [s[start:]] *)
Definition slice_from {A} (s : list A) (start : Z) : list A :=
  skipn (Z.to_nat (clamp_index start (Z.of_nat (List.length s)))) s.

(** [s.startswith(p)] *)
Fixpoint startswith (s p : pystr) {struct p} : bool :=
  match p, s with
  | [], _ => true
  | _ :: _, [] => false
  | a :: p', b :: s' => N.eqb a b && startswith s' p'
  end.

(** ** Values *)

Definition float := spec_float.
Definition f64_sub : float -> float -> float := SFsub 53 1024.
Definition f64_mul : float -> float -> float := SFmul 53 1024.
(** The literal [100], converted to a float when it multiplies one. *)
Definition f64_100 : float := binary_normalize 53 1024 100 0 false.
Definition f64_zero : float := S754_zero false.

Definition is_finite (x : float) : bool :=
  match x with
  | S754_zero _ => true
  | S754_finite _ _ _ => true
  | _ => false
  end.

Inductive pyval : Type :=
| PyNone
| PyBool (b : bool)
| PyInt (z : Z)
| PyFloat (x : float)
| PyStr (s : pystr)
| PyList (l : list pyval)
| PyDict (d : list (pystr * pyval)).

Definition dict := list (pystr * pyval).

(** ** Exceptions *)

Inductive exn : Type :=
| FileNotFoundError
| JSONDecodeError
| KeyError (k : pystr)
| TypeError
| AttributeError
| IndexError
| ValueError
| NameError (name : pystr)
| UnicodeDecodeError
| IsADirectoryError
| PermissionError
| RecursionError
(** an operation applied outside the part of pandas this development
    describes (a sort key or an accuracy cell of an unexpected type) *)
| Unsupported.

Inductive result (A : Type) : Type :=
| Ok (a : A)
| Raise (e : exn).
Arguments Ok {A} a.
Arguments Raise {A} e.

Definition rbind {A B} (r : result A) (k : A -> result B) : result B :=
  match r with
  | Ok a => k a
  | Raise e => Raise e
  end.

Declare Scope result_scope.
Delimit Scope result_scope with result.
Notation "'let?' x ':=' r 'in' k" := (rbind r (fun x => k))
  (at level 10, x name, r at level 100, k at level 200) : result_scope.

Fixpoint rmap {A B} (f : A -> result B) (l : list A) : result (list B) :=
  match l with
  | [] => Ok []
  | a :: l' =>
      match f a with
      | Raise e => Raise e
      | Ok b =>
          match rmap f l' with
          | Raise e => Raise e
          | Ok bs => Ok (b :: bs)
          end
      end
  end.

(** ** Display formatter: [truncate_hash] (lines 77-81) *)

Definition truncate_hash (hash_string : pyval) (start_chars end_chars : Z)
  : pyval :=
  match hash_string with
  | PyStr s =>
      if py_len s >? start_chars + end_chars
      then PyStr (slice_to s start_chars ++ U "..." ++ slice_from s (- end_chars))
      else hash_string
  | _ => hash_string
  end.

(** The call with the default arguments, as [Series.apply(truncate_hash)]
    makes it. *)
Definition truncate_hash_default (v : pyval) : pyval := truncate_hash v 8 8.

(** The last [n] characters of [s], as the specification words it. *)
Definition last_chars (n : nat) (s : pystr) : pystr :=
  skipn (length s - n) s.

Definition sample_hash : pystr :=
  U "0x008a3ef87cb15c2490b8e3029a356812b217e8c2e49389c62945eb125a25722a".


(** ** Python operations used by the reshaper *)

(** [not v] is [negb (truthy v)]. *)
Definition truthy (v : pyval) : bool :=
  match v with
  | PyNone => false
  | PyBool b => b
  | PyInt z => negb (z =? 0)
  | PyFloat (S754_zero _) => false
  | PyFloat _ => true
  | PyStr s => negb (Nat.eqb (List.length s) 0)
  | PyList l => negb (Nat.eqb (List.length l) 0)
  | PyDict d => negb (Nat.eqb (List.length d) 0)
  end.

(** [for entry in v]: the elements of a list, the keys of a dict, the
    characters of a string; anything else is not iterable. *)
Definition py_iter (v : pyval) : result (list pyval) :=
  match v with
  | PyList l => Ok l
  | PyDict d => Ok (map (fun kv => PyStr (fst kv)) d)
  | PyStr s => Ok (map (fun c => PyStr [c]) s)
  | _ => Raise TypeError
  end.

Fixpoint dict_get {V} (k : pystr) (d : list (pystr * V)) : option V :=
  match d with
  | [] => None
  | (k', v) :: d' => if pystr_eqb k k' then Some v else dict_get k d'
  end.

(** [d[k] = v]: the value is replaced where the key stands, a new key goes
    to the end. *)
Fixpoint dict_set {V} (k : pystr) (v : V) (d : list (pystr * V))
  : list (pystr * V) :=
  match d with
  | [] => [(k, v)]
  | (k', v') :: d' =>
      if pystr_eqb k k' then (k', v) :: d' else (k', v') :: dict_set k v d'
  end.

(** [d.update(other)] *)
Definition dict_update (d other : dict) : dict :=
  fold_left (fun acc kv => dict_set (fst kv) (snd kv) acc) other d.

(** [v[k]] for a string key [k]: only a dict can be indexed by a string. *)
Definition getitem (v : pyval) (k : pystr) : result pyval :=
  match v with
  | PyDict d =>
      match dict_get k d with
      | Some x => Ok x
      | None => Raise (KeyError k)
      end
  | _ => Raise TypeError
  end.

(** [v.get(k, default)] *)
Definition get_default (v : pyval) (k : pystr) (default : pyval)
  : result pyval :=
  match v with
  | PyDict d =>
      match dict_get k d with
      | Some x => Ok x
      | None => Ok default
      end
  | _ => Raise AttributeError
  end.

(** [v.items()] *)
Definition items (v : pyval) : result dict :=
  match v with
  | PyDict d => Ok d
  | _ => Raise AttributeError
  end.

(** ** Data frames *)

(** A cell holds a value or pandas' missing-value marker. *)
Inductive cell : Type :=
| NaN
| Val (v : pyval).

Record DataFrame : Type := {
  columns : list pystr;
  data : list (list cell)
}.

(** [pd.DataFrame()] *)
Definition empty_frame : DataFrame := {| columns := []; data := [] |}.

(** [df.empty]: some axis has length zero. *)
Definition df_empty (df : DataFrame) : bool :=
  Nat.eqb (List.length (columns df)) 0 || Nat.eqb (List.length (data df)) 0.

Definition mem (k : pystr) (l : list pystr) : bool := existsb (pystr_eqb k) l.

Definition add_key (acc : list pystr) (k : pystr) : list pystr :=
  if mem k acc then acc else acc ++ [k].

(** The column labels of a frame built from a list of dicts: every key, in
    the order of its first appearance. *)
Definition union_keys (rows : list dict) : list pystr :=
  fold_left (fun acc r => fold_left add_key (map fst r) acc) rows [].

Definition cell_of (r : dict) (c : pystr) : cell :=
  match dict_get c r with
  | Some v => Val v
  | None => NaN
  end.

Definition row_cells (cols : list pystr) (r : dict) : list cell :=
  map (cell_of r) cols.

(** [pd.DataFrame(rows)] for a list of dicts. *)
Definition frame_of_rows (rows : list dict) : DataFrame :=
  let cols := union_keys rows in
  {| columns := cols; data := map (row_cells cols) rows |}.

Fixpoint index_of (c : pystr) (cols : list pystr) : option nat :=
  match cols with
  | [] => None
  | c' :: cols' =>
      if pystr_eqb c c' then Some 0%nat
      else option_map S (index_of c cols')
  end.

(** [df[c]] as a list of cells. *)
Definition column_values (df : DataFrame) (c : pystr) : result (list cell) :=
  match index_of c (columns df) with
  | None => Raise (KeyError c)
  | Some j => Ok (map (fun r => nth j r NaN) (data df))
  end.

(** The value of column [c] in row [r] of a frame with columns [cols]. *)
Definition cell_at (cols : list pystr) (r : list cell) (c : pystr) : cell :=
  match index_of c cols with
  | None => NaN
  | Some j => nth j r NaN
  end.

(** ** Sorting

    [ledger_to_df] calls [df.sort_values("round")] with no [kind] argument,
    so pandas sorts with its default kind, ["quicksort"], and hands the
    keys to NumPy's [argsort] of that kind.  What the call promises is an
    ordering of the rows by the key; which rows come first among equal
    keys is promised by the kinds ["stable"] and ["mergesort"] only, and
    NumPy has more than one routine for the default kind.  A [SortKind]
    is any index sort that keeps the promise; the routines themselves
    follow the program below. *)

Record SortKind : Type := {
  argsort : list Z -> list nat;
  argsort_perm :
    forall ks, Permutation (argsort ks) (seq 0 (List.length ks));
  argsort_sorted :
    forall ks, Sorted Z.le (map (fun i => nth i ks 0) (argsort ks))
}.

(** [df.take(indexer)] on the rows. *)
Definition take {A} (d : A) (idx : list nat) (l : list A) : list A :=
  map (fun i => nth i l d) idx.

(** Integer sort keys; other key types are outside this development. *)
Definition int_key (c : cell) : result Z :=
  match c with
  | Val (PyInt z) => Ok z
  | _ => Raise Unsupported
  end.

(** [df.sort_values(by).reset_index(drop=True)]: rows are kept by position,
    so renumbering the index changes nothing here. *)
Definition sort_values (K : SortKind) (df : DataFrame) (by_ : pystr)
  : result DataFrame :=
  (let? vals := column_values df by_ in
   let? ks := rmap int_key vals in
   Ok {| columns := columns df; data := take [] (argsort K ks) (data df) |})%result.

(** ** Ledger reshaper: [ledger_to_df] (lines 105-124) *)

Definition prefix_nodes (its : dict) : dict :=
  fold_left (fun acc kv => dict_set (U "Store_" ++ fst kv) (snd kv) acc) its [].

(** The body of the loop: one ledger entry to one row. *)
Definition build_row (entry : pyval) : result dict :=
  (let? r := getitem entry (U "round") in
   let? t := getitem entry (U "timestamp") in
   let? g := getitem entry (U "global_accuracy") in
   let? h := getitem entry (U "ipfs_hash") in
   let? b := getitem entry (U "block_tx") in
   let? n := get_default entry (U "notes") (PyStr []) in
   let? na := getitem entry (U "node_accuracies") in
   let? its := items na in
   Ok (dict_update
         [(U "round", r); (U "timestamp", t); (U "global_accuracy", g);
          (U "ipfs_hash", h); (U "block_tx", b); (U "notes", n)]
         (prefix_nodes its)))%result.

Definition ledger_to_df (K : SortKind) (ledger : pyval) : result DataFrame :=
  if negb (truthy ledger) then Ok empty_frame
  else
    (let? entries := py_iter ledger in
     let? rows := rmap build_row entries in
     sort_values K (frame_of_rows rows) (U "round"))%result.

(** ** Display formatter and rendering: [render_dashboard_content]
    (lines 133-254)

    The widgets themselves belong to the rendering surface; what is kept
    here is every value the function derives from the table and every
    table access that can raise, in the order of the source. *)

(** [df.tail(n)]: nothing for [n = 0], else [iloc[-n:]]. *)
Definition tail (df : DataFrame) (n : Z) : DataFrame :=
  {| columns := columns df;
     data := if n =? 0 then [] else slice_from (data df) (- n) |}.

(** [df[c] = df[c].apply(f)] *)
Definition apply_column (df : DataFrame) (c : pystr) (f : pyval -> pyval)
  : result DataFrame :=
  match index_of c (columns df) with
  | None => Raise (KeyError c)
  | Some j =>
      let on_cell := fun x => match x with
                              | NaN => NaN
                              | Val v => Val (f v)
                              end in
      let on_row := fun r =>
        firstn j r ++ match skipn j r with
                      | [] => []
                      | x :: rest => on_cell x :: rest
                      end in
      Ok {| columns := columns df; data := map on_row (data df) |}
  end.

Definition business_cols (cols : list pystr) : list pystr :=
  filter (fun col => startswith col (U "Store_")) cols.

(** [chr(n)] *)
Definition chr (n : Z) : result N :=
  if (0 <=? n) && (n <=? 1114111) then Ok (Z.to_N n) else Raise ValueError.

(** [f"Store_{chr(65 + i)}"] *)
Definition alias_at (i : nat) : result pystr :=
  match chr (65 + Z.of_nat i) with
  | Ok ch => Ok (U "Store_" ++ [ch])
  | Raise e => Raise e
  end.

(** [for i, col in enumerate(cols): rename_map[col] = f"Store_{chr(65 + i)}"],
    from index [i] on; the same loop fills [rename_map] (lines 149-151) and
    [node_name_map] (lines 209-211). *)
Fixpoint relabel_from (i : nat) (cols : list pystr)
    (rename_map : list (pystr * pystr)) : result (list (pystr * pystr)) :=
  match cols with
  | [] => Ok rename_map
  | col :: rest =>
      match alias_at i with
      | Raise e => Raise e
      | Ok a => relabel_from (S i) rest (dict_set col a rename_map)
      end
  end.

Definition relabel (cols : list pystr) : result (list (pystr * pystr)) :=
  relabel_from 0 cols [].

(** The aliases a map assigns, in the order of its keys. *)
Definition aliases (rename_map : list (pystr * pystr)) : list pystr :=
  map snd rename_map.

(** [df.rename(columns=rename_map)] *)
Definition rename_columns (df : DataFrame) (rename_map : list (pystr * pystr))
  : DataFrame :=
  {| columns := map (fun c => match dict_get c rename_map with
                              | Some c' => c'
                              | None => c
                              end) (columns df);
     data := data df |}.

(** [df.iloc[-k]], for [k = 1, 2]. *)
Definition iloc_back (df : DataFrame) (k : nat) : result (list cell) :=
  let n := List.length (data df) in
  if (n <? k)%nat then Raise IndexError
  else match nth_error (data df) (n - k) with
       | Some r => Ok r
       | None => Raise IndexError
       end.

(** [row[c]] *)
Definition row_getitem (cols : list pystr) (r : list cell) (c : pystr)
  : result cell :=
  match index_of c cols with
  | None => Raise (KeyError c)
  | Some j => Ok (nth j r NaN)
  end.

(** [row.get(c, default)] *)
Definition row_get (cols : list pystr) (r : list cell) (c : pystr)
    (default : cell) : cell :=
  match index_of c cols with
  | None => default
  | Some j => nth j r NaN
  end.

(** The accuracy in a cell as a float; a missing value is the float nan.
    Other cell types are outside this development. *)
Definition as_float (c : cell) : result float :=
  match c with
  | NaN => Ok S754_nan
  | Val (PyFloat x) => Ok x
  | _ => Raise Unsupported
  end.

(** [int(c)] *)
Definition as_int (c : cell) : result Z :=
  match c with
  | Val (PyInt z) => Ok z
  | Val (PyBool b) => Ok (if b then 1 else 0)
  | NaN => Raise ValueError
  | Val (PyFloat S754_nan) => Raise ValueError
  | _ => Raise Unsupported
  end.

(** Lines 166-167: the previous accuracy and the delta. *)
Definition accuracy_delta (df : DataFrame) (latest : list cell)
  : result float :=
  (let? prev_cell :=
     if (1 <? List.length (data df))%nat
     then (let? prev_row := iloc_back df 2 in
           row_getitem (columns df) prev_row (U "global_accuracy"))
     else row_getitem (columns df) latest (U "global_accuracy") in
   let? last_cell := row_getitem (columns df) latest (U "global_accuracy") in
   let? last_acc := as_float last_cell in
   let? prev_acc := as_float prev_cell in
   Ok (f64_mul (f64_sub last_acc prev_acc) f64_100))%result.

Fixpoint take_until (stop : N) (s : pystr) : pystr :=
  match s with
  | [] => []
  | c :: s' => if N.eqb c stop then [] else c :: take_until stop s'
  end.

Fixpoint after_first (stop : N) (s : pystr) : pystr :=
  match s with
  | [] => []
  | c :: s' => if N.eqb c stop then s' else after_first stop s'
  end.

(** The string ["T"] as an element of a list. *)
Definition is_T (v : pyval) : bool :=
  match v with
  | PyStr s => pystr_eqb s (U "T")
  | _ => false
  end.

(** Line 181: [timestamp.split("T")[1].split(".")[0] if "T" in timestamp
    else timestamp].  ["T" in timestamp] looks for a substring in a
    string, for an element in a list and for a key in a mapping, and
    raises [TypeError] on a value of any other type; when it holds,
    [timestamp.split] exists for a string only.  The caption is handed
    the result as it is. *)
Definition last_update (timestamp : cell) : result pyval :=
  match timestamp with
  | Val (PyStr ts) =>
      if existsb (N.eqb 84) ts
      then Ok (PyStr (take_until 46 (take_until 84 (after_first 84 ts))))
      else Ok (PyStr ts)
  | Val (PyList l) =>
      if existsb is_T l then Raise AttributeError else Ok (PyList l)
  | Val (PyDict d) =>
      match dict_get (U "T") d with
      | Some _ => Raise AttributeError
      | None => Ok (PyDict d)
      end
  | _ => Raise TypeError
  end.

(** [df[cols]] *)
Definition select_columns (df : DataFrame) (cols : list pystr)
  : result DataFrame :=
  (let? js := rmap (fun c => match index_of c (columns df) with
                             | Some j => Ok j
                             | None => Raise (KeyError c)
                             end) cols in
   Ok {| columns := cols;
         data := map (fun r => map (fun j => nth j r NaN) js) (data df) |})%result.

Definition f64_10 : float := binary_normalize 53 1024 10 0 false.

(** [df['round'] == 10] on one cell. *)
Definition is_round_10 (c : cell) : bool :=
  match c with
  | Val (PyInt z) => z =? 10
  | Val (PyFloat x) => SFeqb x f64_10
  | _ => false
  end.

(** [pd.notnull(v)] *)
Definition notnull (c : cell) : bool :=
  match c with
  | NaN => false
  | Val PyNone => false
  | Val (PyFloat S754_nan) => false
  | _ => true
  end.

Inductive round10_panel : Type :=
| Round10Bars (bars : list (pystr * cell))
| Round10NoNodeData
| Round10NotAvailable.

(** Lines 202-224. *)
Definition node_performance (df : DataFrame) : result round10_panel :=
  (let? rounds := column_values df (U "round") in
   let round_10_data :=
     map snd (filter (fun p => is_round_10 (fst p)) (combine rounds (data df))) in
   match rev round_10_data with
   | [] => Ok Round10NotAvailable
   | round_10_latest :: _ =>
       let node_columns := business_cols (columns df) in
       let node_accuracies :=
         fold_left (fun acc col =>
                      dict_set col (row_get (columns df) round_10_latest col NaN) acc)
                   node_columns [] in
       let? node_name_map := relabel node_columns in
       let performance_data :=
         map (fun ca => (match dict_get (fst ca) node_name_map with
                         | Some a => a
                         | None => fst ca
                         end, snd ca))
             (filter (fun ca => notnull (snd ca)) node_accuracies) in
       match performance_data with
       | [] => Ok Round10NoNodeData
       | _ => Ok (Round10Bars performance_data)
       end
   end)%result.

Definition explorer_template : pystr := U "https://sepolia.etherscan.io/tx/".

(** Lines 248-254. *)
Definition blockchain_info : pystr :=
  let full_block_tx := sample_hash in
  if truthy (PyStr full_block_tx)
  then
    let etherscan_link := explorer_template ++ full_block_tx in
    U "[View Transaction on Etherscan](" ++ etherscan_link ++ U ")"
  else U "No transaction recorded for this round.".

Record dashboard : Type := {
  rename_map : list (pystr * pystr);
  df_display : DataFrame;
  current_round : Z;
  latest_accuracy : float;
  delta : float;
  active_nodes : nat;
  last_update_caption : pyval;
  accuracy_trend : DataFrame;
  round10 : round10_panel;
  round_details : DataFrame;
  blockchain_markdown : pystr
}.

Inductive rendered : Type :=
| NoDataYet (warning : pystr)
| Dashboard (d : dashboard).

Definition render_dashboard_content (df : DataFrame) (rounds_to_show : Z)
  : result rendered :=
  if df_empty df
  then Ok (NoDataYet
             (U "No rounds in ledger yet. Connect or turn on your aggregator."))
  else
    let df := tail df rounds_to_show in
    (let? d1 := apply_column df (U "ipfs_hash") truncate_hash_default in
     let? d2 := apply_column d1 (U "block_tx") truncate_hash_default in
     let? rm := relabel (business_cols (columns d2)) in
     let shown := rename_columns d2 rm in
     let? latest := iloc_back df 1 in
     let? cur := as_int (row_get (columns df) latest (U "round") (Val (PyInt 0))) in
     let? dl := accuracy_delta df latest in
     let? acc_cell := row_getitem (columns df) latest (U "global_accuracy") in
     let? acc := as_float acc_cell in
     let nodes := List.length (business_cols (columns df)) in
     let? cap := last_update (row_get (columns df) latest (U "timestamp")
                                      (Val (PyStr []))) in
     let? acc_df := select_columns df [U "round"; U "global_accuracy"] in
     let? r10 := node_performance df in
     let? details :=
       select_columns shown
         [U "round"; U "timestamp"; U "global_accuracy"; U "ipfs_hash";
          U "block_tx"; U "notes"] in
     Ok (Dashboard
           {| rename_map := rm; df_display := shown; current_round := cur;
              latest_accuracy := acc; delta := dl; active_nodes := nodes;
              last_update_caption := cap; accuracy_trend := acc_df;
              round10 := r10; round_details := details;
              blockchain_markdown := blockchain_info |}))%result.

(** ** The world of one run

    The ledger document is written by another process, so each look at it
    may find a different state: [ledger_doc k] is what the [k]-th look
    finds.  The clock is in milliseconds and moves only when the program
    sleeps. *)

Inductive doc : Type :=
| Missing                (* no such path *)
| Content (s : pystr)    (* a file whose bytes decode to the text [s] *)
| Undecodable            (* a file whose bytes are not text in the encoding
                            [open(LEDGER, 'r')] reads with *)
| Directory              (* the path is a directory *)
| Unreadable.            (* a file the process may not read *)

(** What [json.loads] does with a text: it returns the value the text
    denotes, or raises [JSONDecodeError] on a malformed text,
    [RecursionError] on nesting deeper than the interpreter allows, or a
    plain [ValueError] on an integer literal longer than the conversion
    limit. *)
Inductive parse : Type :=
| Parsed (v : pyval)
| Malformed
| TooDeep
| IntTooLong.

Definition parse_result (p : parse) : result pyval :=
  match p with
  | Parsed v => Ok v
  | Malformed => Raise JSONDecodeError
  | TooDeep => Raise RecursionError
  | IntTooLong => Raise ValueError
  end.

Inductive event : Type :=
| EvExists               (* LEDGER.exists() *)
| EvRead                 (* open(LEDGER, 'r') and f.read() *)
| EvSleep (ms : N)       (* time.sleep *)
| EvRender (r : rendered).

Record world : Type := {
  looks : nat;                       (* looks at the document so far *)
  clock : N;
  cache : option (N * DataFrame);    (* the slot of st.cache_data: expiry, value *)
  trace : list event
}.

Definition initial_world : world :=
  {| looks := 0; clock := 0; cache := None; trace := [] |}.

Definition M (A : Type) : Type := world -> result A * world.

Definition ret {A} (a : A) : M A := fun w => (Ok a, w).

Definition bind {A B} (m : M A) (k : A -> M B) : M B :=
  fun w => match m w with
           | (Ok a, w') => k a w'
           | (Raise e, w') => (Raise e, w')
           end.

Definition lift {A} (r : result A) : M A := fun w => (r, w).

(** [try: body except classes: handler] *)
Definition try_except {A} (body : M A) (classes : exn -> bool) (handler : M A)
  : M A :=
  fun w => match body w with
           | (Ok a, w') => (Ok a, w')
           | (Raise e, w') => if classes e then handler w' else (Raise e, w')
           end.

Declare Scope m_scope.
Delimit Scope m_scope with M.
Notation "x <- m ;; k" := (bind m (fun x => k))
  (at level 61, m at next level, right associativity) : m_scope.
Notation "m ;; k" := (bind m (fun _ => k))
  (at level 61, right associativity) : m_scope.

Definition log (e : event) (w : world) : world :=
  {| looks := looks w; clock := clock w; cache := cache w;
     trace := trace w ++ [e] |}.

Definition next_look (w : world) : world :=
  {| looks := S (looks w); clock := clock w; cache := cache w;
     trace := trace w |}.

Definition sleep (ms : N) : M unit :=
  fun w => (Ok tt, log (EvSleep ms)
                     {| looks := looks w; clock := (clock w + ms)%N;
                        cache := cache w; trace := trace w |}).

Definition store (d : N * DataFrame) : M unit :=
  fun w => (Ok tt, {| looks := looks w; clock := clock w; cache := Some d;
                      trace := trace w |}).

Definition emit (e : event) : M unit := fun w => (Ok tt, log e w).

Definition count_reads (t : list event) : nat :=
  List.length (filter (fun e => match e with EvRead => true | _ => false end) t).

Definition count_sleeps (t : list event) : nat :=
  List.length (filter (fun e => match e with EvSleep _ => true | _ => false end) t).

Definition count_renders (t : list event) : nat :=
  List.length (filter (fun e => match e with EvRender _ => true | _ => false end) t).

(** ** The module namespace

    What the names of the module are bound to when line 262 runs: the
    imports, [LEDGER], the five functions, [placeholder] and [df]. *)

Inductive pyobj : Type :=
| ObjModule
| ObjFunction
| ObjPath (p : pystr)
| ObjPlaceholder
| ObjFrame (df : DataFrame)
| ObjValue (v : pyval).

Definition namespace := list (pystr * pyobj).

Definition module_namespace (df : DataFrame) : namespace :=
  [ (U "st", ObjModule); (U "pd", ObjModule); (U "json", ObjModule);
    (U "Path", ObjFunction); (U "datetime", ObjFunction);
    (U "time", ObjModule); (U "logging", ObjModule);
    (U "LEDGER", ObjPath (U "data/ledger.json"));
    (U "truncate_hash", ObjFunction); (U "load_ledger", ObjFunction);
    (U "ledger_to_df", ObjFunction); (U "get_cached_data", ObjFunction);
    (U "render_dashboard_content", ObjFunction);
    (U "placeholder", ObjPlaceholder); (U "df", ObjFrame df) ].

(** Evaluating a name at module level.  None of Python's built-in names
    is used this way by the program, so only the module's own bindings
    are looked at. *)
Definition load_name (ns : namespace) (name : pystr) : result pyobj :=
  match dict_get name ns with
  | Some o => Ok o
  | None => Raise (NameError name)
  end.

(** The integer an argument of [df.tail] must be. *)
Definition int_of_obj (o : pyobj) : result Z :=
  match o with
  | ObjValue (PyInt z) => Ok z
  | ObjValue (PyBool b) => Ok (if b then 1 else 0)
  | _ => Raise TypeError
  end.

Section Program.

(** [json.loads] *)
Variable json_loads : pystr -> parse.
Variable ledger_doc : nat -> doc.
Variable K : SortKind.

Open Scope m_scope.

(** [LEDGER.exists()]: true of whatever is at the path. *)
Definition ledger_exists : M bool :=
  fun w => (Ok (match ledger_doc (looks w) with
                | Missing => false
                | _ => true
                end), log EvExists (next_look w)).

(** [with open(LEDGER, 'r') as f: content = f.read()]: [open] raises for a
    path that is gone, is a directory or may not be read, and [f.read()]
    raises for bytes that do not decode. *)
Definition open_read : M pystr :=
  fun w => (match ledger_doc (looks w) with
            | Missing => Raise FileNotFoundError
            | Content s => Ok s
            | Undecodable => Raise UnicodeDecodeError
            | Directory => Raise IsADirectoryError
            | Unreadable => Raise PermissionError
            end, log EvRead (next_look w)).

Definition loads (content : pystr) : M pyval :=
  lift (parse_result (json_loads content)).

(** The body both [try] blocks of [load_ledger] share (lines 87-92 and
    96-100). *)
Definition read_and_parse : M pyval :=
  content <- open_read ;;
  if negb (truthy (PyStr content)) then ret (PyList [])
  else loads content.

(** [except (json.JSONDecodeError, FileNotFoundError)] *)
Definition decode_or_missing (e : exn) : bool :=
  match e with
  | JSONDecodeError | FileNotFoundError => true
  | _ => false
  end.

(** Lines 83-102. *)
Definition load_ledger : M pyval :=
  present <- ledger_exists ;;
  if negb present then ret (PyList [])
  else
    try_except read_and_parse decode_or_missing
      (sleep 100 ;;
       try_except read_and_parse decode_or_missing (ret (PyList []))).

(** Lines 128-129, the function under the decorator. *)
Definition fetch : M DataFrame :=
  ledger <- load_ledger ;;
  lift (ledger_to_df K ledger).

(** Lines 126-129: [@st.cache_data(ttl=1)] keeps one value for one
    second; a call that raises stores nothing. *)
Definition get_cached_data : M DataFrame :=
  fun w =>
    let fresh :=
      df <- fetch ;;
      (fun w' => store ((clock w' + 1000)%N, df) w') ;;
      ret df in
    match cache w with
    | Some (expiry, df) => if (clock w <? expiry)%N then (Ok df, w) else fresh w
    | None => fresh w
    end.

(** One fetch and render (lines 260-262 and 268-270), with the names
    other than [df] bound as in [ns]. *)
Definition tick (ns : DataFrame -> namespace) : M unit :=
  df <- get_cached_data ;;
  n <- lift (let? o := load_name (ns df) (U "rounds_to_show") in
             int_of_obj o)%result ;;
  r <- lift (render_dashboard_content df n) ;;
  emit (EvRender r).

(** The first [n] rounds of [while True] (lines 266-270). *)
Fixpoint live_loop (ns : DataFrame -> namespace) (n : nat) : M unit :=
  match n with
  | O => ret tt
  | S n' => sleep 5000 ;; tick ns ;; live_loop ns n'
  end.

(** Lines 257-270, the loop cut after [n] rounds. *)
Definition main (auto_refresh : bool) (n : nat) : M unit :=
  tick module_namespace ;;
  if auto_refresh then live_loop module_namespace n else ret tt.

End Program.

(** ** The sorts behind the default kind

    For the 64-bit integer keys of the [round] column NumPy has two
    routines for [argsort(kind="quicksort")], and which one runs is
    decided by the build and the processor.

    The scalar routine partitions while more than 16 keys are left and
    finishes with an insertion sort; on at most 16 keys it is that
    insertion sort alone, in which a key moves left past the strictly
    larger keys only, so that equal keys stay in input order. *)

Definition goes_before (p q : nat * Z) : bool := snd p <=? snd q.

Fixpoint insert_key (p : nat * Z) (l : list (nat * Z))
  : list (nat * Z) :=
  match l with
  | [] => [p]
  | q :: l' =>
      if goes_before p q then p :: q :: l'
      else q :: insert_key p l'
  end.

Definition sort_keys (ks : list Z) : list (nat * Z) :=
  fold_right insert_key [] (combine (seq 0 (List.length ks)) ks).

Definition insertion_argsort (ks : list Z) : list nat :=
  map fst (sort_keys ks).

Definition key_le (p q : nat * Z) : Prop := snd p <= snd q.

Lemma insert_key_perm p l :
  Permutation (insert_key p l) (p :: l).
Proof.
  induction l as [|q l IH]; simpl.
  - apply Permutation_refl.
  - destruct (goes_before p q).
    + apply Permutation_refl.
    + apply perm_trans with (q :: p :: l).
      * apply perm_skip, IH.
      * apply perm_swap.
Qed.

Lemma goes_before_false p q :
  goes_before p q = false -> key_le q p.
Proof.
  unfold goes_before, key_le. intros H. apply Z.leb_gt in H. lia.
Qed.

Lemma goes_before_true p q :
  goes_before p q = true -> key_le p q.
Proof.
  unfold goes_before, key_le. intros H. apply Z.leb_le in H. exact H.
Qed.

Lemma insert_key_hd p q l :
  key_le q p -> HdRel key_le q l -> HdRel key_le q (insert_key p l).
Proof.
  intros Hqp Hl. destruct l as [|r l]; simpl.
  - constructor. exact Hqp.
  - destruct (goes_before p r).
    + constructor. exact Hqp.
    + constructor. inversion Hl; assumption.
Qed.

Lemma insert_key_sorted p l :
  Sorted key_le l -> Sorted key_le (insert_key p l).
Proof.
  induction l as [|q l IH]; simpl; intros Hs.
  - constructor; constructor.
  - destruct (goes_before p q) eqn:E.
    + constructor; [exact Hs|]. constructor.
      apply goes_before_true. exact E.
    + inversion Hs as [|? ? Hs' Hhd]; subst.
      constructor.
      * apply IH, Hs'.
      * apply insert_key_hd; [|exact Hhd].
        apply goes_before_false. exact E.
Qed.

Lemma sort_keys_perm ks :
  Permutation (sort_keys ks) (combine (seq 0 (List.length ks)) ks).
Proof.
  unfold sort_keys.
  induction (combine (seq 0 (List.length ks)) ks) as [|p l IH]; simpl.
  - apply Permutation_refl.
  - eapply perm_trans; [apply insert_key_perm|]. apply perm_skip, IH.
Qed.

Lemma sort_keys_sorted ks : Sorted key_le (sort_keys ks).
Proof.
  unfold sort_keys.
  induction (combine (seq 0 (List.length ks)) ks) as [|p l IH]; simpl.
  - constructor.
  - apply insert_key_sorted, IH.
Qed.

Lemma map_fst_combine_seq {A} (l : list A) n :
  map fst (combine (seq n (List.length l)) l) = seq n (List.length l).
Proof.
  revert n. induction l as [|a l IH]; intros n; simpl; [reflexivity|].
  f_equal. apply IH.
Qed.

Lemma combine_seq_nth (ks : list Z) n :
  Forall (fun p => (n <= fst p)%nat /\ nth (fst p - n) ks 0 = snd p)
         (combine (seq n (List.length ks)) ks).
Proof.
  revert n. induction ks as [|k ks IH]; intros n; simpl; constructor.
  - simpl. split; [lia|]. replace (n - n)%nat with 0%nat by lia. reflexivity.
  - eapply Forall_impl; [|apply (IH (S n))].
    intros [i z] [Hle Hn]; simpl in *. split; [lia|].
    replace (i - n)%nat with (S (i - S n)) by lia. exact Hn.
Qed.

Lemma sorted_keys_map (l : list (nat * Z)) :
  Sorted key_le l -> Sorted Z.le (map snd l).
Proof.
  induction 1 as [|p l Hs IH Hhd]; simpl; constructor.
  - exact IH.
  - destruct Hhd; simpl; constructor. assumption.
Qed.

Lemma insertion_argsort_perm ks :
  Permutation (insertion_argsort ks) (seq 0 (List.length ks)).
Proof.
  unfold insertion_argsort.
  rewrite <- (map_fst_combine_seq ks 0).
  apply Permutation_map, sort_keys_perm.
Qed.

Lemma insertion_argsort_sorted ks :
  Sorted Z.le (map (fun i => nth i ks 0) (insertion_argsort ks)).
Proof.
  unfold insertion_argsort. rewrite map_map.
  rewrite map_ext_in with (g := snd).
  - apply sorted_keys_map, sort_keys_sorted.
  - intros p Hp.
    assert (H : Forall (fun p => (0 <= fst p)%nat /\ nth (fst p - 0) ks 0 = snd p)
                       (sort_keys ks)).
    { eapply Permutation_Forall.
      - apply Permutation_sym, sort_keys_perm.
      - apply combine_seq_nth. }
    rewrite Forall_forall in H. destruct (H p Hp) as [_ Hn].
    rewrite Nat.sub_0_r in Hn. exact Hn.
Qed.

(** The insertion sort: what [kind="stable"] promises, and what the scalar
    routine of the default kind does on a short table. *)
Definition stable_kind : SortKind :=
  {| argsort := insertion_argsort;
     argsort_perm := insertion_argsort_perm;
     argsort_sorted := insertion_argsort_sorted |}.

(** The vectorised routine (builds for x86-64 with AVX2 or AVX-512) loads
    the keys and their positions into the lanes of a vector register,
    fills the lanes past the last key with the largest value, and orders
    the lanes by a fixed network of compare-exchange steps; the positions
    of the first lanes are the result.  Two lanes are exchanged only when
    the key in the lower lane is strictly the larger one.  Up to four
    keys fit the four lanes of the narrowest register, and the wider one
    does the same with them: neighbours, then the outer and the inner
    pair, then neighbours again. *)

(** A lane: a position with its key, or padding. *)
Definition lane : Type := option (nat * Z).

Definition register : Type := (lane * lane * lane * lane)%type.

(** The key of the lower lane is strictly larger; padding is larger than
    every key. *)
Definition key_above (lo hi : lane) : bool :=
  match lo, hi with
  | Some p, Some q => snd q <? snd p
  | None, Some _ => true
  | _, None => false
  end.

Definition compare_exchange (lo hi : lane) : lane * lane :=
  if key_above lo hi then (hi, lo) else (lo, hi).

Definition sort_register (r : register) : register :=
  let '(l0, l1, l2, l3) := r in
  let '(l0, l1) := compare_exchange l0 l1 in
  let '(l2, l3) := compare_exchange l2 l3 in
  let '(l0, l3) := compare_exchange l0 l3 in
  let '(l1, l2) := compare_exchange l1 l2 in
  let '(l0, l1) := compare_exchange l0 l1 in
  let '(l2, l3) := compare_exchange l2 l3 in
  (l0, l1, l2, l3).

Definition lane_at (ks : list Z) (i : nat) : lane :=
  match nth_error ks i with
  | Some k => Some (i, k)
  | None => None
  end.

Definition load_register (ks : list Z) : register :=
  (lane_at ks 0, lane_at ks 1, lane_at ks 2, lane_at ks 3).

Definition lane_position (l : lane) : nat :=
  match l with
  | Some p => fst p
  | None => 0%nat
  end.

(** The positions of the first [n] lanes. *)
Definition store_register (n : nat) (r : register) : list nat :=
  let '(l0, l1, l2, l3) := r in
  firstn n (map lane_position [l0; l1; l2; l3]).

(** The vectorised routine on at most four keys. *)
Definition register_argsort (ks : list Z) : list nat :=
  store_register (List.length ks) (sort_register (load_register ks)).

(** On more keys the routine merges several registers and, beyond that,
    partitions; [beyond] is whatever it does there. *)
Definition vector_argsort (beyond : list Z -> list nat) (ks : list Z)
  : list nat :=
  if (List.length ks <=? 4)%nat then register_argsort ks else beyond ks.

(** [l] holds every number below [n] and has [n] elements. *)
Definition covers (l : list nat) (n : nat) : bool :=
  (List.length l =? n)%nat
  && forallb (fun i => existsb (Nat.eqb i) l) (seq 0 n).

Lemma covers_perm l n : covers l n = true -> Permutation l (seq 0 n).
Proof.
  unfold covers. intros H. apply andb_prop in H. destruct H as [Hlen Hall].
  apply Nat.eqb_eq in Hlen. apply Permutation_sym.
  apply NoDup_Permutation_bis.
  - apply seq_NoDup.
  - rewrite length_seq. lia.
  - intros i Hi. rewrite forallb_forall in Hall.
    specialize (Hall i Hi). apply existsb_exists in Hall.
    destruct Hall as (j & Hj & E). apply Nat.eqb_eq in E. subst j. exact Hj.
Qed.

Ltac split_keys :=
  repeat match goal with
         | |- context [Z.ltb ?x ?y] => destruct (Z.ltb_spec x y)
         end.

Lemma register_argsort_perm ks :
  (List.length ks <= 4)%nat ->
  Permutation (register_argsort ks) (seq 0 (List.length ks)).
Proof.
  intros Hlen.
  destruct ks as [|a [|b [|c [|d [|e ks]]]]]; cbn in Hlen; try lia;
    apply covers_perm;
    unfold register_argsort, load_register, lane_at, sort_register,
      compare_exchange, key_above;
    cbn [nth_error List.length snd]; split_keys; reflexivity.
Qed.

Lemma register_argsort_sorted ks :
  (List.length ks <= 4)%nat ->
  Sorted Z.le (map (fun i => nth i ks 0) (register_argsort ks)).
Proof.
  intros Hlen.
  destruct ks as [|a [|b [|c [|d [|e ks]]]]]; cbn in Hlen; try lia;
    unfold register_argsort, load_register, lane_at, sort_register,
      compare_exchange, key_above;
    cbn [nth_error List.length snd]; split_keys; cbn in *;
    repeat first [apply Sorted_nil | apply Sorted_cons
                 | apply HdRel_nil | apply HdRel_cons];
    lia.
Qed.

Lemma vector_argsort_perm (beyond : SortKind) ks :
  Permutation (vector_argsort (argsort beyond) ks) (seq 0 (List.length ks)).
Proof.
  unfold vector_argsort. destruct (Nat.leb_spec (List.length ks) 4).
  - apply register_argsort_perm. assumption.
  - apply argsort_perm.
Qed.

Lemma vector_argsort_sorted (beyond : SortKind) ks :
  Sorted Z.le (map (fun i => nth i ks 0) (vector_argsort (argsort beyond) ks)).
Proof.
  unfold vector_argsort. destruct (Nat.leb_spec (List.length ks) 4).
  - apply register_argsort_sorted. assumption.
  - apply argsort_sorted.
Qed.

(** The default kind where the vectorised routine runs. *)
Definition vector_kind (beyond : SortKind) : SortKind :=
  {| argsort := vector_argsort (argsort beyond);
     argsort_perm := vector_argsort_perm beyond;
     argsort_sorted := vector_argsort_sorted beyond |}.

(** ** Sample data *)

(** The float nearest to [n / d], as [json.loads] reads a decimal with that
    value. *)
Definition decimal (n d : Z) : float :=
  SFdiv 53 1024 (binary_normalize 53 1024 n 0 false)
                (binary_normalize 53 1024 d 0 false).

(** A ledger entry with every required field. *)
Definition entry (round : Z) (timestamp : string) (accuracy : float)
    (ipfs_hash block_tx : string) (nodes : list (string * float))
    (notes : string) : pyval :=
  PyDict
    [ (U "round", PyInt round);
      (U "timestamp", PyStr (U timestamp));
      (U "global_accuracy", PyFloat accuracy);
      (U "ipfs_hash", PyStr (U ipfs_hash));
      (U "block_tx", PyStr (U block_tx));
      (U "node_accuracies",
        PyDict (map (fun kv => (U (fst kv), PyFloat (snd kv))) nodes));
      (U "notes", PyStr (U notes)) ].

(** The scenario of the specification's section 8. *)
Definition ledger_e2e : pyval :=
  PyList
    [ entry 1 "2024-01-01T10:00:00.000" (decimal 50 100) "Qm1" "0xabc"
        [("s1"%string, decimal 5 10)] "";
      entry 2 "2024-01-01T10:05:00.000" (decimal 62 100) "Qm2" "0xdef"
        [("s1"%string, decimal 60 100); ("s2"%string, decimal 64 100)] "" ].

(** Rounds 3, 1, 2, 1; the notes tell the two round-1 entries apart. *)
Definition ledger_3121 : pyval :=
  PyList
    [ entry 3 "t" (decimal 1 2) "h" "x" [] "a";
      entry 1 "t" (decimal 1 2) "h" "x" [] "b";
      entry 2 "t" (decimal 1 2) "h" "x" [] "c";
      entry 1 "t" (decimal 1 2) "h" "x" [] "d" ].

(** Rounds 3, 2, 1, 1, with notes a, b, c, d. *)
Definition ledger_3211 : pyval :=
  PyList
    [ entry 3 "t" (decimal 1 2) "h" "x" [] "a";
      entry 2 "t" (decimal 1 2) "h" "x" [] "b";
      entry 1 "t" (decimal 1 2) "h" "x" [] "c";
      entry 1 "t" (decimal 1 2) "h" "x" [] "d" ].

(** An entry without its [round]. *)
Definition ledger_malformed : pyval :=
  PyList [ PyDict [ (U "timestamp", PyStr (U "t")) ] ].


(** * Properties *)

(** ** Display formatter: truncation *)

Lemma clamp_index_nonneg i len :
  0 <= i <= len -> clamp_index i len = i.
Proof.
  intros H. unfold clamp_index.
  destruct (i <? 0) eqn:E; [apply Z.ltb_lt in E; lia|]. lia.
Qed.

Lemma clamp_index_neg i len :
  0 < i <= len -> clamp_index (- i) len = len - i.
Proof.
  intros H. unfold clamp_index.
  destruct (- i <? 0) eqn:E; [|apply Z.ltb_ge in E; lia]. lia.
Qed.

Lemma slice_to_firstn {A} (s : list A) n :
  0 <= n <= Z.of_nat (List.length s) -> slice_to s n = firstn (Z.to_nat n) s.
Proof.
  intros H. unfold slice_to. rewrite clamp_index_nonneg by exact H. reflexivity.
Qed.

Lemma slice_from_last_chars (s : pystr) n :
  0 < n <= py_len s -> slice_from s (- n) = last_chars (Z.to_nat n) s.
Proof.
  intros H. unfold slice_from, last_chars, py_len in *.
  rewrite clamp_index_neg by exact H. f_equal. lia.
Qed.

(** With no characters to keep at the end the slice [s[-0:]] is [s[0:]],
    the whole string. *)
Lemma slice_from_zero {A} (s : list A) : slice_from s (- 0) = s.
Proof.
  unfold slice_from, clamp_index. simpl.
  rewrite Z.min_l by lia. reflexivity.
Qed.

Lemma truncate_hash_long (s : pystr) keep_start keep_end :
  0 <= keep_start -> 0 < keep_end -> py_len s > keep_start + keep_end ->
  truncate_hash (PyStr s) keep_start keep_end
  = PyStr (firstn (Z.to_nat keep_start) s ++ U "..."
           ++ last_chars (Z.to_nat keep_end) s).
Proof.
  intros Hs He Hlen. unfold truncate_hash.
  destruct (py_len s >? keep_start + keep_end) eqn:E.
  - rewrite slice_to_firstn by (unfold py_len in Hlen; lia).
    rewrite slice_from_last_chars by lia. reflexivity.
  - rewrite Z.gtb_ltb in E. apply Z.ltb_ge in E. lia.
Qed.

Lemma truncate_hash_short (s : pystr) keep_start keep_end :
  py_len s <= keep_start + keep_end ->
  truncate_hash (PyStr s) keep_start keep_end = PyStr s.
Proof.
  intros Hlen. unfold truncate_hash.
  destruct (py_len s >? keep_start + keep_end) eqn:E; [|reflexivity].
  rewrite Z.gtb_ltb in E. apply Z.ltb_lt in E. lia.
Qed.

Lemma truncate_hash_not_str v keep_start keep_end :
  (forall s, v <> PyStr s) -> truncate_hash v keep_start keep_end = v.
Proof.
  intros H. destruct v; try reflexivity. exfalso. apply (H s). reflexivity.
Qed.

(** C5, as amended.  For every value and every [keep_start >= 0] and
    [keep_end > 0]: a string longer than [keep_start + keep_end] becomes its
    first [keep_start] characters, ["..."], and its last [keep_end]
    characters; a string no longer than that, and any value that is not a
    string, is returned unchanged.  With the defaults 8 and 8 the
    66-character sample hash becomes ["0x008a3e...5a25722a"] and every
    string of at most 16 characters is unchanged. *)
Theorem truncate_hash_spec :
  forall (v : pyval) (keep_start keep_end : Z),
    0 <= keep_start -> 0 < keep_end ->
    (forall s, v = PyStr s -> py_len s > keep_start + keep_end ->
       truncate_hash v keep_start keep_end
       = PyStr (firstn (Z.to_nat keep_start) s ++ U "..."
                ++ last_chars (Z.to_nat keep_end) s))
    /\ (forall s, v = PyStr s -> py_len s <= keep_start + keep_end ->
          truncate_hash v keep_start keep_end = v)
    /\ ((forall s, v <> PyStr s) -> truncate_hash v keep_start keep_end = v)
    /\ py_len sample_hash = 66
    /\ truncate_hash_default (PyStr sample_hash)
       = PyStr (U "0x008a3e...5a25722a")
    /\ (forall s, py_len s <= 16 ->
          truncate_hash_default (PyStr s) = PyStr s).
Proof.
  intros v keep_start keep_end Hs He. repeat split.
  - intros s -> Hlen. apply truncate_hash_long; assumption.
  - intros s -> Hlen. apply truncate_hash_short; assumption.
  - apply truncate_hash_not_str.
  - intros s Hlen. apply truncate_hash_short. lia.
Qed.

Lemma truncate_hash_spec_witness :
  truncate_hash (PyStr (U "abcdefghij")) 3 2 = PyStr (U "abc...ij").
Proof.
  pose proof (truncate_hash_spec (PyStr (U "abcdefghij")) (keep_start := 3)
                (keep_end := 2) ltac:(lia) ltac:(lia)) as [H _].
  exact (H (U "abcdefghij") eq_refl ltac:(vm_compute; reflexivity)).
Defined.

(** C5 as the specification states it fails twice.  The sample hash ends
    in ["5a25722a"], not in ["e5722a"]; and for [keep_end = 0] the code
    appends the whole string, not its last zero characters. *)
Lemma truncate_hash_counterexample :
  truncate_hash (PyStr sample_hash) 8 8 <> PyStr (U "0x008a3e...e5722a")
  /\ py_len (U "abcdefghij") > 3 + 0
  /\ truncate_hash (PyStr (U "abcdefghij")) 3 0
     = PyStr (U "abc...abcdefghij")
  /\ truncate_hash (PyStr (U "abcdefghij")) 3 0
     <> PyStr (firstn 3 (U "abcdefghij") ++ U "..."
               ++ last_chars 0 (U "abcdefghij")).
Proof.
  repeat split; try discriminate; reflexivity.
Qed.

(** ** Display formatter: the accuracy delta *)

Lemma f64_sub_diag (x : float) :
  is_finite x = true -> f64_sub x x = f64_zero.
Proof.
  destruct x as [s| s | | s m e]; simpl; try discriminate; intros _.
  - destruct s; reflexivity.
  - unfold f64_sub, SFsub. rewrite Z.sub_diag. reflexivity.
Qed.

(** What [render_dashboard_content] shows as the delta is
    [accuracy_delta] of the trailing window and its last row. *)
Lemma render_delta df rounds_to_show d :
  render_dashboard_content df rounds_to_show = Ok (Dashboard d) ->
  exists latest,
    iloc_back (tail df rounds_to_show) 1 = Ok latest
    /\ accuracy_delta (tail df rounds_to_show) latest = Ok (delta d).
Proof.
  unfold render_dashboard_content.
  destruct (df_empty df); [discriminate|].
  repeat match goal with
         | |- context [rbind ?r _] =>
             let E := fresh "E" in
             destruct r eqn:E; simpl; [|discriminate]
         end.
  intros H. injection H as <-. simpl.
  eexists. split; [reflexivity | eassumption].
Qed.

(** C6.  The delta is (latest accuracy - previous row's accuracy) * 100;
    with fewer than two rows the previous accuracy is the latest one, and
    then, for a single row holding a finite accuracy, the delta is exactly
    zero.  The last part of the statement ties the delta on the dashboard
    to this computation. *)
Theorem accuracy_delta_spec :
  forall (df : DataFrame) (latest : list cell) (last_acc : float),
    iloc_back df 1 = Ok latest ->
    (let? c := row_getitem (columns df) latest (U "global_accuracy") in
     as_float c)%result = Ok last_acc ->
    (forall prev prev_acc,
        (1 < List.length (data df))%nat ->
        iloc_back df 2 = Ok prev ->
        (let? c := row_getitem (columns df) prev (U "global_accuracy") in
         as_float c)%result = Ok prev_acc ->
        accuracy_delta df latest
        = Ok (f64_mul (f64_sub last_acc prev_acc) f64_100))
    /\ ((List.length (data df) < 2)%nat ->
        accuracy_delta df latest
        = Ok (f64_mul (f64_sub last_acc last_acc) f64_100))
    /\ ((List.length (data df) < 2)%nat -> is_finite last_acc = true ->
        accuracy_delta df latest = Ok f64_zero)
    /\ (forall df0 rounds_to_show d,
          df = tail df0 rounds_to_show ->
          render_dashboard_content df0 rounds_to_show = Ok (Dashboard d) ->
          accuracy_delta df latest = Ok (delta d)).
Proof.
  intros df latest last_acc Hlatest Hlast.
  destruct (row_getitem (columns df) latest (U "global_accuracy"))
    as [c|] eqn:Ec; [|discriminate].
  simpl in Hlast.
  assert (Hsingle : (List.length (data df) < 2)%nat ->
                    accuracy_delta df latest
                    = Ok (f64_mul (f64_sub last_acc last_acc) f64_100)).
  { intros Hlen. unfold accuracy_delta.
    destruct (1 <? List.length (data df))%nat eqn:E;
      [apply Nat.ltb_lt in E; lia|].
    rewrite Ec. simpl. rewrite Hlast. reflexivity. }
  repeat split.
  - intros prev prev_acc Hlen Hprev Hacc. unfold accuracy_delta.
    destruct (1 <? List.length (data df))%nat eqn:E;
      [|apply Nat.ltb_ge in E; lia].
    rewrite Hprev. simpl.
    destruct (row_getitem (columns df) prev (U "global_accuracy"))
      as [p|]; [|discriminate].
    simpl in *. rewrite Ec. simpl. rewrite Hlast, Hacc. reflexivity.
  - exact Hsingle.
  - intros Hlen Hfin. rewrite (Hsingle Hlen).
    rewrite (f64_sub_diag _ Hfin). reflexivity.
  - intros df0 n d -> Hr.
    destruct (render_delta _ _ Hr) as (latest' & Hl' & Hd).
    rewrite Hlatest in Hl'. injection Hl' as <-. exact Hd.
Qed.

(** The table of the section-8 scenario. *)
Definition frame_e2e : DataFrame :=
  Eval vm_compute in
    match ledger_to_df stable_kind ledger_e2e with
    | Ok df => df
    | Raise _ => empty_frame
    end.

Definition f64_12 : float := binary_normalize 53 1024 12 0 false.

Lemma accuracy_delta_spec_witness :
  accuracy_delta (tail frame_e2e 1) (nth 1 (data frame_e2e) []) = Ok f64_zero
  /\ accuracy_delta frame_e2e (nth 1 (data frame_e2e) []) = Ok f64_12.
Proof.
  split.
  - refine (proj1 (proj2 (proj2
      (@accuracy_delta_spec (tail frame_e2e 1) (nth 1 (data frame_e2e) [])
         (decimal 62 100) _ _))) _ _).
    + reflexivity.
    + reflexivity.
    + vm_compute. lia.
    + reflexivity.
  - refine (proj1
      (@accuracy_delta_spec frame_e2e (nth 1 (data frame_e2e) [])
         (decimal 62 100) _ _)
      (nth 0 (data frame_e2e) []) (decimal 50 100) _ _ _).
    + reflexivity.
    + reflexivity.
    + vm_compute. lia.
    + reflexivity.
    + reflexivity.
Defined.

(** ** Display formatter: relabelling the node columns *)

(** The aliases of [n] columns: a function of [n] alone. *)
Definition aliases_of_length (n : nat) : result (list pystr) :=
  rmap alias_at (seq 0 n).

(** What the relabelling loop produces, seen through the aliases only. *)
Definition relabel_aliases (cols : list pystr) : result (list pystr) :=
  match relabel cols with
  | Ok m => Ok (aliases m)
  | Raise e => Raise e
  end.

Lemma pystr_eqb_eq a b : pystr_eqb a b = true <-> a = b.
Proof.
  unfold pystr_eqb. destruct (pystr_eq_dec a b); split; congruence.
Qed.

Lemma pystr_eqb_refl a : pystr_eqb a a = true.
Proof. apply pystr_eqb_eq. reflexivity. Qed.

Lemma pystr_eqb_neq a b : a <> b -> pystr_eqb a b = false.
Proof.
  intros H. destruct (pystr_eqb a b) eqn:E; [|reflexivity].
  apply pystr_eqb_eq in E. contradiction.
Qed.

Lemma dict_set_fresh {V} k (v : V) d :
  ~ In k (map fst d) -> dict_set k v d = d ++ [(k, v)].
Proof.
  induction d as [|[k' v'] d IH]; simpl; intros Hk; [reflexivity|].
  rewrite pystr_eqb_neq by (intros ->; apply Hk; left; reflexivity).
  f_equal. apply IH. intros Hin. apply Hk. right. exact Hin.
Qed.

Lemma rmap_length {A B} (f : A -> result B) l bs :
  rmap f l = Ok bs -> List.length bs = List.length l.
Proof.
  revert bs. induction l as [|a l IH]; simpl; intros bs H.
  - injection H as <-. reflexivity.
  - destruct (f a); [|discriminate].
    destruct (rmap f l); [|discriminate].
    injection H as <-. simpl. f_equal. apply IH. reflexivity.
Qed.

Lemma relabel_from_spec cols : forall i acc,
  NoDup cols ->
  (forall c, In c cols -> ~ In c (map fst acc)) ->
  relabel_from i cols acc
  = match rmap alias_at (seq i (List.length cols)) with
    | Ok als => Ok (acc ++ combine cols als)
    | Raise e => Raise e
    end.
Proof.
  induction cols as [|col rest IH]; intros i acc Hnd Hfresh;
    cbn [relabel_from rmap seq List.length combine].
  - rewrite app_nil_r. reflexivity.
  - destruct (alias_at i) as [a|e]; [|reflexivity].
    inversion Hnd as [|? ? Hnotin Hnd']; subst.
    rewrite dict_set_fresh by (apply Hfresh; left; reflexivity).
    rewrite IH.
    + destruct (rmap alias_at (seq (S i) (List.length rest))); [|reflexivity].
      rewrite <- app_assoc. reflexivity.
    + exact Hnd'.
    + intros c Hc. rewrite map_app, in_app_iff. simpl.
      intros [Hin|[<-|[]]].
      * apply (Hfresh c); [right; exact Hc|exact Hin].
      * contradiction.
Qed.

Lemma relabel_aliases_by_length cols :
  NoDup cols -> relabel_aliases cols = aliases_of_length (List.length cols).
Proof.
  intros Hnd. unfold relabel_aliases, relabel, aliases_of_length.
  rewrite relabel_from_spec; [|exact Hnd|intros c _ []].
  destruct (rmap alias_at (seq 0 (List.length cols))) as [als|e] eqn:E;
    [|reflexivity].
  simpl. unfold aliases. f_equal.
  apply rmap_length in E. rewrite length_seq in E.
  clear Hnd. revert als E.
  induction cols as [|c cols IH]; intros [|a als] E; simpl in *;
    try discriminate; try reflexivity.
  f_equal. apply IH. lia.
Qed.

Lemma apply_column_columns df c f df' :
  apply_column df c f = Ok df' -> columns df' = columns df.
Proof.
  unfold apply_column. destruct (index_of c (columns df)); [|discriminate].
  intros H. injection H as <-. reflexivity.
Qed.

(** The map [render_dashboard_content] renames with is the relabelling of
    the table's node columns. *)
Lemma render_rename_map df rounds_to_show d :
  render_dashboard_content df rounds_to_show = Ok (Dashboard d) ->
  relabel (business_cols (columns df)) = Ok (rename_map d).
Proof.
  unfold render_dashboard_content.
  destruct (df_empty df); [discriminate|].
  destruct (apply_column (tail df rounds_to_show) (U "ipfs_hash")
              truncate_hash_default) as [d1|] eqn:E1; [|discriminate].
  cbn [rbind].
  destruct (apply_column d1 (U "block_tx") truncate_hash_default)
    as [d2|] eqn:E2; [|discriminate].
  cbn [rbind].
  apply apply_column_columns in E1, E2. rewrite E2, E1.
  cbn [tail columns].
  destruct (relabel (business_cols (columns df))) as [rm|]; [|discriminate].
  cbn [rbind].
  repeat match goal with
         | |- context [rbind ?r _] =>
             destruct r; cbn [rbind]; [|discriminate]
         end.
  intros H. injection H as <-. reflexivity.
Qed.

(** The node columns of a table with distinct labels are distinct. *)
Lemma business_cols_NoDup cols : NoDup cols -> NoDup (business_cols cols).
Proof. apply NoDup_filter. Qed.

(** C7.  The labels of a data frame are distinct.  For two lists of node
    columns of the same length the relabelling loop yields the same alias
    sequence (or stops on the same error once the positions run past the
    last code point): the sequence is [aliases_of_length] of the length,
    in which no column name occurs.  Hence two tables whose node columns
    are these lists are rendered with the same aliases. *)
Theorem relabel_noninterference :
  forall cols1 cols2 : list pystr,
    NoDup cols1 -> NoDup cols2 ->
    List.length cols1 = List.length cols2 ->
    relabel_aliases cols1 = relabel_aliases cols2
    /\ relabel_aliases cols1 = aliases_of_length (List.length cols1)
    /\ (forall df1 df2 n1 n2 d1 d2,
          business_cols (columns df1) = cols1 ->
          business_cols (columns df2) = cols2 ->
          render_dashboard_content df1 n1 = Ok (Dashboard d1) ->
          render_dashboard_content df2 n2 = Ok (Dashboard d2) ->
          aliases (rename_map d1) = aliases (rename_map d2)).
Proof.
  intros cols1 cols2 H1 H2 Hlen.
  assert (Heq : relabel_aliases cols1 = relabel_aliases cols2).
  { rewrite !relabel_aliases_by_length by assumption.
    rewrite Hlen. reflexivity. }
  split; [exact Heq|]. split.
  - apply relabel_aliases_by_length. exact H1.
  - intros df1 df2 n1 n2 d1 d2 <- <- Hr1 Hr2.
    apply render_rename_map in Hr1, Hr2.
    unfold relabel_aliases in Heq. rewrite Hr1, Hr2 in Heq.
    injection Heq as Heq. exact Heq.
Qed.

Lemma NoDup_pystr_dec (l : list pystr) : {NoDup l} + {~ NoDup l}.
Proof.
  induction l as [|a l [IH|IH]].
  - left. constructor.
  - destruct (in_dec pystr_eq_dec a l) as [Hin|Hnin].
    + right. intros H. inversion H. contradiction.
    + left. constructor; assumption.
  - right. intros H. inversion H. contradiction.
Defined.

Lemma relabel_noninterference_witness :
  relabel_aliases [U "Store_s1"; U "Store_s2"]
  = relabel_aliases [U "Store_north"; U "Store_7f3a"]
  /\ relabel_aliases [U "Store_s1"; U "Store_s2"]
     = Ok [U "Store_A"; U "Store_B"].
Proof.
  refine (let H := @relabel_noninterference
            [U "Store_s1"; U "Store_s2"] [U "Store_north"; U "Store_7f3a"]
            _ _ eq_refl in conj (proj1 H) (proj1 (proj2 H))).
  - destruct (NoDup_pystr_dec [U "Store_s1"; U "Store_s2"]) as [H|H] eqn:E;
      [exact H|discriminate E].
  - destruct (NoDup_pystr_dec [U "Store_north"; U "Store_7f3a"]) as [H|H] eqn:E;
      [exact H|discriminate E].
Defined.

(** ** Display formatter: the explorer link *)

(** The link on the dashboard never depends on the table. *)
Lemma render_link_constant df rounds_to_show d :
  render_dashboard_content df rounds_to_show = Ok (Dashboard d) ->
  blockchain_markdown d
  = U "[View Transaction on Etherscan](" ++ explorer_template ++ sample_hash
    ++ U ")".
Proof.
  unfold render_dashboard_content.
  destruct (df_empty df); [discriminate|].
  repeat match goal with
         | |- context [rbind ?r _] =>
             destruct r; cbn [rbind]; [|discriminate]
         end.
  intros H. injection H as <-. reflexivity.
Qed.

(** A ledger of one round whose transaction is [0xabc]. *)
Definition ledger_one : pyval :=
  PyList [ entry 1 "2024-01-01T10:00:00.000" (decimal 50 100) "Qm1" "0xabc"
             [("s1"%string, decimal 5 10)] "" ].

Definition frame_one : DataFrame :=
  Eval vm_compute in
    match ledger_to_df stable_kind ledger_one with
    | Ok df => df
    | Raise _ => empty_frame
    end.

(** C8, the code at a failing input.  The only round of the table records
    the transaction [0xabc]; the dashboard links to the transaction written
    into line 249 instead. *)
Theorem blockchain_link_ignores_block_tx :
  ledger_to_df stable_kind ledger_one = Ok frame_one
  /\ column_values frame_one (U "block_tx") = Ok [Val (PyStr (U "0xabc"))]
  /\ exists d,
       render_dashboard_content frame_one 10 = Ok (Dashboard d)
       /\ blockchain_markdown d
          = U "[View Transaction on Etherscan](https://sepolia.etherscan.io/tx/0x008a3ef87cb15c2490b8e3029a356812b217e8c2e49389c62945eb125a25722a)"
       /\ blockchain_markdown d
          <> U "[View Transaction on Etherscan](" ++ explorer_template
               ++ U "0xabc" ++ U ")".
Proof.
  split; [vm_compute; reflexivity|].
  split; [vm_compute; reflexivity|].
  destruct (render_dashboard_content frame_one 10) as [[w|d]|e] eqn:E;
    try (vm_compute in E; discriminate E).
  exists d. split; [reflexivity|].
  rewrite (render_link_constant _ _ E).
  split; [reflexivity|]. vm_compute. discriminate.
Qed.

Lemma doc_missing_dec (d : doc) : {d = Missing} + {d <> Missing}.
Proof. destruct d; [left; reflexivity|right; discriminate..]. Qed.

(** ** Ledger reader *)

(** A read-and-parse attempt fails, with an exception the [except] clauses
    name, when the document is gone or when its content, not empty, is
    malformed. *)
Definition attempt_fails (json_loads : pystr -> parse) (d : doc) : Prop :=
  match d with
  | Missing => True
  | Content c => c <> [] /\ json_loads c = Malformed
  | _ => False
  end.

(** An attempt raises an exception the [except] clauses do not name when
    the document cannot be read as text, or when the parser gives up on
    its content for another reason than a malformed text. *)
Definition attempt_escapes (json_loads : pystr -> parse) (d : doc) (e : exn)
  : Prop :=
  match d with
  | Missing => False
  | Content c =>
      c <> []
      /\ ((json_loads c = TooDeep /\ e = RecursionError)
          \/ (json_loads c = IntTooLong /\ e = ValueError))
  | Undecodable => e = UnicodeDecodeError
  | Directory => e = IsADirectoryError
  | Unreadable => e = PermissionError
  end.

(** The document is missing, or is a text that the parser reads or
    rejects as malformed. *)
Definition decodes (json_loads : pystr -> parse) (d : doc) : Prop :=
  match d with
  | Missing => True
  | Content c => json_loads c <> TooDeep /\ json_loads c <> IntTooLong
  | _ => False
  end.

Lemma truthy_str_nonempty (c : pystr) : c <> [] -> truthy (PyStr c) = true.
Proof. destruct c; [congruence|reflexivity]. Qed.

Lemma read_and_parse_missing json_loads ledger_doc w :
  ledger_doc (looks w) = Missing ->
  read_and_parse json_loads ledger_doc w
  = (Raise FileNotFoundError, log EvRead (next_look w)).
Proof.
  intros H. unfold read_and_parse, bind, open_read. rewrite H. reflexivity.
Qed.

Lemma read_and_parse_empty json_loads ledger_doc w :
  ledger_doc (looks w) = Content [] ->
  read_and_parse json_loads ledger_doc w
  = (Ok (PyList []), log EvRead (next_look w)).
Proof.
  intros H. unfold read_and_parse, bind, open_read. rewrite H. reflexivity.
Qed.

Lemma read_and_parse_content json_loads ledger_doc w c :
  ledger_doc (looks w) = Content c -> c <> [] ->
  read_and_parse json_loads ledger_doc w
  = (parse_result (json_loads c), log EvRead (next_look w)).
Proof.
  intros H Hc. unfold read_and_parse, bind, open_read. rewrite H.
  rewrite (truthy_str_nonempty Hc). reflexivity.
Qed.

Lemma decode_or_missing_escapes json_loads d e :
  attempt_escapes json_loads d e -> decode_or_missing e = false.
Proof.
  destruct d; cbn; try tauto; try (intros ->; reflexivity).
  intros [_ [[_ ->]|[_ ->]]]; reflexivity.
Qed.

Lemma attempt_fails_escapes json_loads d e :
  attempt_fails json_loads d -> attempt_escapes json_loads d e -> False.
Proof.
  destruct d; cbn; try tauto.
  intros [_ H] [_ [[H' _]|[H' _]]]; congruence.
Qed.

Lemma decodes_escapes json_loads d e :
  decodes json_loads d -> attempt_escapes json_loads d e -> False.
Proof.
  destruct d; cbn; tauto.
Qed.

(** Every attempt returns a value, raises one of the two exceptions the
    [except] clauses name, or raises another one. *)
Lemma read_and_parse_cases json_loads ledger_doc w :
  (exists v, read_and_parse json_loads ledger_doc w
             = (Ok v, log EvRead (next_look w))
             /\ ~ attempt_fails json_loads (ledger_doc (looks w)))
  \/ (exists e, read_and_parse json_loads ledger_doc w
                = (Raise e, log EvRead (next_look w))
                /\ decode_or_missing e = true
                /\ attempt_fails json_loads (ledger_doc (looks w)))
  \/ (exists e, read_and_parse json_loads ledger_doc w
                = (Raise e, log EvRead (next_look w))
                /\ decode_or_missing e = false
                /\ attempt_escapes json_loads (ledger_doc (looks w)) e).
Proof.
  destruct (ledger_doc (looks w)) as [|c| | |] eqn:Ed.
  - right; left. exists FileNotFoundError.
    rewrite (read_and_parse_missing _ _ _ Ed). simpl. auto.
  - destruct c as [|ch c].
    + left. exists (PyList []).
      rewrite (read_and_parse_empty _ _ _ Ed). simpl.
      split; [reflexivity|]. intros [H _]. congruence.
    + rewrite (read_and_parse_content json_loads _ _ Ed) by discriminate.
      destruct (json_loads (ch :: c)) as [v| | |] eqn:Ej; cbn [parse_result].
      * left. exists v. split; [reflexivity|]. simpl. rewrite Ej.
        intros [_ H]. discriminate.
      * right; left. exists JSONDecodeError. simpl. rewrite Ej.
        repeat split; try reflexivity. discriminate.
      * right; right. exists RecursionError. simpl. rewrite Ej.
        repeat split; try reflexivity; [discriminate|]. left. auto.
      * right; right. exists ValueError. simpl. rewrite Ej.
        repeat split; try reflexivity; [discriminate|]. right. auto.
  - right; right. exists UnicodeDecodeError.
    unfold read_and_parse, bind, open_read. rewrite Ed. cbn. auto.
  - right; right. exists IsADirectoryError.
    unfold read_and_parse, bind, open_read. rewrite Ed. cbn. auto.
  - right; right. exists PermissionError.
    unfold read_and_parse, bind, open_read. rewrite Ed. cbn. auto.
Qed.

Definition after_exists (w : world) : world := log EvExists (next_look w).
Definition after_read (w : world) : world := log EvRead (next_look w).
Definition after_sleep (ms : N) (w : world) : world :=
  log (EvSleep ms)
      {| looks := looks w; clock := (clock w + ms)%N; cache := cache w;
         trace := trace w |}.

Lemma try_except_ok {A} (body : M A) classes handler w a w' :
  body w = (Ok a, w') -> try_except body classes handler w = (Ok a, w').
Proof. intros H. unfold try_except. rewrite H. reflexivity. Qed.

Lemma try_except_caught {A} (body : M A) classes handler w e w' :
  body w = (Raise e, w') -> classes e = true ->
  try_except body classes handler w = handler w'.
Proof. intros H Hc. unfold try_except. rewrite H, Hc. reflexivity. Qed.

Lemma try_except_uncaught {A} (body : M A) classes handler w e w' :
  body w = (Raise e, w') -> classes e = false ->
  try_except body classes handler w = (Raise e, w').
Proof. intros H Hc. unfold try_except. rewrite H, Hc. reflexivity. Qed.

Lemma load_ledger_unfold json_loads ledger_doc w :
  load_ledger json_loads ledger_doc w
  = match ledger_doc (looks w) with
    | Missing => (Ok (PyList []), after_exists w)
    | _ =>
        try_except (read_and_parse json_loads ledger_doc) decode_or_missing
          (fun w1 =>
             try_except (read_and_parse json_loads ledger_doc)
               decode_or_missing (ret (PyList [])) (after_sleep 100 w1))
          (after_exists w)
    end.
Proof.
  unfold load_ledger, bind, ledger_exists.
  destruct (ledger_doc (looks w)); reflexivity.
Qed.

(** The six ways through [load_ledger]: four that return and two that
    raise. *)
Lemma load_ledger_cases json_loads ledger_doc w :
  let d0 := ledger_doc (looks w) in
  let d1 := ledger_doc (S (looks w)) in
  let d2 := ledger_doc (S (S (looks w))) in
  (d0 = Missing
   /\ load_ledger json_loads ledger_doc w = (Ok (PyList []), after_exists w))
  \/ (d0 <> Missing /\ ~ attempt_fails json_loads d1
      /\ exists v, load_ledger json_loads ledger_doc w
                   = (Ok v, after_read (after_exists w))
                   /\ read_and_parse json_loads ledger_doc (after_exists w)
                      = (Ok v, after_read (after_exists w)))
  \/ (d0 <> Missing /\ attempt_fails json_loads d1
      /\ ~ attempt_fails json_loads d2
      /\ exists v, load_ledger json_loads ledger_doc w
                   = (Ok v, after_read (after_sleep 100 (after_read (after_exists w))))
                   /\ read_and_parse json_loads ledger_doc
                        (after_sleep 100 (after_read (after_exists w)))
                      = (Ok v, after_read (after_sleep 100 (after_read (after_exists w)))))
  \/ (d0 <> Missing /\ attempt_fails json_loads d1
      /\ attempt_fails json_loads d2
      /\ load_ledger json_loads ledger_doc w
         = (Ok (PyList []),
            after_read (after_sleep 100 (after_read (after_exists w)))))
  \/ (d0 <> Missing
      /\ exists e, attempt_escapes json_loads d1 e
                   /\ load_ledger json_loads ledger_doc w
                      = (Raise e, after_read (after_exists w)))
  \/ (d0 <> Missing /\ attempt_fails json_loads d1
      /\ exists e, attempt_escapes json_loads d2 e
                   /\ load_ledger json_loads ledger_doc w
                      = (Raise e,
                         after_read (after_sleep 100 (after_read (after_exists w))))).
Proof.
  intros d0 d1 d2. subst d0 d1 d2.
  rewrite load_ledger_unfold.
  assert (Hgo :
    ledger_doc (looks w) <> Missing ->
    match ledger_doc (looks w) with
    | Missing => (Ok (PyList []), after_exists w)
    | _ =>
        try_except (read_and_parse json_loads ledger_doc) decode_or_missing
          (fun w1 =>
             try_except (read_and_parse json_loads ledger_doc)
               decode_or_missing (ret (PyList [])) (after_sleep 100 w1))
          (after_exists w)
    end
    = try_except (read_and_parse json_loads ledger_doc) decode_or_missing
          (fun w1 =>
             try_except (read_and_parse json_loads ledger_doc)
               decode_or_missing (ret (PyList [])) (after_sleep 100 w1))
          (after_exists w)).
  { destruct (ledger_doc (looks w)); [congruence|reflexivity..]. }
  destruct (doc_missing_dec (ledger_doc (looks w))) as [E0|E0].
  - left. rewrite E0. split; reflexivity.
  - right. rewrite (Hgo E0). clear Hgo.
    destruct (read_and_parse_cases json_loads ledger_doc (after_exists w))
      as [(v & Hr & Hok)|[(e & Hr & He & Hfail)|(e & Hr & He & Hesc)]].
    + left. split; [exact E0|]. split; [exact Hok|].
      exists v. split; [|exact Hr].
      apply try_except_ok. exact Hr.
    + right. rewrite (try_except_caught _ _ _ _ Hr He).
      destruct (read_and_parse_cases json_loads ledger_doc
                  (after_sleep 100 (after_read (after_exists w))))
        as [(v & Hr2 & Hok2)|[(e2 & Hr2 & He2 & Hfail2)|(e2 & Hr2 & He2 & Hesc2)]].
      * left. split; [exact E0|]. split; [exact Hfail|].
        split; [exact Hok2|]. exists v. split; [|exact Hr2].
        apply try_except_ok. exact Hr2.
      * right; left. split; [exact E0|]. split; [exact Hfail|].
        split; [exact Hfail2|].
        rewrite (try_except_caught _ _ _ _ Hr2 He2). reflexivity.
      * right; right; right. split; [exact E0|]. split; [exact Hfail|].
        exists e2. split; [exact Hesc2|].
        apply (try_except_uncaught _ _ _ _ Hr2 He2).
    + right; right; right; left. split; [exact E0|].
      exists e. split; [exact Hesc|].
      apply (try_except_uncaught _ _ _ _ Hr He).
Qed.

(** The events of one call, by the way taken through [load_ledger]. *)
Lemma load_ledger_trace json_loads ledger_doc w :
  let w' := snd (load_ledger json_loads ledger_doc w) in
  (trace w' = trace w ++ [EvExists] /\ clock w' = clock w)
  \/ (trace w' = trace w ++ [EvExists; EvRead] /\ clock w' = clock w)
  \/ (trace w' = trace w ++ [EvExists; EvRead; EvSleep 100; EvRead]
      /\ clock w' = (clock w + 100)%N
      /\ attempt_fails json_loads (ledger_doc (S (looks w)))).
Proof.
  destruct (load_ledger_cases json_loads ledger_doc w)
    as [(_ & H)|[(_ & _ & v & H & _)|[(_ & Hf & _ & v & H & _)
       |[(_ & Hf & _ & H)|[(_ & e & _ & H)|(_ & Hf & e & _ & H)]]]]];
    cbv zeta; rewrite H; cbn [snd].
  - left. split; reflexivity.
  - right; left. cbn. rewrite <- app_assoc. split; reflexivity.
  - right; right. cbn. rewrite <- !app_assoc. repeat split; assumption.
  - right; right. cbn. rewrite <- !app_assoc. repeat split; assumption.
  - right; left. cbn. rewrite <- app_assoc. split; reflexivity.
  - right; right. cbn. rewrite <- !app_assoc. repeat split; assumption.
Qed.

(** C1, as amended.  [load_ledger] returns a value, raising nothing,
    whenever the two looks of its attempts find a document that is
    missing or is a text the parser reads or rejects as malformed.  It
    returns the empty list when the document is missing, when its content
    is empty, and when the first attempt and the retry both fail with an
    exception the [except] clauses name; and [ledger_to_df] of the empty
    list is the empty frame, the one [df.empty] recognises.  An exception
    that these clauses do not name (bytes that do not decode, a directory,
    a file that may not be read, a parser that gives up for another
    reason than a malformed text) is the only thing [load_ledger] ever
    raises, and it is raised by one of the two attempts. *)
Theorem load_ledger_never_raises :
  forall (json_loads : pystr -> parse) (ledger_doc : nat -> doc)
         (K : SortKind) (w : world),
    (decodes json_loads (ledger_doc (S (looks w))) ->
     decodes json_loads (ledger_doc (S (S (looks w)))) ->
     exists v w', load_ledger json_loads ledger_doc w = (Ok v, w'))
    /\ (ledger_doc (looks w) = Missing ->
        fst (load_ledger json_loads ledger_doc w) = Ok (PyList []))
    /\ (ledger_doc (looks w) <> Missing ->
        ledger_doc (S (looks w)) = Content [] ->
        fst (load_ledger json_loads ledger_doc w) = Ok (PyList []))
    /\ (ledger_doc (looks w) <> Missing ->
        attempt_fails json_loads (ledger_doc (S (looks w))) ->
        attempt_fails json_loads (ledger_doc (S (S (looks w)))) ->
        fst (load_ledger json_loads ledger_doc w) = Ok (PyList []))
    /\ ledger_to_df K (PyList []) = Ok empty_frame
    /\ df_empty empty_frame = true
    /\ (forall e w',
          load_ledger json_loads ledger_doc w = (Raise e, w') ->
          decode_or_missing e = false
          /\ (attempt_escapes json_loads (ledger_doc (S (looks w))) e
              \/ attempt_escapes json_loads (ledger_doc (S (S (looks w)))) e)).
Proof.
  intros json_loads ledger_doc K w.
  pose proof (load_ledger_cases json_loads ledger_doc w) as Hc.
  cbv zeta in Hc.
  split; [|split; [|split; [|split; [|split; [reflexivity|split; [reflexivity|]]]]]].
  - intros Hd1 Hd2.
    destruct Hc as [(_ & H)|[(_ & _ & v & H & _)|[(_ & _ & _ & v & H & _)
       |[(_ & _ & _ & H)|[(_ & e & He & _)|(_ & _ & e & He & _)]]]]];
      try (rewrite H; eauto; fail).
    + destruct (decodes_escapes _ _ _ Hd1 He).
    + destruct (decodes_escapes _ _ _ Hd2 He).
  - intros Hm.
    destruct Hc as [(_ & H)|[(Hn & _)|[(Hn & _)|[(Hn & _)|[(Hn & _)|(Hn & _)]]]]];
      [rewrite H; reflexivity|contradiction..].
  - intros _ He.
    destruct Hc as [(_ & H)|[(_ & _ & v & H & Hr)|[(_ & Hf & _)
       |[(_ & Hf & _)|[(_ & e & Hesc & _)|(_ & Hf & _)]]]]].
    + rewrite H. reflexivity.
    + rewrite H. cbn [fst].
      rewrite (read_and_parse_empty json_loads ledger_doc (after_exists w) He) in Hr.
      injection Hr as <-. reflexivity.
    + rewrite He in Hf. destruct Hf as [Hf _]. congruence.
    + rewrite He in Hf. destruct Hf as [Hf _]. congruence.
    + rewrite He in Hesc. destruct Hesc as [Hesc _]. congruence.
    + rewrite He in Hf. destruct Hf as [Hf _]. congruence.
  - intros _ Hf1 Hf2.
    destruct Hc as [(_ & H)|[(_ & Hok & _)|[(_ & _ & Hok & _)
       |[(_ & _ & _ & H)|[(_ & e & Hesc & _)|(_ & _ & e & Hesc & _)]]]]];
      try contradiction; try (rewrite H; reflexivity).
    + destruct (attempt_fails_escapes _ _ _ Hf1 Hesc).
    + destruct (attempt_fails_escapes _ _ _ Hf2 Hesc).
  - intros e w' Hraise.
    destruct Hc as [(_ & H)|[(_ & _ & v & H & _)|[(_ & _ & _ & v & H & _)
       |[(_ & _ & _ & H)|[(_ & e' & Hesc & H)|(_ & _ & e' & Hesc & H)]]]]];
      rewrite H in Hraise; try discriminate Hraise;
      assert (e' = e) by congruence; subst e'.
    + split; [exact (decode_or_missing_escapes _ _ _ Hesc)|]. left. exact Hesc.
    + split; [exact (decode_or_missing_escapes _ _ _ Hesc)|]. right. exact Hesc.
Qed.

(** C2.  When the document is there, the first read does not parse and the
    read after the 0.1 s sleep does, [load_ledger] returns what the second
    read parses to, having read twice and slept once.  In every run it
    reads at most twice and sleeps at most once, and it reads twice only
    after a failed first attempt. *)
Theorem load_ledger_retries_once :
  forall (json_loads : pystr -> parse) (ledger_doc : nat -> doc)
         (w : world) (c1 c2 : pystr) (v : pyval),
    ledger_doc (looks w) <> Missing ->
    ledger_doc (S (looks w)) = Content c1 ->
    c1 <> [] -> json_loads c1 = Malformed ->
    ledger_doc (S (S (looks w))) = Content c2 ->
    c2 <> [] -> json_loads c2 = Parsed v ->
    (exists w',
        load_ledger json_loads ledger_doc w = (Ok v, w')
        /\ trace w' = trace w ++ [EvExists; EvRead; EvSleep 100; EvRead]
        /\ clock w' = (clock w + 100)%N)
    /\ (forall json_loads0 ledger_doc0 w0,
          exists t,
            trace (snd (load_ledger json_loads0 ledger_doc0 w0)) = trace w0 ++ t
            /\ (count_reads t <= 2)%nat
            /\ (count_sleeps t <= 1)%nat
            /\ (count_reads t = 2%nat ->
                t = [EvExists; EvRead; EvSleep 100; EvRead]
                /\ attempt_fails json_loads0 (ledger_doc0 (S (looks w0))))).
Proof.
  intros json_loads ledger_doc w c1 c2 v H0 H1 Hc1 Hj1 H2 Hc2 Hj2.
  split.
  - pose proof (load_ledger_cases json_loads ledger_doc w) as Hc.
    cbv zeta in Hc. rewrite H1, H2 in Hc.
    assert (Hf1 : attempt_fails json_loads (Content c1)) by (split; assumption).
    assert (Hok2 : ~ attempt_fails json_loads (Content c2)).
    { intros [_ Hn]. congruence. }
    destruct Hc as [(Hm & _)|[(_ & Hok & _)|[(_ & _ & _ & v' & H & Hr)
       |[(_ & _ & Hf2 & _)|[(_ & e & Hesc & _)|(_ & _ & e & Hesc & _)]]]]];
      try contradiction.
    + rewrite (read_and_parse_content json_loads ledger_doc
                 (after_sleep 100 (after_read (after_exists w))) H2 Hc2) in Hr.
      rewrite Hj2 in Hr. injection Hr as <-.
      eexists. split; [exact H|]. cbn. rewrite <- !app_assoc.
      split; reflexivity.
    + destruct (attempt_fails_escapes _ _ _ Hf1 Hesc).
    + destruct Hesc as [_ [[Hn _]|[Hn _]]]; congruence.
  - intros json_loads0 ledger_doc0 w0.
    destruct (load_ledger_trace json_loads0 ledger_doc0 w0)
      as [(Ht & _)|[(Ht & _)|(Ht & _ & Hf)]]; cbv zeta in Ht;
      eexists; (split; [exact Ht|]); cbn;
      repeat split; try lia; try discriminate; assumption.
Qed.

(** *** Sample documents *)

(** A JSON text written with single quotes for the double ones. *)
Definition J (s : string) : pystr :=
  map (fun c => if N.eqb c 39 then 34%N else c) (U s).

(** The text of [ledger_one]. *)
Definition doc_full : pystr :=
  J "[{'round': 1, 'timestamp': '2024-01-01T10:00:00.000', 'global_accuracy': 0.5, 'ipfs_hash': 'Qm1', 'block_tx': '0xabc', 'node_accuracies': {'s1': 0.5}, 'notes': ''}]".

(** The same text cut in the middle of a write. *)
Definition doc_truncated : pystr := firstn 40 doc_full.

(** The text of a ledger whose only entry has no [round]. *)
Definition doc_malformed : pystr := J "[{'timestamp': 't'}]".

(** Lists nested 100000 deep, far beyond what the interpreter's parser
    follows. *)
Definition doc_nested : pystr :=
  repeat 91%N (N.to_nat 100000) ++ repeat 93%N (N.to_nat 100000).

(** [json.loads] on the documents of the examples: it reads the three
    well-formed texts, gives up on the deeply nested one and rejects
    anything else as malformed, the truncated text included. *)
Definition sample_loads (s : pystr) : parse :=
  if pystr_eqb s doc_full then Parsed ledger_one
  else if pystr_eqb s doc_malformed then Parsed ledger_malformed
  else if pystr_eqb s (U "[]") then Parsed (PyList [])
  else if pystr_eqb s doc_nested then TooDeep
  else Malformed.

(** A writer caught in the middle: the first two looks see the truncated
    text, the later ones the whole text. *)
Definition doc_being_written (k : nat) : doc :=
  if (k <? 2)%nat then Content doc_truncated else Content doc_full.

Lemma load_ledger_never_raises_witness :
  fst (load_ledger sample_loads (fun _ => Missing) initial_world)
  = Ok (PyList [])
  /\ fst (load_ledger sample_loads (fun _ => Content []) initial_world)
     = Ok (PyList [])
  /\ fst (load_ledger sample_loads (fun _ => Content doc_truncated) initial_world)
     = Ok (PyList [])
  /\ exists v w',
       load_ledger sample_loads doc_being_written initial_world = (Ok v, w').
Proof.
  split; [|split; [|split]].
  - refine (proj1 (proj2 (@load_ledger_never_raises sample_loads
              (fun _ => Missing) stable_kind initial_world)) _).
    reflexivity.
  - refine (proj1 (proj2 (proj2 (@load_ledger_never_raises sample_loads
              (fun _ => Content []) stable_kind initial_world))) _ _).
    + discriminate.
    + reflexivity.
  - refine (proj1 (proj2 (proj2 (proj2 (@load_ledger_never_raises sample_loads
              (fun _ => Content doc_truncated) stable_kind initial_world))))
              _ _ _).
    + discriminate.
    + split; [discriminate|vm_compute; reflexivity].
    + split; [discriminate|vm_compute; reflexivity].
  - refine (proj1 (@load_ledger_never_raises sample_loads doc_being_written
              stable_kind initial_world) _ _).
    + split; vm_compute; discriminate.
    + split; vm_compute; discriminate.
Defined.

(** C1 as the specification states it fails: not every state of the
    document is one [load_ledger] returns from.  Bytes that do not decode
    make [f.read()] raise [UnicodeDecodeError], and a text nested too
    deep makes [json.loads] raise [RecursionError]; the [except] clauses
    name neither, so both reach the caller, and no retry is made. *)
Lemma load_ledger_raises_counterexample :
  load_ledger sample_loads (fun _ => Undecodable) initial_world
  = (Raise UnicodeDecodeError,
     {| looks := 2; clock := 0; cache := None;
        trace := [EvExists; EvRead] |})
  /\ fst (load_ledger sample_loads (fun _ => Content doc_nested) initial_world)
     = Raise RecursionError
  /\ ~ (forall (ledger_doc : nat -> doc) (w : world),
          exists v w', load_ledger sample_loads ledger_doc w = (Ok v, w')).
Proof.
  split; [reflexivity|]. split; [vm_compute; reflexivity|].
  intros H. destruct (H (fun _ => Undecodable) initial_world) as (v & w' & E).
  discriminate E.
Qed.

Lemma load_ledger_retries_once_witness :
  exists w',
    load_ledger sample_loads doc_being_written initial_world
    = (Ok ledger_one, w')
    /\ trace w' = [EvExists; EvRead; EvSleep 100; EvRead]
    /\ clock w' = 100%N.
Proof.
  refine (proj1 (@load_ledger_retries_once sample_loads doc_being_written
                   initial_world doc_truncated doc_full ledger_one
                   _ _ _ _ _ _ _)).
  - discriminate.
  - reflexivity.
  - discriminate.
  - vm_compute. reflexivity.
  - reflexivity.
  - discriminate.
  - vm_compute. reflexivity.
Defined.

(** ** Ledger reshaper *)

(** *** Dictionaries *)

Lemma dict_get_None {V} k (d : list (pystr * V)) :
  dict_get k d = None <-> ~ In k (map fst d).
Proof.
  induction d as [|[k' v] d IH]; simpl.
  - split; auto.
  - destruct (pystr_eqb k k') eqn:E.
    + apply pystr_eqb_eq in E. subst. split; [discriminate|].
      intros H. exfalso. apply H. left. reflexivity.
    + rewrite IH. split.
      * intros H [Hk|Hk]; [|contradiction].
        subst. rewrite pystr_eqb_refl in E. discriminate.
      * intros H Hin. apply H. right. exact Hin.
Qed.

Lemma dict_get_set {V} k k' (v : V) d :
  dict_get k (dict_set k' v d)
  = if pystr_eqb k k' then Some v else dict_get k d.
Proof.
  induction d as [|[k0 v0] d IH]; simpl.
  - reflexivity.
  - destruct (pystr_eqb k' k0) eqn:E0; simpl.
    + apply pystr_eqb_eq in E0. subst k0.
      destruct (pystr_eqb k k'); reflexivity.
    + destruct (pystr_eqb k k0) eqn:E1.
      * apply pystr_eqb_eq in E1. subst k0.
        destruct (pystr_eqb k k') eqn:E2; [|reflexivity].
        apply pystr_eqb_eq in E2. subst k'.
        rewrite pystr_eqb_refl in E0. discriminate.
      * exact IH.
Qed.

Lemma dict_get_In {V} k (d : list (pystr * V)) :
  In k (map fst d) <-> dict_get k d <> None.
Proof.
  induction d as [|[k' v] d IH]; simpl.
  - split; [intros []|congruence].
  - destruct (pystr_eqb k k') eqn:E.
    + apply pystr_eqb_eq in E. subst. split; [discriminate|auto].
    + rewrite <- IH. split; [|auto].
      intros [H|H]; [|exact H]. subst. rewrite pystr_eqb_refl in E.
      discriminate.
Qed.

Lemma dict_set_keys {V} k (v : V) d c :
  In c (map fst (dict_set k v d)) <-> c = k \/ In c (map fst d).
Proof.
  rewrite !dict_get_In, dict_get_set.
  destruct (pystr_eqb c k) eqn:E.
  - apply pystr_eqb_eq in E. split; [auto|discriminate].
  - split; [auto|].
    intros [H|H]; [|exact H]. subst. rewrite pystr_eqb_refl in E.
    discriminate.
Qed.

(** After [d.update(other)] a key holds its last value in [other], or
    else what it held in [d]. *)
Lemma dict_get_update k (other d : dict) :
  dict_get k (dict_update d other)
  = match dict_get k (rev other) with
    | Some v => Some v
    | None => dict_get k d
    end.
Proof.
  unfold dict_update. revert d.
  induction other as [|[k' v'] other IH]; intros d; simpl.
  - reflexivity.
  - rewrite IH, dict_get_set.
    destruct (dict_get k (rev other)) as [v|] eqn:E.
    + assert (H : dict_get k (rev other ++ [(k', v')]) = Some v).
      { clear IH. induction (rev other) as [|[k0 v0] l IHl]; simpl in *;
          [discriminate|].
        destruct (pystr_eqb k k0); [exact E|apply IHl, E]. }
      rewrite H. reflexivity.
    + assert (H : dict_get k (rev other ++ [(k', v')])
                  = if pystr_eqb k k' then Some v' else None).
      { clear IH. induction (rev other) as [|[k0 v0] l IHl]; simpl in *;
          [reflexivity|].
        destruct (pystr_eqb k k0); [discriminate|apply IHl, E]. }
      rewrite H. destruct (pystr_eqb k k'); reflexivity.
Qed.

Lemma dict_get_rev_None {V} k (d : list (pystr * V)) :
  dict_get k (rev d) = None <-> dict_get k d = None.
Proof.
  rewrite !dict_get_None, map_rev, <- in_rev. reflexivity.
Qed.

Lemma prefix_nodes_as_update (its : dict) :
  prefix_nodes its
  = dict_update [] (map (fun kv => (U "Store_" ++ fst kv, snd kv)) its).
Proof.
  unfold prefix_nodes, dict_update. generalize (@nil (pystr * pyval)).
  induction its as [|kv its IH]; intros acc; simpl; [reflexivity|].
  apply IH.
Qed.

Definition node_column (k : pystr) : pystr := U "Store_" ++ k.

Lemma prefix_nodes_keys (its : dict) c :
  In c (map fst (prefix_nodes its))
  <-> exists k, In k (map fst its) /\ c = node_column k.
Proof.
  rewrite dict_get_In, prefix_nodes_as_update, dict_get_update.
  set (pre := map (fun kv => (U "Store_" ++ fst kv, snd kv)) its).
  assert (Hk : In c (map fst pre)
               <-> exists k, In k (map fst its) /\ c = node_column k).
  { subst pre. rewrite map_map. cbn [fst]. rewrite in_map_iff. split.
    - intros (kv & Heq & Hin). exists (fst kv). split; [|symmetry; exact Heq].
      apply in_map. exact Hin.
    - intros (k & Hin & ->). apply in_map_iff in Hin.
      destruct Hin as (kv & <- & Hin). exists kv. split; [reflexivity|exact Hin]. }
  rewrite <- Hk, dict_get_In.
  match goal with
  | |- context [match ?g with _ => _ end] => destruct g eqn:E
  end; cbn [dict_get].
  - split; intros _; [|congruence].
    intros Hn. apply (proj2 (dict_get_rev_None _ _)) in Hn. congruence.
  - apply (proj1 (dict_get_rev_None _ _)) in E. rewrite E. tauto.
Qed.

Lemma dict_update_keys (d other : dict) c :
  In c (map fst (dict_update d other))
  <-> In c (map fst d) \/ In c (map fst other).
Proof.
  rewrite !dict_get_In, dict_get_update.
  destruct (dict_get c (rev other)) eqn:E.
  - split; [|congruence]. intros _. right. intros Hn.
    apply (proj2 (dict_get_rev_None _ _)) in Hn. congruence.
  - apply (proj1 (dict_get_rev_None _ _)) in E. rewrite E. tauto.
Qed.

(** *** Well-formed entries *)

Definition fixed_columns : list pystr :=
  [U "round"; U "timestamp"; U "global_accuracy"; U "ipfs_hash";
   U "block_tx"; U "notes"].

Definition has_key (d : dict) (c : pystr) : bool :=
  match dict_get c d with
  | Some _ => true
  | None => false
  end.

(** An entry [ledger_to_df] can turn into a row and sort: a mapping with
    the required fields, an integer [round] and a mapping
    [node_accuracies]. *)
Definition well_formed (e : pyval) : bool :=
  match e with
  | PyDict d =>
      match dict_get (U "round") d, dict_get (U "node_accuracies") d with
      | Some (PyInt _), Some (PyDict _) =>
          forallb (has_key d)
            [U "timestamp"; U "global_accuracy"; U "ipfs_hash"; U "block_tx"]
      | _, _ => false
      end
  | _ => false
  end.

Definition entry_round (e : pyval) : Z :=
  match getitem e (U "round") with
  | Ok (PyInt z) => z
  | _ => 0
  end.

Definition entry_nodes (e : pyval) : dict :=
  match getitem e (U "node_accuracies") with
  | Ok (PyDict d) => d
  | _ => []
  end.

Lemma node_column_not_fixed k : ~ In (node_column k) fixed_columns.
Proof.
  unfold node_column, fixed_columns. cbn.
  intros [H|[H|[H|[H|[H|[H|[]]]]]]]; discriminate H.
Qed.

Lemma node_column_inj k k' : node_column k = node_column k' -> k = k'.
Proof. unfold node_column. apply app_inv_head. Qed.

Lemma startswith_node_column k : startswith (node_column k) (U "Store_") = true.
Proof. reflexivity. Qed.

Lemma build_row_well_formed e :
  well_formed e = true ->
  exists row,
    build_row e = Ok row
    /\ dict_get (U "round") row = Some (PyInt (entry_round e))
    /\ (forall c, In c (map fst row)
                  <-> In c fixed_columns
                      \/ exists k, In k (map fst (entry_nodes e))
                                   /\ c = node_column k).
Proof.
  destruct e as [| | | | |l|d]; try discriminate.
  unfold well_formed, build_row, entry_round, entry_nodes, getitem,
    get_default.
  destruct (dict_get (U "round") d) as [[| |z| | | |]|]; try discriminate.
  destruct (dict_get (U "node_accuracies") d) as [[| | | | | |na]|];
    try discriminate.
  unfold forallb, has_key.
  destruct (dict_get (U "timestamp") d) as [t|]; [|discriminate].
  destruct (dict_get (U "global_accuracy") d) as [g|]; [|discriminate].
  destruct (dict_get (U "ipfs_hash") d) as [h|]; [|discriminate].
  destruct (dict_get (U "block_tx") d) as [b|]; [|discriminate].
  intros _. cbn [rbind items].
  set (n := match dict_get (U "notes") d with
            | Some x => x
            | None => PyStr []
            end).
  exists (dict_update
            [(U "round", PyInt z); (U "timestamp", t);
             (U "global_accuracy", g); (U "ipfs_hash", h);
             (U "block_tx", b); (U "notes", n)]
            (prefix_nodes na)).
  split; [|split].
  - subst n. destruct (dict_get (U "notes") d); reflexivity.
  - rewrite dict_get_update.
    destruct (dict_get (U "round") (rev (prefix_nodes na))) eqn:E;
      [|reflexivity].
    exfalso.
    assert (Hin : In (U "round") (map fst (prefix_nodes na))).
    { apply dict_get_In. intros Hn.
      apply (proj2 (dict_get_rev_None _ _)) in Hn. congruence. }
    apply prefix_nodes_keys in Hin. destruct Hin as (k & _ & Hk).
    apply (@node_column_not_fixed k). rewrite <- Hk. left. reflexivity.
  - intros c. rewrite dict_update_keys, prefix_nodes_keys. reflexivity.
Qed.

(** *** Frames built from rows *)

Lemma mem_In k l : mem k l = true <-> In k l.
Proof.
  unfold mem. rewrite existsb_exists. split.
  - intros (x & Hx & E). apply pystr_eqb_eq in E. subst. exact Hx.
  - intros H. exists k. split; [exact H|apply pystr_eqb_refl].
Qed.

Lemma add_keys_In ks : forall acc c,
  In c (fold_left add_key ks acc) <-> In c acc \/ In c ks.
Proof.
  induction ks as [|k ks IH]; intros acc c; simpl.
  - tauto.
  - rewrite IH. unfold add_key. destruct (mem k acc) eqn:E.
    + apply mem_In in E. split; [tauto|].
      intros [H|[<-|H]]; auto.
    + rewrite in_app_iff. simpl. tauto.
Qed.

Lemma add_keys_NoDup ks : forall acc,
  NoDup acc -> NoDup (fold_left add_key ks acc).
Proof.
  induction ks as [|k ks IH]; intros acc Hnd; simpl; [exact Hnd|].
  apply IH. unfold add_key. destruct (mem k acc) eqn:E; [exact Hnd|].
  apply NoDup_app; [exact Hnd|repeat constructor; intros []|].
  intros x Hx [<-|[]]. apply mem_In in Hx. congruence.
Qed.

Lemma union_keys_from_In rows : forall acc c,
  In c (fold_left (fun acc r => fold_left add_key (map fst r) acc) rows acc)
  <-> In c acc \/ exists r : dict, In r rows /\ In c (map fst r).
Proof.
  induction rows as [|r rows IH]; intros acc c; simpl.
  - split; [auto|]. intros [H|(r & [] & _)]. exact H.
  - rewrite IH, add_keys_In. split.
    + intros [[H|H]|(r' & Hr & Hc)]; eauto.
    + intros [H|(r' & [<-|Hr] & Hc)]; eauto.
Qed.

Lemma union_keys_In rows c :
  In c (union_keys rows) <-> exists r : dict, In r rows /\ In c (map fst r).
Proof.
  unfold union_keys. rewrite union_keys_from_In. simpl. tauto.
Qed.

Lemma union_keys_NoDup rows : NoDup (union_keys rows).
Proof.
  unfold union_keys. generalize (NoDup_nil pystr).
  generalize (@nil pystr).
  induction rows as [|r rows IH]; intros acc Hnd; simpl; [exact Hnd|].
  apply IH, add_keys_NoDup, Hnd.
Qed.

Lemma index_of_In c cols : In c cols -> exists j, index_of c cols = Some j.
Proof.
  induction cols as [|c' cols IH]; simpl; [intros []|].
  intros H. destruct (pystr_eqb c c') eqn:E; [eauto|].
  destruct H as [H|H].
  - subst. rewrite pystr_eqb_refl in E. discriminate.
  - destruct (IH H) as (j & ->). simpl. eauto.
Qed.

Lemma index_of_nth {A} c cols j (f : pystr -> A) d :
  index_of c cols = Some j -> nth j (map f cols) d = f c.
Proof.
  revert j. induction cols as [|c' cols IH]; simpl; intros j H;
    [discriminate|].
  destruct (pystr_eqb c c') eqn:E.
  - injection H as <-. apply pystr_eqb_eq in E. subst. reflexivity.
  - destruct (index_of c cols) as [j'|]; [|discriminate].
    injection H as <-. simpl. apply IH. reflexivity.
Qed.

Lemma cell_at_row_cells cols r c :
  In c cols -> cell_at cols (row_cells cols r) c = cell_of r c.
Proof.
  intros H. unfold cell_at, row_cells.
  destruct (index_of_In _ _ H) as (j & Hj). rewrite Hj.
  apply index_of_nth. exact Hj.
Qed.

Lemma rmap_map {A B} (f : A -> result B) (g : A -> B) l :
  (forall a, In a l -> f a = Ok (g a)) -> rmap f l = Ok (map g l).
Proof.
  induction l as [|a l IH]; simpl; intros H; [reflexivity|].
  rewrite (H a) by (left; reflexivity).
  rewrite IH by (intros x Hx; apply H; right; exact Hx). reflexivity.
Qed.

Lemma map_nth_seq {A} (d : A) l :
  map (fun i => nth i l d) (seq 0 (List.length l)) = l.
Proof.
  induction l as [|a l IH]; [reflexivity|].
  cbn [List.length seq map nth]. f_equal.
  rewrite <- seq_shift, map_map. exact IH.
Qed.

Lemma take_perm {A} (d : A) idx l :
  Permutation idx (seq 0 (List.length l)) -> Permutation (take d idx l) l.
Proof.
  intros H. unfold take.
  eapply perm_trans; [apply Permutation_map, H|].
  rewrite map_nth_seq. apply Permutation_refl.
Qed.

(** *** The table of a well-formed ledger *)

(** The row the loop builds from an entry. *)
Definition row_of (e : pyval) : dict :=
  match build_row e with
  | Ok r => r
  | Raise _ => []
  end.

(** The integer in the [round] cell of a row. *)
Definition row_round (cols : list pystr) (r : list cell) : Z :=
  match cell_at cols r (U "round") with
  | Val (PyInt z) => z
  | _ => 0
  end.

Definition rounds (df : DataFrame) : list Z :=
  map (row_round (columns df)) (data df).

(** The rows of the frame before they are sorted: one per entry, in
    ledger order, laid out on the frame's columns. *)
Definition unsorted_rows (entries : list pyval) : list (list cell) :=
  let rows := map row_of entries in
  map (row_cells (union_keys rows)) rows.

Lemma build_row_row_of e :
  well_formed e = true -> build_row e = Ok (row_of e).
Proof.
  intros H. unfold row_of.
  destruct (build_row_well_formed e H) as (row & -> & _). reflexivity.
Qed.

Lemma row_of_round e :
  well_formed e = true ->
  dict_get (U "round") (row_of e) = Some (PyInt (entry_round e)).
Proof.
  intros H. unfold row_of.
  destruct (build_row_well_formed e H) as (row & -> & Hr & _). exact Hr.
Qed.

Lemma row_of_keys e c :
  well_formed e = true ->
  In c (map fst (row_of e))
  <-> In c fixed_columns
      \/ exists k, In k (map fst (entry_nodes e)) /\ c = node_column k.
Proof.
  intros H. unfold row_of.
  destruct (build_row_well_formed e H) as (row & -> & _ & Hk). apply Hk.
Qed.

Lemma columns_of_well_formed entries c :
  forallb well_formed entries = true ->
  In c (union_keys (map row_of entries))
  <-> (entries <> [] /\ In c fixed_columns)
      \/ exists e k, In e entries /\ In k (map fst (entry_nodes e))
                     /\ c = node_column k.
Proof.
  intros Hwf. rewrite forallb_forall in Hwf. rewrite union_keys_In. split.
  - intros (r & Hr & Hc). apply in_map_iff in Hr.
    destruct Hr as (e & <- & He).
    apply (row_of_keys e c (Hwf e He)) in Hc.
    destruct Hc as [Hc|(k & Hk & ->)].
    + left. split; [|exact Hc]. intros ->. exact He.
    + right. eauto.
  - intros [(Hne & Hc)|(e & k & He & Hk & ->)].
    + destruct entries as [|e entries]; [congruence|].
      exists (row_of e). split; [left; reflexivity|].
      apply row_of_keys; [apply Hwf; left; reflexivity|]. left. exact Hc.
    + exists (row_of e). split; [apply in_map; exact He|].
      apply row_of_keys; [apply Hwf; exact He|]. right. eauto.
Qed.

Lemma unsorted_rows_rounds entries :
  entries <> [] -> forallb well_formed entries = true ->
  map (row_round (union_keys (map row_of entries))) (unsorted_rows entries)
  = map entry_round entries.
Proof.
  intros Hne Hwf. unfold unsorted_rows. rewrite !map_map.
  apply map_ext_in. intros e He. unfold row_round.
  rewrite cell_at_row_cells.
  - unfold cell_of. rewrite row_of_round; [reflexivity|].
    rewrite forallb_forall in Hwf. apply Hwf, He.
  - apply columns_of_well_formed; [exact Hwf|]. left.
    split; [exact Hne|]. left. reflexivity.
Qed.

Lemma ledger_to_df_well_formed K entries :
  entries <> [] -> forallb well_formed entries = true ->
  ledger_to_df K (PyList entries)
  = Ok {| columns := union_keys (map row_of entries);
          data := take [] (argsort K (map entry_round entries))
                    (unsorted_rows entries) |}.
Proof.
  intros Hne Hwf. unfold ledger_to_df.
  assert (Ht : truthy (PyList entries) = true)
    by (destruct entries; [congruence|reflexivity]).
  rewrite Ht. cbn [negb py_iter rbind].
  assert (Hwf' := Hwf). rewrite forallb_forall in Hwf'.
  rewrite (rmap_map build_row row_of)
    by (intros e He; apply build_row_row_of, Hwf', He).
  cbn [rbind]. unfold sort_values, column_values, frame_of_rows.
  cbn [columns data].
  set (cols := union_keys (map row_of entries)).
  assert (Hin : In (U "round") cols).
  { apply columns_of_well_formed; [exact Hwf|]. left.
    split; [exact Hne|]. left. reflexivity. }
  destruct (index_of_In _ _ Hin) as (j & Hj). rewrite Hj. cbn [rbind].
  assert (Hvals : map (fun r : list cell => nth j r NaN)
                    (map (row_cells cols) (map row_of entries))
                  = map (fun e => Val (PyInt (entry_round e))) entries).
  { rewrite !map_map. apply map_ext_in. intros e He. unfold row_cells.
    rewrite (index_of_nth _ _ _ _ Hj). unfold cell_of.
    rewrite row_of_round by (apply Hwf', He). reflexivity. }
  rewrite Hvals.
  rewrite (rmap_map int_key (fun c => match c with
                                      | Val (PyInt z) => z
                                      | _ => 0
                                      end)).
  - cbn [rbind]. rewrite map_map. reflexivity.
  - intros c Hc. apply in_map_iff in Hc. destruct Hc as (e & <- & _).
    reflexivity.
Qed.

Lemma map_take {A B} (f : A -> B) d idx l :
  map f (take d idx l) = take (f d) idx (map f l).
Proof.
  unfold take. rewrite map_map. apply map_ext. intros i.
  symmetry. apply map_nth.
Qed.

Lemma rounds_of_well_formed K entries df :
  entries <> [] -> forallb well_formed entries = true ->
  ledger_to_df K (PyList entries) = Ok df ->
  rounds df
  = map (fun i => nth i (map entry_round entries) 0)
        (argsort K (map entry_round entries)).
Proof.
  intros Hne Hwf Hdf. rewrite ledger_to_df_well_formed in Hdf by assumption.
  injection Hdf as <-. unfold rounds. cbn [columns data].
  rewrite map_take, unsorted_rows_rounds by assumption.
  unfold take. apply map_ext. intros i. f_equal.
  unfold row_round, cell_at.
  destruct (index_of (U "round") (union_keys (map row_of entries)))
    as [[|j]|]; reflexivity.
Qed.

(** *** Ordering *)

Lemma sorted_perm_unique (l1 l2 : list Z) :
  Sorted Z.le l1 -> Sorted Z.le l2 -> Permutation l1 l2 -> l1 = l2.
Proof.
  intros H1 H2.
  apply Sorted_StronglySorted in H1; [|intros x y z; apply Z.le_trans].
  apply Sorted_StronglySorted in H2; [|intros x y z; apply Z.le_trans].
  revert l2 H2. induction H1 as [|a l1 Hs1 IH Ha]; intros l2 H2 Hp.
  - apply Permutation_nil in Hp. subst. reflexivity.
  - destruct H2 as [|b l2 Hs2 Hb].
    + apply Permutation_sym, Permutation_nil in Hp. discriminate.
    + assert (Hab : a = b).
      { assert (Hina : In a (b :: l2))
          by (apply (Permutation_in _ Hp); left; reflexivity).
        assert (Hinb : In b (a :: l1))
          by (apply (Permutation_in _ (Permutation_sym Hp)); left; reflexivity).
        rewrite Forall_forall in Ha, Hb.
        destruct Hina as [->|Hina]; [reflexivity|].
        destruct Hinb as [->|Hinb]; [reflexivity|].
        apply Z.le_antisymm; auto. }
      subst b. f_equal. apply IH; [exact Hs2|].
      apply Permutation_cons_inv with a. exact Hp.
Qed.

(** Rows with equal rounds stand in the output in the order they had in
    the input: what a stable sort would guarantee. *)
Definition keeps_input_order (cols : list pystr)
    (input output : list (list cell)) : Prop :=
  forall z,
    filter (fun r => row_round cols r =? z) output
    = filter (fun r => row_round cols r =? z) input.

Lemma ledger_to_df_sorted_nonempty K entries :
  entries <> [] -> forallb well_formed entries = true ->
  exists df,
    ledger_to_df K (PyList entries) = Ok df
    /\ Sorted Z.le (rounds df)
    /\ Permutation (data df) (unsorted_rows entries)
    /\ Permutation (rounds df) (map entry_round entries)
    /\ List.length (data df) = List.length entries.
Proof.
  intros Hne Hwf.
  pose proof (ledger_to_df_well_formed K Hne Hwf) as Hdf.
  eexists. split; [exact Hdf|].
  pose proof (rounds_of_well_formed K Hne Hwf Hdf) as Hr.
  set (ks := map entry_round entries) in *.
  assert (Hlen : List.length (unsorted_rows entries) = List.length ks).
  { unfold unsorted_rows, ks. rewrite !length_map. reflexivity. }
  rewrite Hr. cbn [data].
  split; [apply argsort_sorted|]. split.
  { apply take_perm. rewrite Hlen. apply argsort_perm. }
  split.
  { apply (take_perm 0). apply argsort_perm. }
  unfold take. rewrite length_map.
  rewrite (Permutation_length (argsort_perm K ks)), length_seq.
  unfold ks. apply length_map.
Qed.

(** On the key list [ks] the kind [K] does what one of NumPy's two
    routines for the default kind does on at most four keys. *)
Definition numpy_order (K : SortKind) (ks : list Z) : Prop :=
  argsort K ks = register_argsort ks \/ argsort K ks = insertion_argsort ks.

(** C3, as amended.  For every sort kind and every ledger of well-formed
    entries, [ledger_to_df] returns a table whose rows are ascending by
    [round] and are the rows of the entries rearranged, one row per entry
    with duplicates kept.  Rounds 3, 1, 2, 1 come out as 1, 1, 2, 3, and
    under either routine of NumPy with the two round-1 rows in their
    ledger order.  Nothing is said of the order of rows with equal rounds
    in other ledgers. *)
Theorem ledger_to_df_sorted :
  forall (K : SortKind) (entries : list pyval),
    forallb well_formed entries = true ->
    exists df,
      ledger_to_df K (PyList entries) = Ok df
      /\ Sorted Z.le (rounds df)
      /\ Permutation (data df) (unsorted_rows entries)
      /\ Permutation (rounds df) (map entry_round entries)
      /\ List.length (data df) = List.length entries
      /\ (map entry_round entries = [3; 1; 2; 1] ->
          rounds df = [1; 1; 2; 3]
          /\ (numpy_order K [3; 1; 2; 1] ->
              keeps_input_order (columns df) (unsorted_rows entries)
                (data df))).
Proof.
  intros K entries Hwf.
  destruct entries as [|e0 rest].
  { exists empty_frame. cbn.
    repeat split; try constructor; discriminate. }
  assert (Hne : e0 :: rest <> []) by discriminate.
  destruct (ledger_to_df_sorted_nonempty K Hne Hwf)
    as (df & Hdf & Hsorted & Hrows & Hperm & Hlen).
  exists df.
  split; [exact Hdf|]. split; [exact Hsorted|]. split; [exact Hrows|].
  split; [exact Hperm|]. split; [exact Hlen|].
  intros E. split.
  - apply sorted_perm_unique.
    + exact Hsorted.
    + repeat constructor; lia.
    + eapply perm_trans; [exact Hperm|]. rewrite E.
      apply perm_trans with [1; 3; 2; 1]; [apply perm_swap|].
      apply perm_skip.
      apply perm_trans with [2; 3; 1]; [apply perm_swap|].
      apply perm_trans with [2; 1; 3]; [apply perm_skip, perm_swap|].
      apply perm_swap.
  - intros Hnp.
    assert (Hidx : argsort K [3; 1; 2; 1] = [1; 3; 2; 0]%nat).
    { destruct Hnp as [-> | ->]; vm_compute; reflexivity. }
    rewrite (ledger_to_df_well_formed K Hne Hwf) in Hdf.
    assert (Edf : df = {| columns := union_keys (map row_of (e0 :: rest));
                          data := take [] (argsort K (map entry_round (e0 :: rest)))
                                    (unsorted_rows (e0 :: rest)) |})
      by congruence.
    rewrite Edf. cbn [columns data].
    clear Hdf Hsorted Hrows Hperm Hlen Edf.
    pose proof (unsorted_rows_rounds Hne Hwf) as Hr.
    rewrite E in Hr. rewrite E, Hidx.
    set (cols := union_keys (map row_of (e0 :: rest))) in *.
    destruct rest as [|e1 [|e2 [|e3 [|e4 rest]]]]; try discriminate E.
    unfold unsorted_rows in *. cbn [map take nth] in *.
    injection Hr as H0 H1 H2 H3.
    intros z. cbn [filter]. rewrite H0, H1, H2, H3.
    destruct (Z.eqb_spec 3 z), (Z.eqb_spec 1 z), (Z.eqb_spec 2 z);
      try reflexivity; lia.
Qed.

Definition entries_3121 : list pyval :=
  match ledger_3121 with
  | PyList l => l
  | _ => []
  end.

Lemma entries_3121_well_formed : forallb well_formed entries_3121 = true.
Proof. vm_compute. reflexivity. Qed.

Lemma entries_3121_rounds : map entry_round entries_3121 = [3; 1; 2; 1].
Proof. vm_compute. reflexivity. Qed.

Lemma ledger_to_df_sorted_witness :
  exists df,
    ledger_to_df (vector_kind stable_kind) (PyList entries_3121) = Ok df
    /\ rounds df = [1; 1; 2; 3]
    /\ List.length (data df) = 4%nat
    /\ keeps_input_order (columns df) (unsorted_rows entries_3121) (data df).
Proof.
  destruct (@ledger_to_df_sorted (vector_kind stable_kind) entries_3121
              entries_3121_well_formed)
    as (df & Hdf & _ & _ & _ & Hlen & Hex).
  destruct (Hex entries_3121_rounds) as [Hrounds Hkeep].
  exists df. split; [exact Hdf|].
  split; [exact Hrounds|]. split; [exact Hlen|].
  apply Hkeep. left. reflexivity.
Defined.

Definition entries_3211 : list pyval :=
  match ledger_3211 with
  | PyList l => l
  | _ => []
  end.

Lemma entries_3211_well_formed : forallb well_formed entries_3211 = true.
Proof. vm_compute. reflexivity. Qed.

(** The table the vectorised routine makes of [ledger_3211]. *)
Definition frame_3211 : DataFrame :=
  Eval vm_compute in
    match ledger_to_df (vector_kind stable_kind) ledger_3211 with
    | Ok df => df
    | Raise _ => empty_frame
    end.

(** C3 as the specification states it fails: the sort is not a stable
    one.  On the ledger with rounds 3, 2, 1, 1 and notes a, b, c, d the
    vectorised routine exchanges the first key with the last and the
    second with the third, and no later step compares the two equal keys
    as different: the notes come out as d, c, b, a, the two round-1 rows
    exchanged. *)
Lemma sort_not_stable_counterexample :
  register_argsort [3; 2; 1; 1] = [3; 2; 1; 0]%nat
  /\ ledger_to_df (vector_kind stable_kind) ledger_3211 = Ok frame_3211
  /\ rounds frame_3211 = [1; 1; 2; 3]
  /\ column_values frame_3211 (U "notes")
     = Ok [Val (PyStr (U "d")); Val (PyStr (U "c"));
           Val (PyStr (U "b")); Val (PyStr (U "a"))]
  /\ ~ keeps_input_order (columns frame_3211) (unsorted_rows entries_3211)
         (data frame_3211).
Proof.
  split; [vm_compute; reflexivity|].
  split; [vm_compute; reflexivity|].
  split; [vm_compute; reflexivity|].
  split; [vm_compute; reflexivity|].
  intros H. specialize (H 1). vm_compute in H. discriminate H.
Qed.

(** *** The stable kind

    What the specification asks of the sort holds once the kind is a
    stable one, and so wherever the scalar routine sorts a table of at
    most 16 rows: the instance [stable_kind] keeps rows with equal rounds
    in ledger order. *)

Definition has_key_z (z : Z) (p : nat * Z) : bool := snd p =? z.

Lemma insert_key_filter z p l :
  filter (has_key_z z) (insert_key p l)
  = filter (has_key_z z) (p :: l).
Proof.
  induction l as [|q l IH]; [reflexivity|].
  cbn [insert_key]. destruct (goes_before p q) eqn:E; [reflexivity|].
  cbn [filter] in *. rewrite IH.
  unfold goes_before in E. apply Z.leb_gt in E.
  unfold has_key_z.
  destruct (snd p =? z) eqn:Ep; [|reflexivity].
  destruct (snd q =? z) eqn:Eq; [|reflexivity].
  apply Z.eqb_eq in Ep, Eq. lia.
Qed.

Lemma sort_keys_filter z ks :
  filter (has_key_z z) (sort_keys ks)
  = filter (has_key_z z) (combine (seq 0 (List.length ks)) ks).
Proof.
  unfold sort_keys.
  induction (combine (seq 0 (List.length ks)) ks) as [|p l IH];
    [reflexivity|].
  cbn [fold_right]. rewrite insert_key_filter. cbn [filter].
  rewrite IH. reflexivity.
Qed.

Lemma filter_map_comm {A B} (f : A -> B) (p : B -> bool) l :
  filter p (map f l) = map f (filter (fun a => p (f a)) l).
Proof.
  induction l as [|a l IH]; [reflexivity|].
  cbn [map filter]. destruct (p (f a)); cbn [map]; rewrite IH; reflexivity.
Qed.

Lemma filter_ext_Forall {A} (p q : A -> bool) l :
  Forall (fun a => p a = q a) l -> filter p l = filter q l.
Proof.
  induction 1 as [|a l Ha _ IH]; [reflexivity|].
  cbn [filter]. rewrite Ha, IH. reflexivity.
Qed.

Lemma map_nth_fst_combine {A} (d : A) (l : list A) (ks : list Z) :
  List.length l = List.length ks ->
  map (fun p : nat * Z => nth (fst p) l d) (combine (seq 0 (List.length ks)) ks)
  = l.
Proof.
  intros Hlen. rewrite <- (map_map fst (fun i => nth i l d)).
  rewrite map_fst_combine_seq, <- Hlen. apply map_nth_seq.
Qed.

(** An index sort that keeps equal keys in order keeps the rows with
    equal keys in order. *)
Lemma take_stable {A} (d : A) (key : A -> Z) (l : list A) z :
  filter (fun a => key a =? z)
         (take d (insertion_argsort (map key l)) l)
  = filter (fun a => key a =? z) l.
Proof.
  set (ks := map key l).
  assert (Hlen : List.length l = List.length ks)
    by (unfold ks; symmetry; apply length_map).
  assert (Hkey : forall pairs,
             Forall (fun p => (0 <= fst p)%nat /\ nth (fst p - 0) ks 0 = snd p)
                    pairs ->
             Forall (fun p : nat * Z => (fst p < List.length l)%nat) pairs ->
             Forall (fun p => (key (nth (fst p) l d) =? z) = has_key_z z p)
                    pairs).
  { intros pairs H1 H2. rewrite Forall_forall in *. intros p Hp.
    destruct (H1 p Hp) as [_ Hn]. specialize (H2 p Hp).
    rewrite Nat.sub_0_r in Hn. unfold has_key_z. rewrite <- Hn.
    unfold ks. rewrite (nth_indep _ 0 (key d)) by (rewrite length_map; lia).
    rewrite map_nth. reflexivity. }
  assert (Hbound : Forall (fun p : nat * Z => (fst p < List.length l)%nat)
                          (combine (seq 0 (List.length ks)) ks)).
  { rewrite Forall_forall. intros p Hp.
    apply (in_map fst) in Hp. rewrite map_fst_combine_seq in Hp.
    apply in_seq in Hp. lia. }
  unfold take, insertion_argsort. fold ks. rewrite map_map.
  rewrite (filter_map_comm (fun p : nat * Z => nth (fst p) l d)
                           (fun a => key a =? z)).
  rewrite (filter_ext_Forall _ (has_key_z z)).
  - rewrite sort_keys_filter.
    rewrite <- (filter_ext_Forall (fun p => key (nth (fst p) l d) =? z)).
    + rewrite <- (filter_map_comm (fun p : nat * Z => nth (fst p) l d)
                                  (fun a => key a =? z)).
      rewrite map_nth_fst_combine by exact Hlen. reflexivity.
    + apply Hkey; [apply combine_seq_nth|exact Hbound].
  - apply Hkey.
    + eapply Permutation_Forall;
        [apply Permutation_sym, sort_keys_perm|apply combine_seq_nth].
    + eapply Permutation_Forall;
        [apply Permutation_sym, sort_keys_perm|exact Hbound].
Qed.

(** Under the stable kind [ledger_to_df] keeps rows with equal rounds in
    ledger order. *)
Lemma stable_kind_keeps_input_order entries df :
  entries <> [] -> forallb well_formed entries = true ->
  ledger_to_df stable_kind (PyList entries) = Ok df ->
  keeps_input_order (columns df) (unsorted_rows entries) (data df).
Proof.
  intros Hne Hwf Hdf.
  rewrite ledger_to_df_well_formed in Hdf by assumption.
  injection Hdf as <-. intros z. cbn [columns data argsort stable_kind].
  rewrite <- (unsorted_rows_rounds Hne Hwf).
  apply take_stable.
Qed.

(** On the ledger with rounds 3, 1, 2, 1 and notes a, b, c, d the stable
    kind yields the notes b, d, c, a. *)
Lemma stable_kind_3121 :
  exists df,
    ledger_to_df stable_kind ledger_3121 = Ok df
    /\ rounds df = [1; 1; 2; 3]
    /\ column_values df (U "notes")
       = Ok [Val (PyStr (U "b")); Val (PyStr (U "d"));
             Val (PyStr (U "c")); Val (PyStr (U "a"))].
Proof.
  eexists. split; [vm_compute; reflexivity|].
  split; vm_compute; reflexivity.
Qed.

(** *** The field set *)

Lemma row_cells_length cols r : List.length (row_cells cols r) = List.length cols.
Proof. unfold row_cells. apply length_map. Qed.

Lemma node_cell_missing e k :
  well_formed e = true -> ~ In k (map fst (entry_nodes e)) ->
  cell_of (row_of e) (node_column k) = NaN.
Proof.
  intros Hwf Hk. unfold cell_of.
  destruct (dict_get (node_column k) (row_of e)) as [v|] eqn:E; [|reflexivity].
  exfalso.
  assert (Hin : In (node_column k) (map fst (row_of e)))
    by (apply dict_get_In; congruence).
  apply row_of_keys in Hin; [|exact Hwf].
  destruct Hin as [Hin|(k' & Hk' & Heq)].
  - exact (@node_column_not_fixed k Hin).
  - apply node_column_inj in Heq. subst k'. contradiction.
Qed.

Lemma node_cell_present e k :
  well_formed e = true -> In k (map fst (entry_nodes e)) ->
  exists v, cell_of (row_of e) (node_column k) = Val v.
Proof.
  intros Hwf Hk. unfold cell_of.
  destruct (dict_get (node_column k) (row_of e)) as [v|] eqn:E; [eauto|].
  exfalso. apply dict_get_None in E. apply E.
  apply row_of_keys; [exact Hwf|]. right. eauto.
Qed.

(** C4.  For every sort kind and every non-empty ledger of well-formed
    entries the table has one row per entry; its columns, without
    repetition, are the six fixed fields and one [Store_]-prefixed column
    per node identifier found in any entry; every row has a cell for every
    column; and in the row of an entry that lacks a node found elsewhere
    the node's column is there and holds the missing-value marker, which
    is no number.  Where the entry has the node, the cell holds a value. *)
Theorem ledger_to_df_field_set :
  forall (K : SortKind) (entries : list pyval),
    entries <> [] -> forallb well_formed entries = true ->
    exists df,
      ledger_to_df K (PyList entries) = Ok df
      /\ List.length (data df) = List.length entries
      /\ NoDup (columns df)
      /\ (forall c, In c (columns df)
                    <-> In c fixed_columns
                        \/ exists e k, In e entries
                                       /\ In k (map fst (entry_nodes e))
                                       /\ c = node_column k)
      /\ Forall (fun r => List.length r = List.length (columns df)) (data df)
      /\ Permutation (data df)
           (map (fun e => row_cells (columns df) (row_of e)) entries)
      /\ (forall e k,
            In e entries -> ~ In k (map fst (entry_nodes e)) ->
            (exists e', In e' entries /\ In k (map fst (entry_nodes e'))) ->
            In (node_column k) (columns df)
            /\ In (row_cells (columns df) (row_of e)) (data df)
            /\ cell_at (columns df) (row_cells (columns df) (row_of e))
                 (node_column k) = NaN
            /\ forall v, NaN <> Val v)
      /\ (forall e k,
            In e entries -> In k (map fst (entry_nodes e)) ->
            exists v,
              cell_at (columns df) (row_cells (columns df) (row_of e))
                (node_column k) = Val v).
Proof.
  intros K entries Hne Hwf.
  pose proof (ledger_to_df_well_formed K Hne Hwf) as Hdf.
  assert (Hwf' := Hwf). rewrite forallb_forall in Hwf'.
  eexists. split; [exact Hdf|]. cbn [columns data].
  set (cols := union_keys (map row_of entries)).
  assert (Hcols : forall c, In c cols
                    <-> In c fixed_columns
                        \/ exists e k, In e entries
                                       /\ In k (map fst (entry_nodes e))
                                       /\ c = node_column k).
  { intros c. unfold cols. rewrite columns_of_well_formed by exact Hwf.
    tauto. }
  assert (Hperm : Permutation
                    (take [] (argsort K (map entry_round entries))
                       (unsorted_rows entries))
                    (map (fun e => row_cells cols (row_of e)) entries)).
  { eapply perm_trans.
    - apply take_perm. unfold unsorted_rows. rewrite !length_map.
      rewrite <- (length_map entry_round). apply argsort_perm.
    - unfold unsorted_rows. rewrite map_map. apply Permutation_refl. }
  split.
  { rewrite (Permutation_length Hperm). apply length_map. }
  split; [apply union_keys_NoDup|].
  split; [exact Hcols|].
  split.
  { eapply Permutation_Forall; [apply Permutation_sym, Hperm|].
    apply Forall_forall. intros r Hr. apply in_map_iff in Hr.
    destruct Hr as (e & <- & _). apply row_cells_length. }
  split; [exact Hperm|].
  split.
  - intros e k He Hk (e' & He' & Hk').
    assert (Hin : In (node_column k) cols)
      by (apply Hcols; right; eauto).
    split; [exact Hin|]. split.
    + apply (Permutation_in _ (Permutation_sym Hperm)).
      apply in_map_iff. eauto.
    + split; [|discriminate].
      rewrite cell_at_row_cells by exact Hin.
      apply node_cell_missing; [apply Hwf', He|exact Hk].
  - intros e k He Hk.
    assert (Hin : In (node_column k) cols)
      by (apply Hcols; right; eauto).
    rewrite cell_at_row_cells by exact Hin.
    apply node_cell_present; [apply Hwf', He|exact Hk].
Qed.

Definition entries_e2e : list pyval :=
  match ledger_e2e with
  | PyList l => l
  | _ => []
  end.

Lemma entries_e2e_well_formed : forallb well_formed entries_e2e = true.
Proof. vm_compute. reflexivity. Qed.

(** In the section-8 scenario round 1 has no node [s2]: its row holds the
    missing-value marker under [Store_s2]. *)
Lemma ledger_to_df_field_set_witness :
  exists df,
    ledger_to_df stable_kind (PyList entries_e2e) = Ok df
    /\ List.length (data df) = 2%nat
    /\ In (U "Store_s2") (columns df)
    /\ cell_at (columns df)
         (row_cells (columns df) (row_of (nth 0 entries_e2e PyNone)))
         (U "Store_s2") = NaN.
Proof.
  destruct (@ledger_to_df_field_set stable_kind entries_e2e
              ltac:(discriminate) entries_e2e_well_formed)
    as (df & Hdf & Hlen & _ & _ & _ & _ & Hmiss & _).
  exists df. split; [exact Hdf|]. split; [exact Hlen|].
  destruct (Hmiss (nth 0 entries_e2e PyNone) (U "s2")) as (Hin & _ & Hc & _).
  - left. reflexivity.
  - vm_compute. intros [H|[]]. discriminate H.
  - exists (nth 1 entries_e2e PyNone). split.
    + right. left. reflexivity.
    + vm_compute. right. left. reflexivity.
  - split; [exact Hin|exact Hc].
Defined.

(** ** Refresh cache and poll loop *)

Lemma count_renders_app t1 t2 :
  count_renders (t1 ++ t2) = (count_renders t1 + count_renders t2)%nat.
Proof. unfold count_renders. rewrite filter_app, length_app. reflexivity. Qed.

Lemma load_ledger_renders json_loads ledger_doc w :
  count_renders (trace (snd (load_ledger json_loads ledger_doc w)))
  = count_renders (trace w).
Proof.
  destruct (load_ledger_trace json_loads ledger_doc w)
    as [(Ht & _)|[(Ht & _)|(Ht & _)]]; cbv zeta in Ht; rewrite Ht;
    rewrite count_renders_app; cbn; lia.
Qed.

(** [fetch] returns what [ledger_to_df] makes of the loaded value, or
    raises what [load_ledger] raised, in the world [load_ledger] leaves. *)
Lemma fetch_unfold json_loads ledger_doc K w :
  fetch json_loads ledger_doc K w
  = (rbind (fst (load_ledger json_loads ledger_doc w)) (ledger_to_df K),
     snd (load_ledger json_loads ledger_doc w)).
Proof.
  unfold fetch, bind, lift.
  destruct (load_ledger json_loads ledger_doc w) as [[v|e] w1]; reflexivity.
Qed.

(** A call of [get_cached_data] answers from the cache, or stores and
    returns a fresh table, or raises what [fetch] raised. *)
Lemma get_cached_data_cases json_loads ledger_doc K w :
  (exists expiry df,
      cache w = Some (expiry, df) /\ (clock w <? expiry)%N = true
      /\ get_cached_data json_loads ledger_doc K w = (Ok df, w))
  \/ (exists df w1,
         fetch json_loads ledger_doc K w = (Ok df, w1)
         /\ get_cached_data json_loads ledger_doc K w
            = (Ok df, {| looks := looks w1; clock := clock w1;
                         cache := Some ((clock w1 + 1000)%N, df);
                         trace := trace w1 |}))
  \/ (exists e w1,
         fetch json_loads ledger_doc K w = (Raise e, w1)
         /\ get_cached_data json_loads ledger_doc K w = (Raise e, w1)).
Proof.
  assert (Hfresh :
    (exists df w1,
        fetch json_loads ledger_doc K w = (Ok df, w1)
        /\ (df <- fetch json_loads ledger_doc K ;;
            (fun w' => store ((clock w' + 1000)%N, df) w') ;; ret df)%M w
           = (Ok df, {| looks := looks w1; clock := clock w1;
                        cache := Some ((clock w1 + 1000)%N, df);
                        trace := trace w1 |}))
    \/ (exists e w1,
           fetch json_loads ledger_doc K w = (Raise e, w1)
           /\ (df <- fetch json_loads ledger_doc K ;;
               (fun w' => store ((clock w' + 1000)%N, df) w') ;; ret df)%M w
              = (Raise e, w1))).
  { unfold bind.
    destruct (fetch json_loads ledger_doc K w) as [[df|e] w1].
    - left. exists df, w1. split; reflexivity.
    - right. exists e, w1. split; reflexivity. }
  unfold get_cached_data.
  destruct (cache w) as [[expiry df]|] eqn:Ec.
  - destruct (clock w <? expiry)%N eqn:Et.
    + left. exists expiry, df. split; [reflexivity|]. split; [exact Et|reflexivity].
    + right. exact Hfresh.
  - right. exact Hfresh.
Qed.

Lemma get_cached_data_renders json_loads ledger_doc K w :
  count_renders (trace (snd (get_cached_data json_loads ledger_doc K w)))
  = count_renders (trace w).
Proof.
  pose proof (fetch_unfold json_loads ledger_doc K w) as Hf.
  pose proof (load_ledger_renders json_loads ledger_doc w) as Hl.
  destruct (get_cached_data_cases json_loads ledger_doc K w)
    as [(x & df & _ & _ & H)|[(df & w1 & Hf' & H)|(e & w1 & Hf' & H)]];
    rewrite H; cbn [snd trace]; [reflexivity| |];
    rewrite Hf in Hf'; injection Hf' as _ <-; exact Hl.
Qed.

(** A value [ledger_to_df] accepts: an empty one, or a list of
    well-formed entries. *)
Definition reshapable (v : pyval) : bool :=
  negb (truthy v)
  || match v with
     | PyList entries => forallb well_formed entries
     | _ => false
     end.

Lemma ledger_to_df_reshapable K v :
  reshapable v = true -> exists df, ledger_to_df K v = Ok df.
Proof.
  unfold reshapable. intros H.
  destruct (truthy v) eqn:Et.
  - cbn [negb orb] in H. destruct v as [| | | | |entries|]; try discriminate.
    destruct entries as [|e entries]; [discriminate Et|].
    rewrite ledger_to_df_well_formed by (assumption || discriminate).
    eauto.
  - unfold ledger_to_df. rewrite Et. cbn [negb]. eauto.
Qed.

Lemma read_and_parse_value json_loads ledger_doc w v w' :
  read_and_parse json_loads ledger_doc w = (Ok v, w') ->
  v = PyList []
  \/ exists k c, ledger_doc k = Content c /\ json_loads c = Parsed v.
Proof.
  destruct (ledger_doc (looks w)) as [|c| | |] eqn:Ed;
    try (unfold read_and_parse, bind, open_read; rewrite Ed; discriminate).
  destruct c as [|ch c].
  - rewrite (read_and_parse_empty _ _ _ Ed). intros H. injection H as <- _.
    left. reflexivity.
  - rewrite (read_and_parse_content json_loads _ _ Ed) by discriminate.
    destruct (json_loads (ch :: c)) as [v0| | |] eqn:Ej; try discriminate.
    intros H. injection H as <- _. right. eauto.
Qed.

Lemma load_ledger_value json_loads ledger_doc w v :
  fst (load_ledger json_loads ledger_doc w) = Ok v ->
  v = PyList []
  \/ exists k c, ledger_doc k = Content c /\ json_loads c = Parsed v.
Proof.
  destruct (load_ledger_cases json_loads ledger_doc w)
    as [(_ & H)|[(_ & _ & v' & H & Hr)|[(_ & _ & _ & v' & H & Hr)
       |[(_ & _ & _ & H)|[(_ & e & _ & H)|(_ & _ & e & _ & H)]]]]];
    rewrite H; cbn [fst]; intros E; try discriminate E; injection E as <-.
  - left. reflexivity.
  - exact (read_and_parse_value _ _ _ Hr).
  - exact (read_and_parse_value _ _ _ Hr).
  - left. reflexivity.
Qed.

(** [load_ledger] returns when every look finds a document that is
    missing or is a text the parser reads or rejects as malformed. *)
Lemma load_ledger_ok json_loads ledger_doc w :
  (forall k, decodes json_loads (ledger_doc k)) ->
  exists v, fst (load_ledger json_loads ledger_doc w) = Ok v.
Proof.
  intros Hd.
  destruct (load_ledger_cases json_loads ledger_doc w)
    as [(_ & H)|[(_ & _ & v & H & _)|[(_ & _ & _ & v & H & _)
       |[(_ & _ & _ & H)|[(_ & e & He & _)|(_ & _ & e & He & _)]]]]];
    try (rewrite H; cbn [fst]; eauto; fail).
  - destruct (decodes_escapes _ _ _ (Hd _) He).
  - destruct (decodes_escapes _ _ _ (Hd _) He).
Qed.

Lemma tick_fetch_raises json_loads ledger_doc K ns w e w1 :
  get_cached_data json_loads ledger_doc K w = (Raise e, w1) ->
  tick json_loads ledger_doc K ns w = (Raise e, w1).
Proof. intros H. unfold tick, bind. rewrite H. reflexivity. Qed.

Lemma rounds_to_show_unbound df :
  load_name (module_namespace df) (U "rounds_to_show")
  = Raise (NameError (U "rounds_to_show")).
Proof. reflexivity. Qed.

Lemma tick_name_error json_loads ledger_doc K w df w1 :
  get_cached_data json_loads ledger_doc K w = (Ok df, w1) ->
  tick json_loads ledger_doc K module_namespace w
  = (Raise (NameError (U "rounds_to_show")), w1).
Proof.
  intros H. unfold tick, bind. rewrite H. unfold lift.
  rewrite rounds_to_show_unbound. reflexivity.
Qed.

Lemma live_loop_step json_loads ledger_doc K ns n w :
  live_loop json_loads ledger_doc K ns (S n) w
  = match tick json_loads ledger_doc K ns (after_sleep 5000 w) with
    | (Ok _, w') => live_loop json_loads ledger_doc K ns n w'
    | (Raise e, w') => (Raise e, w')
    end.
Proof. reflexivity. Qed.

Lemma main_unfold json_loads ledger_doc K auto_refresh n w :
  main json_loads ledger_doc K auto_refresh n w
  = match tick json_loads ledger_doc K module_namespace w with
    | (Ok _, w') =>
        if auto_refresh
        then live_loop json_loads ledger_doc K module_namespace n w'
        else (Ok tt, w')
    | (Raise e, w') => (Raise e, w')
    end.
Proof.
  unfold main, bind.
  destruct (tick json_loads ledger_doc K module_namespace w) as [[u|e] w'];
    [|reflexivity].
  destruct auto_refresh; reflexivity.
Qed.

(** A tick of the program as written ends in an exception, with no render
    done: the error of the fetch, or else the unbound name. *)
Lemma tick_raises json_loads ledger_doc K w :
  exists e w',
    tick json_loads ledger_doc K module_namespace w = (Raise e, w')
    /\ count_renders (trace w') = count_renders (trace w)
    /\ ((exists df, fst (get_cached_data json_loads ledger_doc K w) = Ok df
                    /\ e = NameError (U "rounds_to_show"))
        \/ fst (get_cached_data json_loads ledger_doc K w) = Raise e).
Proof.
  pose proof (get_cached_data_renders json_loads ledger_doc K w) as Hc.
  destruct (get_cached_data json_loads ledger_doc K w) as [[df|e] w1] eqn:E;
    cbn [snd fst] in *.
  - exists (NameError (U "rounds_to_show")), w1.
    rewrite (tick_name_error _ _ _ _ E).
    split; [reflexivity|]. split; [exact Hc|]. left. eauto.
  - exists e, w1. rewrite (tick_fetch_raises _ _ _ _ _ E).
    split; [reflexivity|]. split; [exact Hc|]. right. reflexivity.
Qed.

(** C9, as amended.  When every look finds a document that is missing or
    is a text the parser reads or rejects as malformed, and every text
    that parses holds an empty value or a list of well-formed entries,
    [get_cached_data] raises nothing in any world: cache, reader and
    reshaper hand the loop a table.  And the render step takes an empty
    table as the displayable no-data state: it returns the warning and
    raises nothing. *)
Theorem fetch_and_empty_render_safe :
  forall (json_loads : pystr -> parse) (ledger_doc : nat -> doc)
         (K : SortKind),
    (forall k, decodes json_loads (ledger_doc k)) ->
    (forall k c v,
        ledger_doc k = Content c -> json_loads c = Parsed v ->
        reshapable v = true) ->
    (forall w, exists df w',
        get_cached_data json_loads ledger_doc K w = (Ok df, w'))
    /\ (forall df rounds_to_show,
          df_empty df = true ->
          render_dashboard_content df rounds_to_show
          = Ok (NoDataYet
                  (U "No rounds in ledger yet. Connect or turn on your aggregator.")))
    /\ df_empty empty_frame = true.
Proof.
  intros json_loads ledger_doc K Hdec Hdocs.
  split; [|split; [|reflexivity]].
  - intros w.
    destruct (get_cached_data_cases json_loads ledger_doc K w)
      as [(x & df & _ & _ & H)|[(df & w1 & _ & H)|(e & w1 & Hf & _)]];
      [eauto|eauto|].
    exfalso.
    destruct (load_ledger_ok json_loads ledger_doc w Hdec) as (v & Hv).
    rewrite fetch_unfold, Hv in Hf. cbn [rbind] in Hf.
    injection Hf as Hdf _.
    assert (Hr : reshapable v = true).
    { destruct (load_ledger_value _ _ _ Hv) as [->|(k & c & Hk & Hj)];
        [reflexivity|].
      exact (Hdocs k c v Hk Hj). }
    destruct (ledger_to_df_reshapable K v Hr) as (df & Hok). congruence.
  - intros df n He. unfold render_dashboard_content. rewrite He. reflexivity.
Qed.

Lemma fetch_and_empty_render_safe_witness :
  (exists df w',
      get_cached_data sample_loads doc_being_written stable_kind initial_world
      = (Ok df, w'))
  /\ render_dashboard_content empty_frame 10
     = Ok (NoDataYet
             (U "No rounds in ledger yet. Connect or turn on your aggregator.")).
Proof.
  assert (Hdec : forall k, decodes sample_loads (doc_being_written k)).
  { intros k. unfold doc_being_written.
    destruct (k <? 2)%nat; split; vm_compute; discriminate. }
  assert (Hdocs : forall k c v,
             doc_being_written k = Content c -> sample_loads c = Parsed v ->
             reshapable v = true).
  { intros k c v Hk Hj. unfold doc_being_written in Hk.
    destruct (k <? 2)%nat; injection Hk as <-;
      vm_compute in Hj; [discriminate Hj|].
    injection Hj as <-. vm_compute. reflexivity. }
  pose proof (@fetch_and_empty_render_safe sample_loads doc_being_written
                stable_kind Hdec Hdocs) as (Hfetch & Hrender & Hempty).
  split; [exact (Hfetch initial_world)|exact (Hrender empty_frame 10 Hempty)].
Defined.

(** C9 as the specification states it fails: an entry without its [round]
    makes the reshaper raise [KeyError], which nothing between the
    reshaper and the loop catches.  The fetch raises it, and so does the
    first round of the live loop, under any binding of the names. *)
Lemma malformed_record_counterexample :
  sample_loads doc_malformed = Parsed ledger_malformed
  /\ ledger_to_df stable_kind ledger_malformed = Raise (KeyError (U "round"))
  /\ fst (get_cached_data sample_loads (fun _ => Content doc_malformed)
            stable_kind initial_world)
     = Raise (KeyError (U "round"))
  /\ (forall ns n,
        fst (live_loop sample_loads (fun _ => Content doc_malformed)
               stable_kind ns (S n) initial_world)
        = Raise (KeyError (U "round"))).
Proof.
  split; [vm_compute; reflexivity|]. split; [reflexivity|].
  split; [vm_compute; reflexivity|].
  intros ns n. rewrite live_loop_step.
  destruct (get_cached_data sample_loads (fun _ => Content doc_malformed)
              stable_kind (after_sleep 5000 initial_world))
    as [r w1] eqn:E.
  assert (Hr : r = Raise (KeyError (U "round"))).
  { apply (f_equal fst) in E. cbn [fst] in E. rewrite <- E.
    vm_compute. reflexivity. }
  subst r. rewrite (tick_fetch_raises _ _ _ ns _ E). reflexivity.
Qed.

(** ** The unbound name *)

(** C10, as amended.  The module binds no [rounds_to_show].  Every run of
    the program ends in an exception before any render is done, whatever
    the document holds: [NameError] for [rounds_to_show] whenever the
    fetch before the render call returns a table, and otherwise the
    exception the fetch raised.  The same holds for every round of the
    live loop. *)
Theorem render_never_completes :
  forall (json_loads : pystr -> parse) (ledger_doc : nat -> doc)
         (K : SortKind) (auto_refresh : bool) (n : nat) (w : world),
    (forall df,
        load_name (module_namespace df) (U "rounds_to_show")
        = Raise (NameError (U "rounds_to_show")))
    /\ (exists e w',
           main json_loads ledger_doc K auto_refresh n w = (Raise e, w')
           /\ count_renders (trace w') = count_renders (trace w)
           /\ ((exists df,
                   fst (get_cached_data json_loads ledger_doc K w) = Ok df
                   /\ e = NameError (U "rounds_to_show"))
               \/ fst (get_cached_data json_loads ledger_doc K w) = Raise e))
    /\ (exists e w',
           live_loop json_loads ledger_doc K module_namespace (S n) w
           = (Raise e, w')
           /\ count_renders (trace w') = count_renders (trace w)).
Proof.
  intros json_loads ledger_doc K auto_refresh n w.
  split; [exact rounds_to_show_unbound|]. split.
  - destruct (tick_raises json_loads ledger_doc K w) as (e & w' & Ht & Hc & He).
    exists e, w'. rewrite main_unfold, Ht. auto.
  - destruct (tick_raises json_loads ledger_doc K (after_sleep 5000 w))
      as (e & w' & Ht & Hc & _).
    exists e, w'. rewrite live_loop_step, Ht. split; [reflexivity|].
    rewrite Hc.
    change (trace (after_sleep 5000 w)) with (trace w ++ [EvSleep 5000]).
    rewrite count_renders_app. cbn. lia.
Qed.

(** With the writer caught in the middle the fetch returns the table of
    [ledger_one], and the run ends in the unbound name. *)
Lemma render_never_completes_witness :
  exists w',
    main sample_loads doc_being_written stable_kind true 3 initial_world
    = (Raise (NameError (U "rounds_to_show")), w')
    /\ count_renders (trace w') = 0%nat.
Proof.
  destruct (@render_never_completes sample_loads doc_being_written stable_kind
              true 3%nat initial_world)
    as (_ & (e & w' & Hmain & Hcount & [(df & _ & He)|Hraise]) & _).
  - exists w'. subst e. split; [exact Hmain|exact Hcount].
  - exfalso. revert Hraise. vm_compute. discriminate.
Defined.

(** C10 as stated fails on a ledger whose entry has no [round]: the run
    ends at the fetch of line 260 with [KeyError], and the render call of
    line 262, with its unbound name, is never reached. *)
Lemma name_error_counterexample :
  fst (main sample_loads (fun _ => Content doc_malformed) stable_kind true 3
         initial_world)
  = Raise (KeyError (U "round"))
  /\ KeyError (U "round") <> NameError (U "rounds_to_show").
Proof.
  split; [vm_compute; reflexivity|discriminate].
Qed.

(** * Further properties of the code *)

(** ** Ledger reader: the paths the retry policy leaves *)

(** X1.  When the document is there and its first read, not empty, parses,
    [load_ledger] returns that parse after one look for existence and one
    read: no retry, no sleep, the clock and the cache as they were. *)
Theorem load_ledger_first_read :
  forall (json_loads : pystr -> parse) (ledger_doc : nat -> doc)
         (w : world) (c : pystr) (v : pyval),
    ledger_doc (looks w) <> Missing ->
    ledger_doc (S (looks w)) = Content c ->
    c <> [] -> json_loads c = Parsed v ->
    exists w',
      load_ledger json_loads ledger_doc w = (Ok v, w')
      /\ trace w' = trace w ++ [EvExists; EvRead]
      /\ looks w' = S (S (looks w))
      /\ clock w' = clock w
      /\ cache w' = cache w.
Proof.
  intros json_loads ledger_doc w c v H0 H1 Hc Hj.
  pose proof (load_ledger_cases json_loads ledger_doc w) as Hcases.
  cbv zeta in Hcases. rewrite H1 in Hcases.
  assert (Hok : ~ attempt_fails json_loads (Content c)).
  { intros [_ Hn]. congruence. }
  destruct Hcases
    as [(Hm & _)|[(_ & _ & v' & H & Hr)|[(_ & Hf & _)|[(_ & Hf & _)
       |[(_ & e & Hesc & _)|(_ & Hf & _)]]]]];
    try contradiction.
  - rewrite (read_and_parse_content json_loads ledger_doc (after_exists w) H1 Hc)
      in Hr.
    rewrite Hj in Hr. injection Hr as <-.
    eexists. split; [exact H|]. cbn. rewrite <- app_assoc.
    repeat split; reflexivity.
  - destruct Hesc as [_ [[Hn _]|[Hn _]]]; congruence.
Qed.

(** The whole text on every look. *)
Definition doc_steady (k : nat) : doc := Content doc_full.

Lemma load_ledger_first_read_witness :
  exists w',
    load_ledger sample_loads doc_steady initial_world = (Ok ledger_one, w')
    /\ trace w' = [EvExists; EvRead]
    /\ looks w' = 2%nat
    /\ clock w' = 0%N
    /\ cache w' = None.
Proof.
  refine (@load_ledger_first_read sample_loads doc_steady initial_world
            doc_full ledger_one _ _ _ _).
  - discriminate.
  - reflexivity.
  - discriminate.
  - vm_compute. reflexivity.
Defined.

(** X2.  A document that is there at the existence check and gone at the
    first open is handled like one that does not parse: after the 0.1 s
    sleep the second read is taken, and if it parses its value is
    returned. *)
Theorem load_ledger_vanished_then_back :
  forall (json_loads : pystr -> parse) (ledger_doc : nat -> doc)
         (w : world) (c2 : pystr) (v : pyval),
    ledger_doc (looks w) <> Missing ->
    ledger_doc (S (looks w)) = Missing ->
    ledger_doc (S (S (looks w))) = Content c2 ->
    c2 <> [] -> json_loads c2 = Parsed v ->
    exists w',
      load_ledger json_loads ledger_doc w = (Ok v, w')
      /\ trace w' = trace w ++ [EvExists; EvRead; EvSleep 100; EvRead]
      /\ clock w' = (clock w + 100)%N.
Proof.
  intros json_loads ledger_doc w c2 v H0 H1 H2 Hc2 Hj2.
  pose proof (load_ledger_cases json_loads ledger_doc w) as Hcases.
  cbv zeta in Hcases. rewrite H1, H2 in Hcases.
  assert (Hok2 : ~ attempt_fails json_loads (Content c2)).
  { intros [_ Hn]. congruence. }
  destruct Hcases
    as [(Hm & _)|[(_ & Hok & _)|[(_ & _ & _ & v' & H & Hr)|[(_ & _ & Hf2 & _)
       |[(_ & e & Hesc & _)|(_ & _ & e & Hesc & _)]]]]];
    try contradiction.
  - exfalso. apply Hok. exact I.
  - rewrite (read_and_parse_content json_loads ledger_doc
               (after_sleep 100 (after_read (after_exists w))) H2 Hc2) in Hr.
    rewrite Hj2 in Hr. injection Hr as <-.
    eexists. split; [exact H|]. cbn. rewrite <- !app_assoc.
    split; reflexivity.
  - destruct Hesc as [_ [[Hn _]|[Hn _]]]; congruence.
Qed.

(** The document is replaced by the writer: there, gone, there again. *)
Definition doc_replaced (k : nat) : doc :=
  if (k =? 1)%nat then Missing else Content doc_full.

Lemma load_ledger_vanished_then_back_witness :
  exists w',
    load_ledger sample_loads doc_replaced initial_world = (Ok ledger_one, w')
    /\ trace w' = [EvExists; EvRead; EvSleep 100; EvRead]
    /\ clock w' = 100%N.
Proof.
  refine (@load_ledger_vanished_then_back sample_loads doc_replaced
            initial_world doc_full ledger_one _ _ _ _ _).
  - discriminate.
  - reflexivity.
  - reflexivity.
  - discriminate.
  - vm_compute. reflexivity.
Defined.


(** ** Refresh cache: the validity window *)

Lemma load_ledger_world json_loads ledger_doc w :
  let w' := snd (load_ledger json_loads ledger_doc w) in
  cache w' = cache w
  /\ (clock w <= clock w')%N
  /\ (looks w < looks w')%nat.
Proof.
  destruct (load_ledger_cases json_loads ledger_doc w)
    as [(_ & H)|[(_ & _ & v & H & _)|[(_ & _ & _ & v & H & _)
       |[(_ & _ & _ & H)|[(_ & e & _ & H)|(_ & _ & e & _ & H)]]]]];
    cbv zeta; rewrite H; cbn; repeat split; lia.
Qed.

Lemma fetch_world json_loads ledger_doc K w :
  let w' := snd (fetch json_loads ledger_doc K w) in
  cache w' = cache w
  /\ (clock w <= clock w')%N
  /\ (looks w < looks w')%nat.
Proof.
  rewrite fetch_unfold. cbn [snd]. apply load_ledger_world.
Qed.

(** X4.  Once [get_cached_data] has returned a table, a second call right
    after it returns the same table without a look at the document,
    whatever the document has become; and when the first call had to
    fetch, so does every call made after sleeping less than a second. *)
Theorem get_cached_data_window :
  forall (json_loads : pystr -> parse) (ledger_doc : nat -> doc)
         (K : SortKind) (w w1 : world) (df : DataFrame),
    get_cached_data json_loads ledger_doc K w = (Ok df, w1) ->
    (forall json_loads' ledger_doc' K',
        get_cached_data json_loads' ledger_doc' K' w1 = (Ok df, w1))
    /\ ((cache w = None
         \/ exists expiry d, cache w = Some (expiry, d)
                             /\ (expiry <= clock w)%N) ->
        forall ms json_loads' ledger_doc' K',
          (ms < 1000)%N ->
          get_cached_data json_loads' ledger_doc' K' (after_sleep ms w1)
          = (Ok df, after_sleep ms w1)).
Proof.
  intros json_loads ledger_doc K w w1 df Hcall.
  destruct (get_cached_data_cases json_loads ledger_doc K w)
    as [(x & d & Hc & Ht & H)|[(d & w2 & _ & H)|(e & w2 & _ & H)]];
    rewrite H in Hcall; [| |discriminate]; injection Hcall as <- <-.
  - split.
    + intros jl' ld' K'. unfold get_cached_data. rewrite Hc, Ht. reflexivity.
    + intros [Hn|(expiry & d' & Hc' & Hle)]; [congruence|].
      rewrite Hc in Hc'. injection Hc' as <- <-.
      apply N.ltb_lt in Ht. lia.
  - split.
    + intros jl' ld' K'. unfold get_cached_data. cbn [cache clock].
      replace (clock w2 <? clock w2 + 1000)%N with true
        by (symmetry; apply N.ltb_lt; lia).
      reflexivity.
    + intros _ ms jl' ld' K' Hms. unfold get_cached_data.
      cbn [after_sleep log cache clock].
      replace (clock w2 + ms <? clock w2 + 1000)%N with true
        by (symmetry; apply N.ltb_lt; lia).
      reflexivity.
Qed.

Lemma get_cached_data_window_witness :
  exists w1,
    get_cached_data sample_loads doc_steady stable_kind initial_world
    = (Ok frame_one, w1)
    /\ get_cached_data sample_loads (fun _ => Missing) stable_kind
         (after_sleep 999 w1)
       = (Ok frame_one, after_sleep 999 w1).
Proof.
  destruct (get_cached_data sample_loads doc_steady stable_kind initial_world)
    as [r w1] eqn:E.
  assert (Hr : r = Ok frame_one).
  { apply (f_equal fst) in E. cbn [fst] in E. rewrite <- E.
    vm_compute. reflexivity. }
  subst r. exists w1. split; [reflexivity|].
  refine (proj2 (@get_cached_data_window sample_loads doc_steady stable_kind
                   initial_world w1 frame_one E) _ 999%N _ _ _ _).
  - left. reflexivity.
  - reflexivity.
Defined.

(** The cache never holds an expiry more than a second ahead of the
    clock. *)
Definition cache_bounded (w : world) : Prop :=
  match cache w with
  | Some (expiry, _) => (expiry <= clock w + 1000)%N
  | None => True
  end.

Lemma cache_bounded_sleep ms w : cache_bounded w -> cache_bounded (after_sleep ms w).
Proof.
  unfold cache_bounded. cbn [after_sleep log cache clock].
  destruct (cache w) as [[e d]|]; [lia|auto].
Qed.

(** X5.  In a world where the cache is within its bound (the initial
    world is, and [get_cached_data] and sleeping keep it so), a call made
    after a sleep of a second or more, such as the five seconds of the
    live loop, looks at the document again.  A call that raises leaves the
    cache as it was. *)
Theorem get_cached_data_expires :
  forall (json_loads : pystr -> parse) (ledger_doc : nat -> doc)
         (K : SortKind) (w : world) (ms : N),
    cache_bounded w -> (1000 <= ms)%N ->
    exists r w',
      get_cached_data json_loads ledger_doc K (after_sleep ms w) = (r, w')
      /\ (looks w < looks w')%nat
      /\ cache_bounded w'
      /\ (forall e, r = Raise e -> cache w' = cache w)
      /\ cache_bounded initial_world.
Proof.
  intros json_loads ledger_doc K w ms Hb Hms.
  set (ws := after_sleep ms w).
  assert (Hmiss : cache ws = None
                  \/ exists expiry d, cache ws = Some (expiry, d)
                                      /\ (expiry <= clock ws)%N).
  { unfold cache_bounded in Hb. subst ws. cbn [after_sleep log cache clock].
    destruct (cache w) as [[e d]|]; [|left; reflexivity].
    right. exists e, d. split; [reflexivity|lia]. }
  pose proof (fetch_world json_loads ledger_doc K ws) as Hw.
  cbv zeta in Hw.
  destruct (get_cached_data_cases json_loads ledger_doc K ws)
    as [(x & d & Hc & Ht & _)|[(d & w2 & Hf & H)|(e & w2 & Hf & H)]].
  - exfalso. apply N.ltb_lt in Ht.
    destruct Hmiss as [Hn|(expiry & d' & Hc' & Hle)]; [congruence|].
    rewrite Hc in Hc'. injection Hc' as <- <-. lia.
  - rewrite Hf in Hw. cbn [snd] in Hw. destruct Hw as (_ & _ & Hl).
    do 2 eexists. split; [exact H|]. cbn [looks].
    split; [exact Hl|]. split; [unfold cache_bounded; cbn; lia|].
    split; [discriminate|exact I].
  - rewrite Hf in Hw. cbn [snd] in Hw. destruct Hw as (Hc & Hclk & Hl).
    do 2 eexists. split; [exact H|].
    split; [exact Hl|]. split.
    + unfold cache_bounded in *. rewrite Hc.
      change (cache ws) with (cache w).
      change (clock ws) with (clock w + ms)%N in Hclk.
      destruct (cache w) as [[e' d']|]; [lia|exact I].
    + split; [|exact I]. intros _ _. rewrite Hc. reflexivity.
Qed.

(** The world after a first call has fetched [ledger_one]: the table is
    cached until the clock reads one second. *)
Definition world_cached : world :=
  {| looks := 2; clock := 0; cache := Some (1000%N, frame_one);
     trace := [EvExists; EvRead] |}.

Lemma get_cached_data_expires_witness :
  get_cached_data sample_loads doc_steady stable_kind initial_world
  = (Ok frame_one, world_cached)
  /\ exists r w',
       get_cached_data sample_loads doc_steady stable_kind
         (after_sleep 5000 world_cached) = (r, w')
       /\ (looks world_cached < looks w')%nat
       /\ cache_bounded w'.
Proof.
  split; [vm_compute; reflexivity|].
  assert (Hb : cache_bounded world_cached)
    by (unfold cache_bounded; cbn; lia).
  destruct (@get_cached_data_expires sample_loads doc_steady stable_kind
              world_cached 5000%N Hb ltac:(discriminate))
    as (r & w' & H & Hl & Hb' & _).
  exists r, w'. split; [exact H|]. split; [exact Hl|exact Hb'].
Defined.

(** ** Display formatter: more on truncation *)

Lemma last_chars_length n (s : pystr) :
  (n <= List.length s)%nat -> List.length (last_chars n s) = n.
Proof. intros H. unfold last_chars. rewrite length_skipn. lia. Qed.

Lemma truncated_length (s : pystr) ks ke :
  (ks + ke < List.length s)%nat ->
  List.length (firstn ks s ++ U "..." ++ last_chars ke s) = (ks + 3 + ke)%nat.
Proof.
  intros H. rewrite !length_app, length_firstn, last_chars_length by lia.
  cbn. lia.
Qed.

Lemma firstn_truncated (s : pystr) ks ke :
  (ks + ke < List.length s)%nat ->
  firstn ks (firstn ks s ++ U "..." ++ last_chars ke s) = firstn ks s.
Proof.
  intros H.
  assert (Hl : List.length (firstn ks s) = ks)
    by (rewrite length_firstn; lia).
  rewrite firstn_app, Hl, Nat.sub_diag. cbn [firstn].
  rewrite app_nil_r. rewrite <- Hl at 1. apply firstn_all.
Qed.

Lemma last_chars_truncated (s : pystr) ks ke :
  (ks + ke < List.length s)%nat ->
  last_chars ke (firstn ks s ++ U "..." ++ last_chars ke s) = last_chars ke s.
Proof.
  intros H. unfold last_chars at 1.
  rewrite truncated_length by exact H.
  replace (ks + 3 + ke - ke)%nat with (ks + 3)%nat by lia.
  rewrite app_assoc.
  assert (Hl : List.length (firstn ks s ++ U "...") = (ks + 3)%nat).
  { rewrite length_app, length_firstn. cbn. lia. }
  rewrite skipn_app, Hl, Nat.sub_diag. cbn [skipn].
  rewrite <- Hl at 1. rewrite skipn_all. reflexivity.
Qed.

(** X6.  Truncation is idempotent for [keep_start >= 0] and
    [keep_end > 0]: truncating what has been truncated returns it
    unchanged, although the result, three characters longer than
    [keep_start + keep_end], goes through the truncating branch again. *)
Theorem truncate_hash_idempotent :
  forall (v : pyval) (keep_start keep_end : Z),
    0 <= keep_start -> 0 < keep_end ->
    truncate_hash (truncate_hash v keep_start keep_end) keep_start keep_end
    = truncate_hash v keep_start keep_end.
Proof.
  intros v ks ke Hs He.
  destruct v as [| | | |s| |]; try reflexivity.
  destruct (Z_le_gt_dec (py_len s) (ks + ke)) as [Hle|Hgt].
  - rewrite !truncate_hash_short by exact Hle. reflexivity.
  - rewrite (truncate_hash_long s Hs He Hgt).
    assert (Hn : (Z.to_nat ks + Z.to_nat ke < List.length s)%nat)
      by (unfold py_len in Hgt; lia).
    rewrite truncate_hash_long; try assumption.
    + rewrite firstn_truncated, last_chars_truncated by exact Hn.
      reflexivity.
    + unfold py_len. rewrite truncated_length by exact Hn. lia.
Qed.

Lemma truncate_hash_idempotent_witness :
  truncate_hash_default (truncate_hash_default (PyStr sample_hash))
  = truncate_hash_default (PyStr sample_hash).
Proof.
  exact (@truncate_hash_idempotent (PyStr sample_hash) 8 8
           ltac:(discriminate) eq_refl).
Defined.

(** X7.  For [keep_start >= 0] and [keep_end > 0] a truncated string has
    exactly [keep_start + 3 + keep_end] characters and an untouched one
    keeps its length.  With the defaults no result is longer than 19
    characters, and an input of 17 or 18 characters comes out longer than
    it went in. *)
Theorem truncate_hash_length :
  forall (s : pystr) (keep_start keep_end : Z),
    0 <= keep_start -> 0 < keep_end ->
    exists t,
      truncate_hash (PyStr s) keep_start keep_end = PyStr t
      /\ py_len t = (if py_len s >? keep_start + keep_end
                     then keep_start + 3 + keep_end
                     else py_len s)
      /\ (keep_start = 8 -> keep_end = 8 ->
          py_len t <= 19
          /\ (17 <= py_len s <= 18 -> py_len s < py_len t)).
Proof.
  intros s ks ke Hs He.
  destruct (py_len s >? ks + ke) eqn:E.
  - assert (Hgt : py_len s > ks + ke)
      by (rewrite Z.gtb_ltb in E; apply Z.ltb_lt in E; lia).
    rewrite (truncate_hash_long s Hs He Hgt). eexists. split; [reflexivity|].
    assert (Hn : (Z.to_nat ks + Z.to_nat ke < List.length s)%nat)
      by (unfold py_len in Hgt; lia).
    unfold py_len. rewrite truncated_length by exact Hn.
    split; [lia|]. intros -> ->. unfold py_len in *. lia.
  - assert (Hle : py_len s <= ks + ke)
      by (rewrite Z.gtb_ltb in E; apply Z.ltb_ge in E; lia).
    rewrite (truncate_hash_short s _ _ Hle). exists s.
    split; [reflexivity|]. split; [reflexivity|].
    intros -> ->. lia.
Qed.

Lemma truncate_hash_length_witness :
  exists t,
    truncate_hash (PyStr (U "0123456789abcdefg")) 8 8 = PyStr t
    /\ py_len t = 19.
Proof.
  destruct (@truncate_hash_length (U "0123456789abcdefg") 8 8
              ltac:(discriminate) eq_refl) as (t & Ht & Hlen & _).
  exists t. split; [exact Ht|exact Hlen].
Defined.

(** ** Ledger reshaper: what it rejects *)

(** X8.  A document whose top level is not a list never yields rows: a
    falsy value (null, false, zero, an empty string or object) gives the
    empty table, and every other value, a non-empty object included,
    makes [ledger_to_df] raise [TypeError]. *)
Theorem ledger_to_df_not_a_list :
  forall (K : SortKind) (v : pyval),
    (forall l, v <> PyList l) ->
    ledger_to_df K v = if truthy v then Raise TypeError else Ok empty_frame.
Proof.
  intros K v Hv. unfold ledger_to_df.
  destruct (truthy v) eqn:Et; [|reflexivity]. cbn [negb].
  destruct v as [|b|z|x|s|l|d]; try reflexivity.
  - destruct s as [|c s]; [discriminate Et|reflexivity].
  - exfalso. apply (Hv l). reflexivity.
  - destruct d as [|[k x] d]; [discriminate Et|reflexivity].
Qed.

Lemma ledger_to_df_not_a_list_witness :
  ledger_to_df stable_kind (PyDict [(U "rounds", PyList [])])
  = Raise TypeError.
Proof.
  refine (@ledger_to_df_not_a_list stable_kind
            (PyDict [(U "rounds", PyList [])]) _).
  intros l. discriminate.
Defined.

Definition required_fields : list pystr :=
  [U "round"; U "timestamp"; U "global_accuracy"; U "ipfs_hash";
   U "block_tx"; U "node_accuracies"].

(** X9.  For an entry that is a mapping, [build_row] raises [KeyError]
    for the first required field it lacks, in the order round, timestamp,
    global_accuracy, ipfs_hash, block_tx, node_accuracies; a missing
    [notes] is never an error.  With every required field present it
    raises [AttributeError] when [node_accuracies] is not a mapping and
    returns a row otherwise. *)
Theorem build_row_missing_field :
  forall d : dict,
    match filter (fun c => negb (has_key d c)) required_fields with
    | k :: _ => build_row (PyDict d) = Raise (KeyError k)
    | [] =>
        match dict_get (U "node_accuracies") d with
        | Some (PyDict _) => exists row, build_row (PyDict d) = Ok row
        | _ => build_row (PyDict d) = Raise AttributeError
        end
    end.
Proof.
  intros d. unfold build_row, required_fields, has_key, getitem, get_default.
  cbn [filter].
  destruct (dict_get (U "round") d); cbn [negb rbind]; [|reflexivity].
  destruct (dict_get (U "timestamp") d); cbn [negb rbind]; [|reflexivity].
  destruct (dict_get (U "global_accuracy") d); cbn [negb rbind]; [|reflexivity].
  destruct (dict_get (U "ipfs_hash") d); cbn [negb rbind]; [|reflexivity].
  destruct (dict_get (U "block_tx") d); cbn [negb rbind]; [|reflexivity].
  destruct (dict_get (U "notes") d); cbn [rbind];
    (destruct (dict_get (U "node_accuracies") d) as [na|];
       cbn [negb rbind]; [|reflexivity];
     destruct na; cbn [items rbind]; try reflexivity; eauto).
Qed.

Lemma rmap_app_raise {A B} (f : A -> result B) (g : A -> B) l a rest e :
  (forall x, In x l -> f x = Ok (g x)) -> f a = Raise e ->
  rmap f (l ++ a :: rest) = Raise e.
Proof.
  intros Hl Ha. induction l as [|x l IH]; cbn [app rmap].
  - rewrite Ha. reflexivity.
  - rewrite (Hl x) by (left; reflexivity).
    rewrite IH by (intros y Hy; apply Hl; right; exact Hy). reflexivity.
Qed.

(** X10.  One entry that cannot be turned into a row fails the whole
    reshape: when the entries before it are well-formed, [ledger_to_df]
    raises the exception of that entry, and no table is made of the
    others. *)
Theorem ledger_to_df_first_bad_entry :
  forall (K : SortKind) (good : list pyval) (bad : pyval)
         (rest : list pyval) (e : exn),
    forallb well_formed good = true ->
    build_row bad = Raise e ->
    ledger_to_df K (PyList (good ++ bad :: rest)) = Raise e.
Proof.
  intros K good bad rest e Hgood Hbad. unfold ledger_to_df.
  assert (Ht : truthy (PyList (good ++ bad :: rest)) = true)
    by (destruct good; reflexivity).
  rewrite Ht. cbn [negb py_iter rbind].
  rewrite forallb_forall in Hgood.
  rewrite (rmap_app_raise build_row row_of good bad rest
             (fun x Hx => build_row_row_of x (Hgood x Hx)) Hbad).
  reflexivity.
Qed.

Lemma ledger_to_df_first_bad_entry_witness :
  ledger_to_df stable_kind
    (PyList (entries_e2e ++ PyDict [(U "round", PyInt 3)] :: entries_3121))
  = Raise (KeyError (U "timestamp")).
Proof.
  exact (@ledger_to_df_first_bad_entry stable_kind entries_e2e
           (PyDict [(U "round", PyInt 3)]) entries_3121
           (KeyError (U "timestamp")) entries_e2e_well_formed eq_refl).
Defined.

(** ** Ledger reshaper: what the table holds *)

Lemma dict_set_NoDup {V} k (v : V) d :
  NoDup (map fst d) -> NoDup (map fst (dict_set k v d)).
Proof.
  induction d as [|[k' v'] d IH]; cbn [dict_set map fst]; intros Hnd.
  - repeat constructor. intros [].
  - inversion Hnd as [|? ? Hnotin Hnd']; subst.
    destruct (pystr_eqb k k') eqn:E; cbn [map fst].
    + constructor; assumption.
    + constructor; [|apply IH, Hnd'].
      intros Hin. apply dict_set_keys in Hin.
      destruct Hin as [->|Hin]; [|contradiction].
      rewrite pystr_eqb_refl in E. discriminate.
Qed.

Lemma prefix_nodes_NoDup its : NoDup (map fst (prefix_nodes its)).
Proof.
  unfold prefix_nodes.
  assert (H : forall acc : dict,
             NoDup (map fst acc) ->
             NoDup (map fst (fold_left
                               (fun acc kv =>
                                  dict_set (U "Store_" ++ fst kv) (snd kv) acc)
                               its acc))).
  { induction its as [|kv its IH]; intros acc Hacc; cbn [fold_left];
      [exact Hacc|].
    apply IH, dict_set_NoDup, Hacc. }
  apply H. constructor.
Qed.

(** Updating with fresh, distinct keys appends them. *)
Lemma dict_update_fresh (d other : dict) :
  NoDup (map fst other) ->
  (forall k, In k (map fst other) -> ~ In k (map fst d)) ->
  dict_update d other = d ++ other.
Proof.
  unfold dict_update. revert d.
  induction other as [|[k v] other IH]; intros d Hnd Hfresh; cbn [fold_left].
  - rewrite app_nil_r. reflexivity.
  - inversion Hnd as [|? ? Hnotin Hnd']; subst. cbn [fst snd].
    rewrite dict_set_fresh by (apply Hfresh; left; reflexivity).
    rewrite IH.
    + rewrite <- app_assoc. reflexivity.
    + exact Hnd'.
    + intros k' Hk'. rewrite map_app, in_app_iff. cbn.
      intros [Hin|[<-|[]]].
      * apply (Hfresh k'); [right; exact Hk'|exact Hin].
      * contradiction.
Qed.

(** The row of a well-formed entry: the six fields, then its nodes. *)
Lemma row_of_well_formed d :
  well_formed (PyDict d) = true ->
  exists r t g h b,
    dict_get (U "round") d = Some r
    /\ dict_get (U "timestamp") d = Some t
    /\ dict_get (U "global_accuracy") d = Some g
    /\ dict_get (U "ipfs_hash") d = Some h
    /\ dict_get (U "block_tx") d = Some b
    /\ row_of (PyDict d)
       = [(U "round", r); (U "timestamp", t); (U "global_accuracy", g);
          (U "ipfs_hash", h); (U "block_tx", b);
          (U "notes", match dict_get (U "notes") d with
                      | Some x => x
                      | None => PyStr []
                      end)]
         ++ prefix_nodes (entry_nodes (PyDict d)).
Proof.
  unfold well_formed, row_of, build_row, entry_nodes, getitem, get_default.
  destruct (dict_get (U "round") d) as [[| |z| | | |]|]; try discriminate.
  destruct (dict_get (U "node_accuracies") d) as [[| | | | | |na]|];
    try discriminate.
  unfold forallb, has_key.
  destruct (dict_get (U "timestamp") d) as [t|]; [|discriminate].
  destruct (dict_get (U "global_accuracy") d) as [g|]; [|discriminate].
  destruct (dict_get (U "ipfs_hash") d) as [h|]; [|discriminate].
  destruct (dict_get (U "block_tx") d) as [b|]; [|discriminate].
  intros _. exists (PyInt z), t, g, h, b.
  repeat (split; [reflexivity|]).
  assert (Hupd : forall n,
             dict_update
               [(U "round", PyInt z); (U "timestamp", t);
                (U "global_accuracy", g); (U "ipfs_hash", h);
                (U "block_tx", b); (U "notes", n)] (prefix_nodes na)
             = [(U "round", PyInt z); (U "timestamp", t);
                (U "global_accuracy", g); (U "ipfs_hash", h);
                (U "block_tx", b); (U "notes", n)] ++ prefix_nodes na).
  { intros n. apply dict_update_fresh; [apply prefix_nodes_NoDup|].
    intros k Hk Hin. apply prefix_nodes_keys in Hk.
    destruct Hk as (k0 & _ & ->).
    exact (@node_column_not_fixed k0 Hin). }
  destruct (dict_get (U "notes") d); cbn [rbind items]; rewrite Hupd;
    reflexivity.
Qed.

Lemma dict_get_app {V} k (d1 d2 : list (pystr * V)) :
  dict_get k (d1 ++ d2)
  = match dict_get k d1 with
    | Some v => Some v
    | None => dict_get k d2
    end.
Proof.
  induction d1 as [|[k' v'] d1 IH]; cbn [app dict_get]; [reflexivity|].
  destruct (pystr_eqb k k'); [reflexivity|exact IH].
Qed.

Lemma NoDup_map_inj {A B} (f : A -> B) (l : list A) :
  (forall a b, f a = f b -> a = b) -> NoDup l -> NoDup (map f l).
Proof.
  intros Hinj. induction 1 as [|a l Hnotin _ IH]; cbn [map]; constructor;
    [|exact IH].
  intros Hin. apply in_map_iff in Hin. destruct Hin as (b & Hb & Hin).
  apply Hinj in Hb. subst. contradiction.
Qed.

Lemma prefix_nodes_fresh its :
  NoDup (map fst its) ->
  prefix_nodes its = map (fun kv => (node_column (fst kv), snd kv)) its.
Proof.
  intros Hnd. rewrite prefix_nodes_as_update. apply dict_update_fresh.
  - rewrite map_map. cbn [fst].
    change (fun x : pystr * pyval => U "Store_" ++ fst x)
      with (fun x : pystr * pyval => node_column (fst x)).
    rewrite <- (map_map fst node_column).
    apply NoDup_map_inj; [|exact Hnd].
    intros a b. apply node_column_inj.
  - intros k _ [].
Qed.

Lemma dict_get_node_column (its : dict) k :
  dict_get (node_column k)
           (map (fun kv => (node_column (fst kv), snd kv)) its)
  = dict_get k its.
Proof.
  induction its as [|[k' v'] its IH]; cbn [map dict_get fst snd];
    [reflexivity|].
  destruct (pystr_eqb k k') eqn:E.
  - apply pystr_eqb_eq in E. subst. rewrite pystr_eqb_refl. reflexivity.
  - rewrite pystr_eqb_neq; [exact IH|].
    intros H. apply node_column_inj in H. subst.
    rewrite pystr_eqb_refl in E. discriminate.
Qed.

(** A string or a float: a value a data frame stores as it is. *)
Definition plain (v : pyval) : bool :=
  match v with
  | PyStr _ | PyFloat _ => true
  | _ => false
  end.

(** X11.  The table holds the ledger's own values.  In the row of a
    well-formed entry the round cell is the entry's round; the cells of
    timestamp, global_accuracy, ipfs_hash and block_tx are the entry's
    strings and floats unchanged (no hash is shortened here); the notes
    cell is the entry's notes, or the empty string when it has none; and
    the cell of a node is the accuracy the entry records for it. *)
Theorem ledger_to_df_cells :
  forall (K : SortKind) (entries : list pyval) (d : dict),
    forallb well_formed entries = true ->
    In (PyDict d) entries ->
    NoDup (map fst (entry_nodes (PyDict d))) ->
    exists df,
      ledger_to_df K (PyList entries) = Ok df
      /\ In (row_cells (columns df) (row_of (PyDict d))) (data df)
      /\ cell_at (columns df) (row_cells (columns df) (row_of (PyDict d)))
           (U "round")
         = Val (PyInt (entry_round (PyDict d)))
      /\ (forall c v,
            In c [U "timestamp"; U "global_accuracy"; U "ipfs_hash";
                  U "block_tx"] ->
            dict_get c d = Some v -> plain v = true ->
            cell_at (columns df) (row_cells (columns df) (row_of (PyDict d))) c
            = Val v)
      /\ (dict_get (U "notes") d = None ->
          cell_at (columns df) (row_cells (columns df) (row_of (PyDict d)))
            (U "notes")
          = Val (PyStr []))
      /\ (forall s,
            dict_get (U "notes") d = Some (PyStr s) ->
            cell_at (columns df) (row_cells (columns df) (row_of (PyDict d)))
              (U "notes")
            = Val (PyStr s))
      /\ (forall k x,
            dict_get k (entry_nodes (PyDict d)) = Some (PyFloat x) ->
            cell_at (columns df) (row_cells (columns df) (row_of (PyDict d)))
              (node_column k)
            = Val (PyFloat x)).
Proof.
  intros K entries d Hwf Hin Hnd.
  assert (Hne : entries <> []) by (intros ->; exact Hin).
  pose proof (ledger_to_df_well_formed K Hne Hwf) as Hdf.
  assert (Hwf' := Hwf). rewrite forallb_forall in Hwf'.
  pose proof (Hwf' _ Hin) as Hd.
  eexists. split; [exact Hdf|]. cbn [columns data].
  set (cols := union_keys (map row_of entries)).
  destruct (row_of_well_formed d Hd)
    as (r & t & g & h & b & Hr & Ht & Hg & Hh & Hb & Hrow).
  assert (Hfixed : forall c, In c fixed_columns -> In c cols).
  { intros c Hc. apply columns_of_well_formed; [exact Hwf|]. left. auto. }
  assert (Hnotes : cell_at cols (row_cells cols (row_of (PyDict d))) (U "notes")
                   = Val (match dict_get (U "notes") d with
                          | Some x => x
                          | None => PyStr []
                          end)).
  { rewrite cell_at_row_cells
      by (apply Hfixed; unfold fixed_columns; cbn; tauto).
    unfold cell_of. rewrite Hrow. reflexivity. }
  split.
  { apply (Permutation_in (l := unsorted_rows entries)).
    - apply Permutation_sym, take_perm. unfold unsorted_rows.
      rewrite !length_map. rewrite <- (length_map entry_round).
      apply argsort_perm.
    - unfold unsorted_rows. rewrite map_map. apply in_map_iff. eauto. }
  split; [|split; [|split; [|split]]].
  - rewrite cell_at_row_cells
      by (apply Hfixed; unfold fixed_columns; cbn; tauto).
    unfold cell_of. rewrite (row_of_round _ Hd). reflexivity.
  - intros c v Hc Hv _.
    assert (Hc' : In c fixed_columns)
      by (unfold fixed_columns; cbn [In] in Hc |- *; tauto).
    rewrite cell_at_row_cells by (apply Hfixed, Hc').
    unfold cell_of. rewrite Hrow. clear Hc'.
    destruct Hc as [<-|[<-|[<-|[<-|[]]]]]; cbn; congruence.
  - intros Hn. rewrite Hnotes, Hn. reflexivity.
  - intros s Hs. rewrite Hnotes, Hs. reflexivity.
  - intros k x Hk.
    assert (Hkin : In k (map fst (entry_nodes (PyDict d))))
      by (apply dict_get_In; congruence).
    rewrite cell_at_row_cells
      by (apply columns_of_well_formed; [exact Hwf|]; right; eauto).
    unfold cell_of. rewrite Hrow, dict_get_app.
    destruct (dict_get (node_column k) _) as [y|] eqn:E.
    + exfalso.
      assert (Hf : In (node_column k) fixed_columns).
      { change fixed_columns
          with (map fst
                  [(U "round", r); (U "timestamp", t);
                   (U "global_accuracy", g); (U "ipfs_hash", h);
                   (U "block_tx", b);
                   (U "notes", match dict_get (U "notes") d with
                               | Some x => x
                               | None => PyStr []
                               end)]).
        apply dict_get_In. congruence. }
      exact (@node_column_not_fixed k Hf).
    + rewrite (@prefix_nodes_fresh _ Hnd), dict_get_node_column, Hk.
      reflexivity.
Qed.

Definition dict_of (v : pyval) : dict :=
  match v with
  | PyDict d => d
  | _ => []
  end.

Lemma ledger_to_df_cells_witness :
  exists df,
    ledger_to_df stable_kind (PyList entries_e2e) = Ok df
    /\ cell_at (columns df)
         (row_cells (columns df) (row_of (nth 1 entries_e2e PyNone)))
         (U "ipfs_hash")
       = Val (PyStr (U "Qm2"))
    /\ cell_at (columns df)
         (row_cells (columns df) (row_of (nth 1 entries_e2e PyNone)))
         (U "Store_s2")
       = Val (PyFloat (decimal 64 100)).
Proof.
  destruct (@ledger_to_df_cells stable_kind entries_e2e
              (dict_of (nth 1 entries_e2e PyNone)) entries_e2e_well_formed)
    as (df & Hdf & _ & _ & Hfixed & _ & _ & Hnode).
  - right. left. reflexivity.
  - destruct (NoDup_pystr_dec
                (map fst (entry_nodes (PyDict (dict_of (nth 1 entries_e2e PyNone))))))
      as [H|H] eqn:E; [exact H|discriminate E].
  - exists df. split; [exact Hdf|]. split.
    + apply (Hfixed (U "ipfs_hash")).
      * right. right. left. reflexivity.
      * reflexivity.
      * reflexivity.
    + apply (Hnode (U "s2")). reflexivity.
Defined.

(** *** The order of the columns *)

Lemma add_keys_absorb ks : forall acc,
  (forall k, In k ks -> In k acc) -> fold_left add_key ks acc = acc.
Proof.
  induction ks as [|k ks IH]; intros acc H; cbn [fold_left]; [reflexivity|].
  unfold add_key at 2.
  rewrite (proj2 (mem_In k acc)) by (apply H; left; reflexivity).
  apply IH. intros k' Hk'. apply H. right. exact Hk'.
Qed.

Lemma add_keys_prefix ks : forall F X,
  (forall k, In k ks -> ~ In k F) ->
  fold_left add_key ks (F ++ X) = F ++ fold_left add_key ks X.
Proof.
  induction ks as [|k ks IH]; intros F X H; cbn [fold_left]; [reflexivity|].
  assert (Hk : ~ In k F) by (apply H; left; reflexivity).
  assert (Hmem : mem k (F ++ X) = mem k X).
  { destruct (mem k X) eqn:E.
    - apply mem_In. apply in_or_app. right. apply mem_In. exact E.
    - destruct (mem k (F ++ X)) eqn:E'; [|reflexivity].
      apply mem_In in E'. apply in_app_or in E'.
      destruct E' as [E'|E']; [contradiction|].
      apply mem_In in E'. congruence. }
  unfold add_key at 2 4. rewrite Hmem.
  destruct (mem k X).
  - apply IH. intros k' Hk'. apply H. right. exact Hk'.
  - rewrite <- app_assoc. apply IH. intros k' Hk'. apply H. right. exact Hk'.
Qed.

(** The keys of rows that all begin with the same fields [F], the rest
    of their keys outside [F]. *)
Lemma union_keys_common_prefix (F : list pystr) (rows : list (dict * dict)) :
  NoDup F ->
  (forall fp, In fp rows ->
     map fst (fst fp) = F
     /\ forall k, In k (map fst (snd fp)) -> ~ In k F) ->
  rows <> [] ->
  union_keys (map (fun fp => fst fp ++ snd fp) rows)
  = F ++ union_keys (map snd rows).
Proof.
  intros HF Hrows Hne. unfold union_keys.
  assert (Hstep : forall rs X,
             (forall fp, In fp rs ->
                map fst (fst fp) = F
                /\ forall k, In k (map fst (snd fp)) -> ~ In k F) ->
             fold_left (fun acc (r : dict) => fold_left add_key (map fst r) acc)
                       (map (fun fp => fst fp ++ snd fp) rs) (F ++ X)
             = F ++ fold_left (fun acc (r : dict) => fold_left add_key (map fst r) acc)
                              (map snd rs) X).
  { induction rs as [|[f p] rs IH]; intros X H; cbn [map fold_left fst snd];
      [reflexivity|].
    destruct (H (f, p) (or_introl eq_refl)) as [Hf Hp]. cbn [fst snd] in *.
    rewrite map_app, fold_left_app, Hf.
    rewrite (add_keys_absorb F (F ++ X))
      by (intros k Hk; apply in_or_app; left; exact Hk).
    rewrite add_keys_prefix by exact Hp.
    apply IH. intros fp Hfp. apply H. right. exact Hfp. }
  destruct rows as [|[f p] rows]; [congruence|].
  cbn [map fold_left fst snd].
  destruct (Hrows (f, p) (or_introl eq_refl)) as [Hf Hp]. cbn [fst snd] in *.
  rewrite map_app, fold_left_app, Hf.
  assert (HFF : fold_left add_key F [] = F).
  { clear - HF.
    assert (H : forall acc, NoDup (acc ++ F) ->
                            fold_left add_key F acc = acc ++ F).
    { clear HF. induction F as [|k F IH]; intros acc Hnd; cbn [fold_left].
      - rewrite app_nil_r. reflexivity.
      - unfold add_key at 2.
        assert (Hk : mem k acc = false).
        { destruct (mem k acc) eqn:E; [|reflexivity].
          apply mem_In in E. apply NoDup_remove_2 in Hnd.
          exfalso. apply Hnd. apply in_or_app. left. exact E. }
        rewrite Hk. cbv iota.
        rewrite IH; rewrite <- app_assoc; [reflexivity|exact Hnd]. }
    apply (H []). exact HF. }
  rewrite HFF.
  rewrite <- (app_nil_r F) at 1. rewrite add_keys_prefix by exact Hp.
  apply (Hstep rows (fold_left add_key (map fst p) [])).
  intros fp Hfp. apply Hrows. right. exact Hfp.
Qed.

Lemma fixed_columns_NoDup : NoDup fixed_columns.
Proof.
  destruct (NoDup_pystr_dec fixed_columns) as [H|H] eqn:E;
    [exact H|discriminate E].
Qed.

(** The node columns of a ledger, in the order of first appearance. *)
Definition node_columns_of (entries : list pyval) : list pystr :=
  union_keys (map (fun e => prefix_nodes (entry_nodes e)) entries).

Lemma columns_in_order entries :
  entries <> [] -> forallb well_formed entries = true ->
  union_keys (map row_of entries) = fixed_columns ++ node_columns_of entries.
Proof.
  intros Hne Hwf. rewrite forallb_forall in Hwf.
  set (base := fun e => firstn 6 (row_of e)).
  assert (Hrow : forall e, In e entries ->
                   row_of e = base e ++ prefix_nodes (entry_nodes e)
                   /\ map fst (base e) = fixed_columns).
  { intros e He. pose proof (Hwf e He) as Hd.
    destruct e as [| | | | | |d]; try discriminate.
    destruct (row_of_well_formed d Hd)
      as (r & t & g & h & b & _ & _ & _ & _ & _ & Hrow).
    unfold base. rewrite Hrow. split; reflexivity. }
  rewrite (map_ext_in row_of
             (fun e => fst (base e, prefix_nodes (entry_nodes e))
                       ++ snd (base e, prefix_nodes (entry_nodes e))))
    by (intros e He; apply (Hrow e He)).
  rewrite <- (map_map (fun e => (base e, prefix_nodes (entry_nodes e)))
                      (fun fp => fst fp ++ snd fp)).
  rewrite (@union_keys_common_prefix fixed_columns).
  - rewrite map_map. reflexivity.
  - exact fixed_columns_NoDup.
  - intros fp Hfp. apply in_map_iff in Hfp.
    destruct Hfp as (e & <- & He). cbn [fst snd].
    split; [apply (Hrow e He)|].
    intros k Hk Hin. apply prefix_nodes_keys in Hk.
    destruct Hk as (k0 & _ & ->).
    exact (@node_column_not_fixed k0 Hin).
  - destruct entries; [congruence|discriminate].
Qed.

Lemma business_cols_in_order entries :
  business_cols (fixed_columns ++ node_columns_of entries)
  = node_columns_of entries.
Proof.
  unfold business_cols. rewrite filter_app.
  replace (filter (fun col => startswith col (U "Store_")) fixed_columns)
    with (@nil pystr) by reflexivity.
  cbn [app]. apply forallb_filter_id.
  apply forallb_forall. intros c Hc.
  apply union_keys_In in Hc. destruct Hc as (r & Hr & Hc).
  apply in_map_iff in Hr. destruct Hr as (e & <- & _).
  apply prefix_nodes_keys in Hc. destruct Hc as (k & _ & ->).
  apply startswith_node_column.
Qed.

(** X12.  The columns of the table of a non-empty well-formed ledger are
    the six fields in the order round, timestamp, global_accuracy,
    ipfs_hash, block_tx, notes, followed by the node columns in the order
    in which the nodes first appear in the ledger; the node columns are
    exactly the columns the relabelling picks. *)
Theorem ledger_to_df_column_order :
  forall (K : SortKind) (entries : list pyval),
    entries <> [] -> forallb well_formed entries = true ->
    exists df,
      ledger_to_df K (PyList entries) = Ok df
      /\ columns df = fixed_columns ++ node_columns_of entries
      /\ business_cols (columns df) = node_columns_of entries.
Proof.
  intros K entries Hne Hwf.
  pose proof (ledger_to_df_well_formed K Hne Hwf) as Hdf.
  eexists. split; [exact Hdf|]. cbn [columns].
  rewrite (columns_in_order Hne Hwf).
  split; [reflexivity|apply business_cols_in_order].
Qed.

Lemma ledger_to_df_column_order_witness :
  exists df,
    ledger_to_df stable_kind (PyList entries_e2e) = Ok df
    /\ columns df = fixed_columns ++ [U "Store_s1"; U "Store_s2"].
Proof.
  destruct (@ledger_to_df_column_order stable_kind entries_e2e
              ltac:(discriminate) entries_e2e_well_formed)
    as (df & Hdf & Hcols & _).
  exists df. split; [exact Hdf|exact Hcols].
Defined.

(** ** Rendering: what the dashboard derives from the table *)

(** Everything a successful render computed, step by step. *)
Lemma render_inv df rounds_to_show d :
  render_dashboard_content df rounds_to_show = Ok (Dashboard d) ->
  df_empty df = false
  /\ exists d1 d2 latest,
       apply_column (tail df rounds_to_show) (U "ipfs_hash")
         truncate_hash_default = Ok d1
       /\ apply_column d1 (U "block_tx") truncate_hash_default = Ok d2
       /\ relabel (business_cols (columns df)) = Ok (rename_map d)
       /\ df_display d = rename_columns d2 (rename_map d)
       /\ iloc_back (tail df rounds_to_show) 1 = Ok latest
       /\ as_int (row_get (columns df) latest (U "round") (Val (PyInt 0)))
          = Ok (current_round d)
       /\ accuracy_delta (tail df rounds_to_show) latest = Ok (delta d)
       /\ active_nodes d = List.length (business_cols (columns df))
       /\ last_update (row_get (columns df) latest (U "timestamp")
                         (Val (PyStr [])))
          = Ok (last_update_caption d)
       /\ node_performance (tail df rounds_to_show) = Ok (round10 d).
Proof.
  unfold render_dashboard_content.
  destruct (df_empty df); [discriminate|].
  destruct (apply_column (tail df rounds_to_show) (U "ipfs_hash")
              truncate_hash_default) as [d1|] eqn:E1; [|discriminate].
  cbn [rbind].
  destruct (apply_column d1 (U "block_tx") truncate_hash_default)
    as [d2|] eqn:E2; [|discriminate].
  cbn [rbind].
  assert (Hcols : columns d2 = columns df).
  { rewrite (apply_column_columns _ _ _ E2), (apply_column_columns _ _ _ E1).
    reflexivity. }
  rewrite Hcols. cbn [tail columns].
  destruct (relabel (business_cols (columns df))) as [rm|]; [|discriminate].
  cbn [rbind].
  destruct (iloc_back (tail df rounds_to_show) 1) as [latest|] eqn:El;
    [|discriminate].
  cbn [rbind].
  repeat match goal with
         | |- context [rbind ?r _] =>
             let E := fresh "E" in
             destruct r eqn:E; cbn [rbind]; [|discriminate]
         end.
  intros H. injection H as <-. cbn.
  split; [reflexivity|]. exists d1, d2, latest.
  repeat (split; [first [reflexivity | assumption]|]).
  first [reflexivity | assumption].
Qed.

Lemma nth_error_last_split {A} (l : list A) x :
  nth_error l (List.length l - 1) = Some x ->
  l = firstn (List.length l - 1) l ++ [x].
Proof.
  intros H.
  assert (Hlt : (List.length l - 1 < List.length l)%nat)
    by (apply nth_error_Some; congruence).
  rewrite <- (firstn_skipn (List.length l - 1) l) at 1. f_equal.
  destruct (skipn (List.length l - 1) l) as [|y rest] eqn:E.
  - apply (f_equal (@List.length A)) in E. rewrite length_skipn in E.
    cbn in E. lia.
  - assert (Hy : nth_error l (List.length l - 1 + 0) = Some y)
      by (rewrite <- nth_error_skipn, E; reflexivity).
    rewrite Nat.add_0_r, H in Hy. injection Hy as <-.
    apply (f_equal (@List.length A)) in E. rewrite length_skipn in E.
    cbn in E. destruct rest; [reflexivity|cbn in E; lia].
Qed.

Lemma iloc_back_last df latest :
  iloc_back df 1 = Ok latest ->
  data df = firstn (List.length (data df) - 1) (data df) ++ [latest].
Proof.
  unfold iloc_back. destruct (List.length (data df) <? 1)%nat; [discriminate|].
  destruct (nth_error (data df) (List.length (data df) - 1)) as [r|] eqn:E;
    [|discriminate].
  intros H. injection H as <-. apply nth_error_last_split. exact E.
Qed.

Lemma iloc_back_snoc df pre x :
  data df = pre ++ [x] -> iloc_back df 1 = Ok x.
Proof.
  intros H. unfold iloc_back. rewrite H, length_app. cbn [List.length].
  replace (List.length pre + 1 <? 1)%nat with false
    by (symmetry; apply Nat.ltb_ge; lia).
  rewrite nth_error_app2 by lia.
  replace (List.length pre + 1 - 1 - List.length pre)%nat with 0%nat by lia.
  reflexivity.
Qed.

(** The last row of a trailing window is the last row of the table. *)
Lemma tail_last df n latest :
  iloc_back (tail df n) 1 = Ok latest -> iloc_back df 1 = Ok latest.
Proof.
  intros H. pose proof (iloc_back_last _ H) as Hsplit.
  cbn [tail data] in Hsplit.
  destruct (n =? 0); [destruct (firstn _ _); discriminate Hsplit|].
  unfold slice_from in Hsplit.
  set (m := Z.to_nat (clamp_index (- n) (Z.of_nat (List.length (data df)))))
    in *.
  apply iloc_back_snoc
    with (pre := firstn m (data df)
                 ++ firstn (List.length (skipn m (data df)) - 1)
                           (skipn m (data df))).
  rewrite <- app_assoc, <- Hsplit. symmetry. apply firstn_skipn.
Qed.

Lemma sorted_last_max (l : list Z) x :
  Sorted Z.le (l ++ [x]) -> forall y, In y l -> y <= x.
Proof.
  intros Hs. apply Sorted_StronglySorted in Hs;
    [|intros a b c; apply Z.le_trans].
  induction l as [|a l IH]; intros y Hy; [destruct Hy|].
  cbn [app] in Hs. inversion Hs as [|? ? Hs' Hall]; subst.
  destruct Hy as [<-|Hy].
  - rewrite Forall_forall in Hall. apply Hall. apply in_or_app.
    right. left. reflexivity.
  - apply IH; assumption.
Qed.

(** The rows of the table of a well-formed ledger are rows of its
    entries. *)
Lemma data_rows_of_entries K entries df r :
  entries <> [] -> forallb well_formed entries = true ->
  ledger_to_df K (PyList entries) = Ok df ->
  In r (data df) ->
  exists e, In e entries
            /\ r = row_cells (columns df) (row_of e)
            /\ cell_at (columns df) r (U "round") = Val (PyInt (entry_round e)).
Proof.
  intros Hne Hwf Hdf Hr.
  rewrite ledger_to_df_well_formed in Hdf by assumption.
  injection Hdf as <-. cbn [columns data] in *.
  assert (Hin : In r (unsorted_rows entries)).
  { apply (Permutation_in (l := take [] (argsort K (map entry_round entries))
                                  (unsorted_rows entries))); [|exact Hr].
    apply take_perm. unfold unsorted_rows. rewrite !length_map.
    rewrite <- (length_map entry_round). apply argsort_perm. }
  unfold unsorted_rows in Hin. rewrite map_map in Hin.
  apply in_map_iff in Hin. destruct Hin as (e & <- & He).
  exists e. split; [exact He|]. split; [reflexivity|].
  rewrite cell_at_row_cells.
  - unfold cell_of. rewrite row_of_round; [reflexivity|].
    rewrite forallb_forall in Hwf. apply Hwf, He.
  - apply columns_of_well_formed; [exact Hwf|]. left.
    split; [exact Hne|]. left. reflexivity.
Qed.

Lemma row_get_cell_at cols r c default v :
  cell_at cols r c = Val v -> row_get cols r c default = Val v.
Proof.
  unfold cell_at, row_get. destruct (index_of c cols); [auto|discriminate].
Qed.

(** X13.  The "Current Round" of the dashboard is the largest round of
    the ledger, wherever that round stands in the document and whatever
    the window: for a well-formed ledger every entry's round is at most
    the round shown, and some entry has it. *)
Theorem current_round_is_max :
  forall (K : SortKind) (entries : list pyval) (df : DataFrame)
         (rounds_to_show : Z) (d : dashboard),
    forallb well_formed entries = true ->
    ledger_to_df K (PyList entries) = Ok df ->
    render_dashboard_content df rounds_to_show = Ok (Dashboard d) ->
    (forall e, In e entries -> entry_round e <= current_round d)
    /\ (exists e, In e entries /\ entry_round e = current_round d).
Proof.
  intros K entries df n d Hwf Hdf Hr.
  destruct (render_inv _ _ Hr)
    as (Hnonempty & d1 & d2 & latest & _ & _ & _ & _ & Hl & Hcur & _).
  assert (Hne : entries <> []).
  { intros ->. cbn in Hdf. injection Hdf as <-. discriminate Hnonempty. }
  apply tail_last in Hl. pose proof (iloc_back_last _ Hl) as Hsplit.
  assert (Hin : In latest (data df))
    by (rewrite Hsplit; apply in_or_app; right; left; reflexivity).
  destruct (@data_rows_of_entries K _ _ _ Hne Hwf Hdf Hin)
    as (e0 & He0 & _ & Hcell).
  rewrite (@row_get_cell_at _ _ _ (Val (PyInt 0)) _ Hcell) in Hcur.
  cbn in Hcur.
  injection Hcur as <-.
  split; [|eauto].
  destruct (ledger_to_df_sorted_nonempty K Hne Hwf)
    as (df' & Hdf' & Hsorted & _ & Hperm & _).
  rewrite Hdf in Hdf'. injection Hdf' as <-.
  assert (Hlast : row_round (columns df) latest = entry_round e0)
    by (unfold row_round; rewrite Hcell; reflexivity).
  unfold rounds in Hsorted, Hperm. rewrite Hsplit in Hsorted, Hperm.
  rewrite map_app in Hsorted, Hperm. cbn [map] in Hsorted, Hperm.
  rewrite Hlast in Hsorted, Hperm.
  intros e He.
  assert (Hround : In (entry_round e)
                      (map (row_round (columns df))
                         (firstn (List.length (data df) - 1) (data df))
                       ++ [entry_round e0])).
  { apply (Permutation_in _ (Permutation_sym Hperm)).
    apply in_map. exact He. }
  apply in_app_or in Hround. destruct Hround as [Hround|[<-|[]]]; [|lia].
  exact (@sorted_last_max _ _ Hsorted _ Hround).
Qed.

Lemma current_round_is_max_witness :
  exists d,
    render_dashboard_content frame_3211 2 = Ok (Dashboard d)
    /\ current_round d = 3.
Proof.
  destruct (render_dashboard_content frame_3211 2) as [[w|d]|e] eqn:Hr;
    try (vm_compute in Hr; discriminate Hr).
  exists d. split; [reflexivity|].
  destruct (@current_round_is_max (vector_kind stable_kind) entries_3211
              frame_3211 2 d entries_3211_well_formed
              ltac:(vm_compute; reflexivity) Hr) as (Hmax & e & He & Heq).
  apply Z.le_antisymm.
  - rewrite <- Heq.
    destruct He as [<-|[<-|[<-|[<-|[]]]]]; vm_compute; discriminate.
  - apply (Hmax (nth 0 entries_3211 PyNone)). left. reflexivity.
Defined.

(** *** The empty window *)

Lemma alias_at_ok i :
  Z.of_nat i <= 1114046 ->
  alias_at i = Ok (U "Store_" ++ [Z.to_N (65 + Z.of_nat i)]).
Proof.
  intros H. unfold alias_at, chr.
  replace ((0 <=? 65 + Z.of_nat i) && (65 + Z.of_nat i <=? 1114111))
    with true; [reflexivity|].
  symmetry. apply andb_true_iff. split; apply Z.leb_le; lia.
Qed.

Lemma aliases_ok n : forall i,
  Z.of_nat (i + n) <= 1114047 -> exists als, rmap alias_at (seq i n) = Ok als.
Proof.
  induction n as [|n IH]; intros i H; cbn [seq rmap]; [eauto|].
  rewrite alias_at_ok by lia.
  destruct (IH (S i)) as (als & ->); [lia|]. eauto.
Qed.

Lemma relabel_ok cols :
  NoDup cols -> Z.of_nat (List.length cols) <= 1114047 ->
  exists rm, relabel cols = Ok rm.
Proof.
  intros Hnd Hlen. unfold relabel.
  rewrite relabel_from_spec; [|exact Hnd|intros c _ []].
  destruct (aliases_ok (List.length cols) 0) as (als & ->); [exact Hlen|].
  eauto.
Qed.

Lemma apply_column_ok df c f :
  In c (columns df) ->
  exists df', apply_column df c f = Ok df'
              /\ columns df' = columns df
              /\ List.length (data df') = List.length (data df).
Proof.
  intros H. unfold apply_column.
  destruct (index_of_In _ _ H) as (j & ->).
  eexists. split; [reflexivity|]. cbn [columns data].
  split; [reflexivity|apply length_map].
Qed.

Lemma tail_empty df n :
  n = 0 \/ n <= - Z.of_nat (List.length (data df)) -> data (tail df n) = [].
Proof.
  intros H. cbn [tail data]. destruct (n =? 0) eqn:E; [reflexivity|].
  apply Z.eqb_neq in E. destruct H as [H|H]; [contradiction|].
  unfold slice_from, clamp_index.
  destruct (- n <? 0) eqn:E'; [apply Z.ltb_lt in E'; lia|].
  rewrite Z.min_r by lia. rewrite Nat2Z.id. apply skipn_all.
Qed.

(** X14.  A window that keeps no row makes the render raise: for the
    table of a non-empty well-formed ledger (with no more node columns
    than there are code points from "A" on) and [rounds_to_show] zero, or
    negative beyond the number of rows, [render_dashboard_content] gets
    past the truncation and the relabelling and raises [IndexError] at
    [df.iloc[-1]]. *)
Theorem render_empty_window :
  forall (K : SortKind) (entries : list pyval) (df : DataFrame)
         (rounds_to_show : Z),
    entries <> [] -> forallb well_formed entries = true ->
    ledger_to_df K (PyList entries) = Ok df ->
    Z.of_nat (List.length (node_columns_of entries)) <= 1114047 ->
    rounds_to_show = 0
    \/ rounds_to_show <= - Z.of_nat (List.length entries) ->
    render_dashboard_content df rounds_to_show = Raise IndexError.
Proof.
  intros K entries df n Hne Hwf Hdf Hnodes Hn.
  destruct (ledger_to_df_sorted_nonempty K Hne Hwf)
    as (df' & Hdf' & _ & _ & _ & Hlen).
  rewrite Hdf in Hdf'. injection Hdf' as <-.
  assert (Hcols : columns df = fixed_columns ++ node_columns_of entries).
  { rewrite ledger_to_df_well_formed in Hdf by assumption.
    injection Hdf as <-. cbn [columns]. apply columns_in_order; assumption. }
  assert (Hfixed : forall c, In c fixed_columns -> In c (columns df))
    by (intros c Hc; rewrite Hcols; apply in_or_app; left; exact Hc).
  unfold render_dashboard_content.
  assert (He : df_empty df = false).
  { unfold df_empty. rewrite Hcols, Hlen.
    destruct entries; [congruence|reflexivity]. }
  rewrite He.
  destruct (@apply_column_ok (tail df n) (U "ipfs_hash") truncate_hash_default)
    as (d1 & -> & Hc1 & _).
  { apply Hfixed. unfold fixed_columns. cbn. tauto. }
  cbn [rbind].
  destruct (@apply_column_ok d1 (U "block_tx") truncate_hash_default)
    as (d2 & -> & Hc2 & _).
  { rewrite Hc1. apply Hfixed. unfold fixed_columns. cbn. tauto. }
  cbn [rbind]. rewrite Hc2, Hc1. cbn [tail columns].
  rewrite Hcols, business_cols_in_order.
  destruct (@relabel_ok (node_columns_of entries)) as (rm & ->);
    [apply union_keys_NoDup|exact Hnodes|].
  cbn [rbind]. unfold iloc_back at 1.
  rewrite tail_empty by (rewrite Hlen; exact Hn).
  reflexivity.
Qed.

Lemma render_empty_window_witness :
  render_dashboard_content frame_e2e 0 = Raise IndexError
  /\ render_dashboard_content frame_e2e (-2) = Raise IndexError.
Proof.
  assert (Hdf : ledger_to_df stable_kind (PyList entries_e2e) = Ok frame_e2e)
    by (vm_compute; reflexivity).
  split.
  - refine (@render_empty_window stable_kind entries_e2e frame_e2e 0
              _ entries_e2e_well_formed Hdf _ _).
    + discriminate.
    + vm_compute. discriminate.
    + left. reflexivity.
  - refine (@render_empty_window stable_kind entries_e2e frame_e2e (-2)
              _ entries_e2e_well_formed Hdf _ _).
    + discriminate.
    + vm_compute. discriminate.
    + right. vm_compute. discriminate.
Defined.

(** *** The delta of a single row *)

Lemma f64_sub_diag_not_finite (x : float) :
  is_finite x = false -> f64_sub x x = S754_nan.
Proof.
  destruct x as [s|s| |s m e]; cbn; try discriminate; intros _;
    try reflexivity.
  destruct s; reflexivity.
Qed.

(** X15.  On a window of a single row the delta is zero exactly when the
    accuracy is a finite number: for an infinite or not-a-number accuracy
    (which [json.loads] accepts as Infinity and NaN) the delta is
    not-a-number. *)
Theorem single_row_delta :
  forall (df : DataFrame) (latest : list cell) (acc : float),
    (List.length (data df) < 2)%nat ->
    (let? c := row_getitem (columns df) latest (U "global_accuracy") in
     as_float c)%result = Ok acc ->
    accuracy_delta df latest
    = Ok (if is_finite acc then f64_zero else S754_nan).
Proof.
  intros df latest acc Hlen Hacc. unfold accuracy_delta.
  destruct (1 <? List.length (data df))%nat eqn:E;
    [apply Nat.ltb_lt in E; lia|].
  destruct (row_getitem (columns df) latest (U "global_accuracy"))
    as [c|]; [|discriminate].
  cbn [rbind] in *. rewrite Hacc. cbn [rbind].
  destruct (is_finite acc) eqn:Ef.
  - rewrite (f64_sub_diag _ Ef). reflexivity.
  - rewrite (f64_sub_diag_not_finite _ Ef). reflexivity.
Qed.

(** A ledger whose only round reports NaN as its accuracy. *)
Definition frame_nan : DataFrame :=
  Eval vm_compute in
    match ledger_to_df stable_kind
            (PyList [entry 1 "2024-01-01T10:00:00.000" S754_nan "Qm1" "0xabc"
                       [] ""]) with
    | Ok df => df
    | Raise _ => empty_frame
    end.

Lemma single_row_delta_witness :
  accuracy_delta frame_nan (nth 0 (data frame_nan) []) = Ok S754_nan
  /\ accuracy_delta frame_one (nth 0 (data frame_one) []) = Ok f64_zero.
Proof.
  split.
  - exact (@single_row_delta frame_nan (nth 0 (data frame_nan) []) S754_nan
             ltac:(vm_compute; lia) eq_refl).
  - exact (@single_row_delta frame_one (nth 0 (data frame_one) [])
             (decimal 50 100) ltac:(vm_compute; lia) eq_refl).
Defined.

(** *** Active nodes *)

Lemma combine_fst {A B} (l : list A) (l' : list B) :
  List.length l = List.length l' -> map fst (combine l l') = l.
Proof.
  revert l'. induction l as [|a l IH]; intros [|b l'] H; cbn in *;
    try reflexivity; try discriminate.
  f_equal. apply IH. lia.
Qed.

Lemma combine_snd {A B} (l : list A) (l' : list B) :
  List.length l = List.length l' -> map snd (combine l l') = l'.
Proof.
  revert l'. induction l as [|a l IH]; intros [|b l'] H; cbn in *;
    try reflexivity; try discriminate.
  f_equal. apply IH. lia.
Qed.

(** What a successful relabelling is: the columns paired with the
    aliases of their positions. *)
Lemma relabel_combine cols rm :
  NoDup cols -> relabel cols = Ok rm ->
  exists als,
    rmap alias_at (seq 0 (List.length cols)) = Ok als
    /\ List.length als = List.length cols
    /\ rm = combine cols als.
Proof.
  intros Hnd. unfold relabel.
  rewrite relabel_from_spec; [|exact Hnd|intros c _ []].
  destruct (rmap alias_at (seq 0 (List.length cols))) as [als|] eqn:E;
    [|discriminate].
  intros H. injection H as <-. exists als.
  split; [reflexivity|]. split; [|reflexivity].
  apply rmap_length in E. rewrite length_seq in E. exact E.
Qed.

(** X16.  "Active Nodes" counts every node that occurs anywhere in the
    ledger, not the nodes of the latest round nor those of the window:
    for a well-formed ledger a successful render shows the number of
    distinct node identifiers of the whole ledger, and the rename map has
    one alias for each of them, in the order of first appearance. *)
Theorem active_nodes_counts_all :
  forall (K : SortKind) (entries : list pyval) (df : DataFrame)
         (rounds_to_show : Z) (d : dashboard),
    forallb well_formed entries = true ->
    ledger_to_df K (PyList entries) = Ok df ->
    render_dashboard_content df rounds_to_show = Ok (Dashboard d) ->
    active_nodes d = List.length (node_columns_of entries)
    /\ map fst (rename_map d) = node_columns_of entries.
Proof.
  intros K entries df n d Hwf Hdf Hr.
  destruct (render_inv _ _ Hr)
    as (Hnonempty & d1 & d2 & latest & _ & _ & Hrm & _ & _ & _ & _ & Hact & _).
  assert (Hne : entries <> []).
  { intros ->. cbn in Hdf. injection Hdf as <-. discriminate Hnonempty. }
  assert (Hcols : business_cols (columns df) = node_columns_of entries).
  { rewrite ledger_to_df_well_formed in Hdf by assumption.
    injection Hdf as <-. cbn [columns].
    rewrite (columns_in_order Hne Hwf). apply business_cols_in_order. }
  rewrite Hcols in Hact, Hrm. split; [exact Hact|].
  destruct (@relabel_combine (node_columns_of entries) (rename_map d))
    as (als & _ & Hlen & ->); [apply union_keys_NoDup|exact Hrm|].
  apply combine_fst. symmetry. exact Hlen.
Qed.

(** Node s2 reports in round 1 and has left by round 2. *)
Definition ledger_node_left : pyval :=
  PyList
    [ entry 1 "2024-01-01T10:00:00.000" (decimal 50 100) "Qm1" "0xabc"
        [("s1"%string, decimal 5 10); ("s2"%string, decimal 6 10)] "";
      entry 2 "2024-01-01T10:05:00.000" (decimal 62 100) "Qm2" "0xdef"
        [("s1"%string, decimal 60 100)] "" ].

Definition entries_node_left : list pyval :=
  match ledger_node_left with
  | PyList l => l
  | _ => []
  end.

Definition frame_node_left : DataFrame :=
  Eval vm_compute in
    match ledger_to_df stable_kind ledger_node_left with
    | Ok df => df
    | Raise _ => empty_frame
    end.

Lemma active_nodes_counts_all_witness :
  exists d,
    render_dashboard_content frame_node_left 1 = Ok (Dashboard d)
    /\ active_nodes d = 2%nat.
Proof.
  destruct (render_dashboard_content frame_node_left 1) as [[w|d]|e] eqn:Hr;
    try (vm_compute in Hr; discriminate Hr).
  exists d. split; [reflexivity|].
  exact (proj1 (@active_nodes_counts_all stable_kind entries_node_left
                  frame_node_left 1 d
                  ltac:(vm_compute; reflexivity)
                  ltac:(vm_compute; reflexivity) Hr)).
Defined.

(** *** The aliases *)

Lemma aliases_explicit n : forall i als,
  rmap alias_at (seq i n) = Ok als ->
  als = map (fun j => U "Store_" ++ [Z.to_N (65 + Z.of_nat j)]) (seq i n).
Proof.
  induction n as [|n IH]; intros i als; cbn [seq rmap map].
  - intros H. injection H as <-. reflexivity.
  - unfold alias_at at 1, chr.
    destruct ((0 <=? 65 + Z.of_nat i) && (65 + Z.of_nat i <=? 1114111));
      [|discriminate].
    destruct (rmap alias_at (seq (S i) n)) as [rest|] eqn:E; [|discriminate].
    intros H. injection H as <-. f_equal. apply IH. exact E.
Qed.

Lemma aliases_NoDup i n als :
  rmap alias_at (seq i n) = Ok als -> NoDup als.
Proof.
  intros H. rewrite (aliases_explicit _ _ H).
  apply NoDup_map_inj; [|apply seq_NoDup].
  intros a b Hab. apply app_inv_head in Hab.
  apply (f_equal (fun l => Z.of_N (hd 0%N l))) in Hab. cbn [hd] in Hab.
  rewrite !Z2N.id in Hab by lia. lia.
Qed.

Lemma aliases_prefixed i n als a :
  rmap alias_at (seq i n) = Ok als -> In a als ->
  startswith a (U "Store_") = true.
Proof.
  intros H Ha. rewrite (aliases_explicit _ _ H) in Ha.
  apply in_map_iff in Ha. destruct Ha as (j & <- & _). reflexivity.
Qed.

Lemma dict_get_Some_In {V} k (v : V) d :
  dict_get k d = Some v -> In (k, v) d.
Proof.
  induction d as [|[k' v'] d IH]; cbn [dict_get]; [discriminate|].
  destruct (pystr_eqb k k') eqn:E.
  - apply pystr_eqb_eq in E. intros H. injection H as <-. subst.
    left. reflexivity.
  - intros H. right. apply IH, H.
Qed.

Lemma NoDup_snd_inj {A B} (l : list (A * B)) a b x :
  NoDup (map snd l) -> In (a, x) l -> In (b, x) l -> a = b.
Proof.
  induction l as [|[a0 x0] l IH]; cbn [map snd]; intros Hnd Ha Hb;
    [destruct Ha|].
  inversion Hnd as [|? ? Hnotin Hnd']; subst.
  destruct Ha as [Ha|Ha], Hb as [Hb|Hb].
  - congruence.
  - injection Ha as -> ->. exfalso. apply Hnotin.
    apply (in_map snd) in Hb. exact Hb.
  - injection Hb as -> ->. exfalso. apply Hnotin.
    apply (in_map snd) in Ha. exact Ha.
  - apply IH; assumption.
Qed.

Lemma NoDup_map_inj_in {A B} (f : A -> B) (l : list A) :
  (forall a b, In a l -> In b l -> f a = f b -> a = b) ->
  NoDup l -> NoDup (map f l).
Proof.
  intros Hinj Hnd. induction Hnd as [|a l Hnotin _ IH]; cbn [map];
    constructor.
  - intros Hin. apply in_map_iff in Hin. destruct Hin as (b & Hb & Hin).
    assert (b = a)
      by (apply Hinj; [right; exact Hin|left; reflexivity|exact Hb]).
    subst. contradiction.
  - apply IH. intros x y Hx Hy. apply Hinj; right; assumption.
Qed.

Lemma business_cols_In cols c :
  In c (business_cols cols)
  <-> In c cols /\ startswith c (U "Store_") = true.
Proof.
  unfold business_cols.
  exact (filter_In (fun col => startswith col (U "Store_")) c cols).
Qed.

(** X17.  Renaming never merges two columns.  When the labels of the
    table are distinct, so are the labels of the display table after a
    successful render: the aliases are pairwise different, and since each
    begins with [Store_] none collides with a column that keeps its
    name; there are as many columns as before. *)
Theorem rename_keeps_labels_distinct :
  forall (df : DataFrame) (rounds_to_show : Z) (d : dashboard),
    NoDup (columns df) ->
    render_dashboard_content df rounds_to_show = Ok (Dashboard d) ->
    NoDup (columns (df_display d))
    /\ List.length (columns (df_display d)) = List.length (columns df)
    /\ NoDup (aliases (rename_map d)).
Proof.
  intros df n d Hnd Hr.
  destruct (render_inv _ _ Hr)
    as (_ & d1 & d2 & latest & E1 & E2 & Hrm & Hshown & _).
  assert (Hcols : columns d2 = columns df).
  { rewrite (apply_column_columns _ _ _ E2), (apply_column_columns _ _ _ E1).
    reflexivity. }
  destruct (@relabel_combine (business_cols (columns df)) (rename_map d))
    as (als & Hals & Hlen & Hcomb);
    [apply business_cols_NoDup, Hnd|exact Hrm|].
  assert (Hkeys : map fst (rename_map d) = business_cols (columns df))
    by (rewrite Hcomb; apply combine_fst; symmetry; exact Hlen).
  assert (Hvals : map snd (rename_map d) = als)
    by (rewrite Hcomb; apply combine_snd; symmetry; exact Hlen).
  assert (Hals_nd : NoDup als) by (apply (aliases_NoDup _ _ Hals)).
  rewrite Hshown. unfold rename_columns. cbn [columns]. rewrite Hcols.
  split; [|split; [apply length_map|unfold aliases; rewrite Hvals; exact Hals_nd]].
  apply NoDup_map_inj_in; [|exact Hnd].
  intros a b Ha Hb.
  destruct (dict_get a (rename_map d)) as [x|] eqn:Ea;
    destruct (dict_get b (rename_map d)) as [y|] eqn:Eb; intros Hab.
  - subst y. apply dict_get_Some_In in Ea, Eb.
    eapply NoDup_snd_inj; [rewrite Hvals; exact Hals_nd|exact Ea|exact Eb].
  - subst x. exfalso.
    assert (Hpre : startswith b (U "Store_") = true).
    { eapply aliases_prefixed; [exact Hals|]. rewrite <- Hvals.
      apply dict_get_Some_In in Ea. apply (in_map snd) in Ea. exact Ea. }
    apply dict_get_None in Eb. apply Eb. rewrite Hkeys.
    apply business_cols_In. split; assumption.
  - subst y. exfalso.
    assert (Hpre : startswith a (U "Store_") = true).
    { eapply aliases_prefixed; [exact Hals|]. rewrite <- Hvals.
      apply dict_get_Some_In in Eb. apply (in_map snd) in Eb. exact Eb. }
    apply dict_get_None in Ea. apply Ea. rewrite Hkeys.
    apply business_cols_In. split; assumption.
  - exact Hab.
Qed.

Lemma rename_keeps_labels_distinct_witness :
  exists d,
    render_dashboard_content frame_e2e 10 = Ok (Dashboard d)
    /\ NoDup (columns (df_display d)).
Proof.
  destruct (render_dashboard_content frame_e2e 10) as [[w|d]|e] eqn:Hr;
    try (vm_compute in Hr; discriminate Hr).
  exists d. split; [reflexivity|].
  refine (proj1 (@rename_keeps_labels_distinct frame_e2e 10 d _ Hr)).
  destruct (NoDup_pystr_dec (columns frame_e2e)) as [H|H] eqn:E;
    [exact H|discriminate E].
Defined.

(** X18.  The alias of position [i] is [Store_] followed by the character
    of code [65 + i]: an upper-case letter exactly for the first 26 node
    columns (the 27th is labelled [Store_[]), some character for every
    position up to 1114046, and a [ValueError] from [chr] beyond. *)
Theorem alias_at_letters :
  forall i : nat,
    (Z.of_nat i <= 1114046 ->
     alias_at i = Ok (U "Store_" ++ [Z.to_N (65 + Z.of_nat i)]))
    /\ (1114046 < Z.of_nat i -> alias_at i = Raise ValueError)
    /\ (forall ch, alias_at i = Ok (U "Store_" ++ [ch]) ->
                   ((65 <= ch <= 90)%N <-> (i < 26)%nat))
    /\ alias_at 26 = Ok (U "Store_[").
Proof.
  intros i. split; [apply alias_at_ok|]. split; [|split; [|reflexivity]].
  - intros H. unfold alias_at, chr.
    replace (65 + Z.of_nat i <=? 1114111) with false
      by (symmetry; apply Z.leb_gt; lia).
    rewrite andb_false_r. reflexivity.
  - intros ch H.
    destruct (Z_le_gt_dec (Z.of_nat i) 1114046) as [Hle|Hgt].
    + rewrite (alias_at_ok i Hle) in H.
      apply (f_equal (fun r => match r with
                               | Ok s => Z.of_N (last s 0%N)
                               | Raise _ => 0
                               end)) in H.
      rewrite !last_last, Z2N.id in H by lia. lia.
    + unfold alias_at, chr in H.
      replace (65 + Z.of_nat i <=? 1114111) with false in H
        by (symmetry; apply Z.leb_gt; lia).
      rewrite andb_false_r in H. discriminate.
Qed.

Lemma alias_at_letters_witness :
  alias_at 25 = Ok (U "Store_Z").
Proof.
  exact (proj1 (alias_at_letters 25) ltac:(discriminate)).
Defined.

(** *** The "Last Update" caption *)

Lemma take_until_app stop (s rest : pystr) :
  ~ In stop s -> take_until stop (s ++ stop :: rest) = s.
Proof.
  induction s as [|c s IH]; cbn [app take_until]; intros H.
  - rewrite N.eqb_refl. reflexivity.
  - destruct (N.eqb c stop) eqn:E.
    + apply N.eqb_eq in E. exfalso. apply H. left. exact E.
    + f_equal. apply IH. intros Hin. apply H. right. exact Hin.
Qed.

Lemma take_until_absent stop (s : pystr) :
  ~ In stop s -> take_until stop s = s.
Proof.
  induction s as [|c s IH]; cbn [take_until]; intros H; [reflexivity|].
  destruct (N.eqb c stop) eqn:E.
  - apply N.eqb_eq in E. exfalso. apply H. left. exact E.
  - f_equal. apply IH. intros Hin. apply H. right. exact Hin.
Qed.

Lemma take_until_app_other stop (s rest : pystr) :
  ~ In stop s -> take_until stop (s ++ rest) = s ++ take_until stop rest.
Proof.
  induction s as [|c s IH]; cbn [app take_until]; intros H; [reflexivity|].
  destruct (N.eqb c stop) eqn:E.
  - apply N.eqb_eq in E. exfalso. apply H. left. exact E.
  - f_equal. apply IH. intros Hin. apply H. right. exact Hin.
Qed.

Lemma after_first_app stop (s rest : pystr) :
  ~ In stop s -> after_first stop (s ++ stop :: rest) = rest.
Proof.
  induction s as [|c s IH]; cbn [app after_first]; intros H.
  - rewrite N.eqb_refl. reflexivity.
  - destruct (N.eqb c stop) eqn:E.
    + apply N.eqb_eq in E. exfalso. apply H. left. exact E.
    + apply IH. intros Hin. apply H. right. exact Hin.
Qed.

Lemma existsb_eqb_In stop (s : pystr) :
  existsb (N.eqb stop) s = true <-> In stop s.
Proof.
  rewrite existsb_exists. split.
  - intros (x & Hx & E). apply N.eqb_eq in E. subst. exact Hx.
  - intros H. exists stop. split; [exact H|apply N.eqb_refl].
Qed.

Lemma existsb_is_T (l : list pyval) :
  existsb is_T l = true <-> In (PyStr (U "T")) l.
Proof.
  rewrite existsb_exists. split.
  - intros (v & Hv & E). destruct v; try discriminate E.
    apply pystr_eqb_eq in E. subst. exact Hv.
  - intros H. exists (PyStr (U "T")). split; [exact H|reflexivity].
Qed.

(** A value that is neither text nor a container. *)
Definition scalar (v : pyval) : bool :=
  match v with
  | PyNone | PyBool _ | PyInt _ | PyFloat _ => true
  | _ => false
  end.

(** X19.  The caption under "Last Update" is the time of day of an ISO
    timestamp: for [date T time . fraction], with no [T] in the date and
    neither [T] nor a dot in the time, it is [time], whatever the
    fraction; without a fraction it is still [time]; a timestamp with no
    [T] is shown whole.  A timestamp that is not a string is an error
    only in part: a list that holds ["T"], or a mapping with the key
    ["T"], passes the test and raises [AttributeError] at [split]; a
    list or mapping without it is handed to the caption as it is; a
    number, a truth value, [None] or a missing cell raises [TypeError]
    at the test. *)
Theorem last_update_time_of_day :
  forall date time : pystr,
    ~ In 84%N date -> ~ In 84%N time -> ~ In 46%N time ->
    (forall fraction,
        last_update
          (Val (PyStr (date ++ U "T" ++ time ++ U "." ++ fraction)))
        = Ok (PyStr time))
    /\ last_update (Val (PyStr (date ++ U "T" ++ time))) = Ok (PyStr time)
    /\ last_update (Val (PyStr date)) = Ok (PyStr date)
    /\ (forall l, In (PyStr (U "T")) l ->
                  last_update (Val (PyList l)) = Raise AttributeError)
    /\ (forall l, ~ In (PyStr (U "T")) l ->
                  last_update (Val (PyList l)) = Ok (PyList l))
    /\ (forall d, In (U "T") (map fst d) ->
                  last_update (Val (PyDict d)) = Raise AttributeError)
    /\ (forall d, ~ In (U "T") (map fst d) ->
                  last_update (Val (PyDict d)) = Ok (PyDict d))
    /\ (forall v, scalar v = true -> last_update (Val v) = Raise TypeError)
    /\ last_update NaN = Raise TypeError.
Proof.
  intros date time Hd Ht Hdot.
  assert (HT : forall rest,
             existsb (N.eqb 84) (date ++ U "T" ++ rest) = true).
  { intros rest. apply existsb_eqb_In. apply in_or_app. right. left.
    reflexivity. }
  split; [|split; [|split; [|split; [|split; [|split; [|split; [|split]]]]]]].
  - intros fraction. unfold last_update. rewrite HT.
    change (date ++ U "T" ++ time ++ U "." ++ fraction)
      with (date ++ 84%N :: (time ++ 46%N :: fraction)).
    rewrite after_first_app by exact Hd.
    rewrite take_until_app_other by exact Ht.
    cbn [take_until]. replace (N.eqb 46 84) with false by reflexivity.
    rewrite take_until_app by exact Hdot. reflexivity.
  - unfold last_update. rewrite HT.
    change (date ++ U "T" ++ time) with (date ++ 84%N :: time).
    rewrite after_first_app by exact Hd.
    rewrite (@take_until_absent 84%N time Ht).
    rewrite (@take_until_absent 46%N time Hdot). reflexivity.
  - unfold last_update.
    destruct (existsb (N.eqb 84) date) eqn:E; [|reflexivity].
    apply existsb_eqb_In in E. contradiction.
  - intros l Hl. unfold last_update.
    rewrite (proj2 (existsb_is_T l) Hl). reflexivity.
  - intros l Hl. unfold last_update.
    destruct (existsb is_T l) eqn:E; [|reflexivity].
    apply existsb_is_T in E. contradiction.
  - intros d Hin. unfold last_update.
    apply dict_get_In in Hin.
    destruct (dict_get (U "T") d); [reflexivity|congruence].
  - intros d Hin. unfold last_update.
    apply dict_get_None in Hin. rewrite Hin. reflexivity.
  - intros v Hv. destruct v; try discriminate Hv; reflexivity.
  - reflexivity.
Qed.

Lemma last_update_time_of_day_witness :
  last_update (Val (PyStr (U "2024-01-01T10:05:00.123456")))
  = Ok (PyStr (U "10:05:00")).
Proof.
  refine (proj1 (@last_update_time_of_day (U "2024-01-01") (U "10:05:00")
                   _ _ _) (U "123456"));
    cbn; intuition discriminate.
Defined.

(** *** The round-10 panel *)

Lemma filter_combine_nil {A B} (p : A -> bool) (f : B -> A) (l : list B) :
  filter (fun q => p (fst q)) (combine (map f l) l) = []
  <-> forallb (fun r => negb (p (f r))) l = true.
Proof.
  induction l as [|r l IH]; cbn [map combine filter forallb fst];
    [tauto|].
  destruct (p (f r)); cbn [negb andb].
  - split; discriminate.
  - exact IH.
Qed.

Lemma rev_nil_iff {A} (l : list A) : rev l = [] <-> l = [].
Proof.
  split; [|intros ->; reflexivity].
  intros H. apply (f_equal (@List.length A)) in H.
  rewrite length_rev in H. destruct l; [reflexivity|discriminate].
Qed.

(** X21.  The "Node Performance (Round 10)" panel looks for round 10 in
    the window, not in the ledger: after a successful render it says
    "not yet available" exactly when no row of the trailing window has
    round 10, even if the table has one. *)
Theorem round10_depends_on_window :
  forall (df : DataFrame) (rounds_to_show : Z) (d : dashboard),
    render_dashboard_content df rounds_to_show = Ok (Dashboard d) ->
    (round10 d = Round10NotAvailable
     <-> forallb (fun r => negb (is_round_10 (cell_at (columns df) r (U "round"))))
                 (data (tail df rounds_to_show)) = true).
Proof.
  intros df n d Hr.
  destruct (render_inv _ _ Hr)
    as (_ & d1 & d2 & latest & _ & _ & _ & _ & _ & _ & _ & _ & _ & Hnp).
  unfold node_performance, column_values in Hnp. cbn [tail columns] in Hnp.
  unfold cell_at.
  destruct (index_of (U "round") (columns df)) as [j|]; [|discriminate].
  cbn [rbind] in Hnp.
  set (win := data (tail df n)) in *.
  pose proof (filter_combine_nil is_round_10
                (fun r : list cell => nth j r NaN) win) as Hnil.
  destruct (rev (map snd
                   (filter (fun p => is_round_10 (fst p))
                      (combine (map (fun r : list cell => nth j r NaN) win) win))))
    as [|r10 rest] eqn:E.
  - injection Hnp as <-. split; [intros _|reflexivity].
    apply Hnil. apply (proj1 (rev_nil_iff _)) in E.
    apply map_eq_nil in E. exact E.
  - split.
    + intros Hna. exfalso. rewrite Hna in Hnp.
      destruct (relabel (business_cols (columns df))); cbn [rbind] in Hnp;
        [|discriminate].
      destruct (map _ _) in Hnp; discriminate.
    + intros Hall. apply Hnil in Hall. rewrite Hall in E. discriminate.
Qed.

(** Rounds 9, 10 and 11. *)
Definition frame_9_10_11 : DataFrame :=
  Eval vm_compute in
    match ledger_to_df stable_kind
            (PyList
               [ entry 9 "t" (decimal 1 2) "h" "x" [("s1"%string, decimal 1 2)] "";
                 entry 10 "t" (decimal 1 2) "h" "x" [("s1"%string, decimal 1 2)] "";
                 entry 11 "t" (decimal 1 2) "h" "x" [("s1"%string, decimal 1 2)] "" ])
    with
    | Ok df => df
    | Raise _ => empty_frame
    end.

Lemma round10_depends_on_window_witness :
  exists d,
    render_dashboard_content frame_9_10_11 1 = Ok (Dashboard d)
    /\ round10 d = Round10NotAvailable.
Proof.
  destruct (render_dashboard_content frame_9_10_11 1) as [[w|d]|e] eqn:Hr;
    try (vm_compute in Hr; discriminate Hr).
  exists d. split; [reflexivity|].
  apply (proj2 (@round10_depends_on_window frame_9_10_11 1 d Hr)).
  vm_compute. reflexivity.
Defined.

(** *** What the display table shows of a hash *)

Lemma truncate_default_bound v s :
  truncate_hash_default v = PyStr s -> py_len s <= 19.
Proof.
  unfold truncate_hash_default. destruct v as [| | | |s0| |]; try discriminate.
  destruct (Z_le_gt_dec (py_len s0) (8 + 8)) as [Hle|Hgt].
  - rewrite (truncate_hash_short s0 _ _ Hle). intros H. injection H as <-. lia.
  - rewrite (@truncate_hash_long s0 8 8 ltac:(lia) ltac:(lia) Hgt).
    intros H.
    assert (Hs : s = firstn (Z.to_nat 8) s0 ++ U "..."
                     ++ last_chars (Z.to_nat 8) s0) by congruence.
    subst s. unfold py_len in *.
    rewrite truncated_length by lia. lia.
Qed.

(** The row transformation inside [apply_column]. *)
Definition on_row (j : nat) (f : pyval -> pyval) (r : list cell) : list cell :=
  firstn j r ++ match skipn j r with
                | [] => []
                | x :: rest => match x with
                               | NaN => NaN
                               | Val v => Val (f v)
                               end :: rest
                end.

Lemma apply_column_data df c f df' :
  apply_column df c f = Ok df' ->
  exists j, index_of c (columns df) = Some j
            /\ data df' = map (on_row j f) (data df).
Proof.
  unfold apply_column. destruct (index_of c (columns df)) as [j|];
    [|discriminate].
  intros H. injection H as <-. exists j. split; reflexivity.
Qed.

Lemma on_row_nth_same j f r :
  nth j (on_row j f r) NaN
  = match nth j r NaN with
    | NaN => NaN
    | Val v => Val (f v)
    end.
Proof.
  unfold on_row. revert r. induction j as [|j IH]; intros [|x r];
    cbn [firstn skipn app nth]; try reflexivity.
  apply IH.
Qed.

Lemma on_row_nth_other j j' f r :
  j' <> j -> nth j' (on_row j f r) NaN = nth j' r NaN.
Proof.
  unfold on_row. revert j' r. induction j as [|j IH]; intros j' r H.
  - destruct r as [|x r]; destruct j' as [|j']; cbn [firstn skipn app nth];
      try reflexivity; congruence.
  - destruct r as [|x r]; cbn [firstn skipn app]; [reflexivity|].
    destruct j' as [|j']; cbn [nth]; [reflexivity|].
    apply IH. congruence.
Qed.

Lemma index_of_rename (rn : pystr -> pystr) c cols :
  (forall x, In x cols -> (rn x = c <-> x = c)) ->
  index_of c (map rn cols) = index_of c cols.
Proof.
  induction cols as [|x cols IH]; intros H; cbn [map index_of];
    [reflexivity|].
  assert (Hx : pystr_eqb c (rn x) = pystr_eqb c x).
  { destruct (pystr_eqb c x) eqn:E.
    - apply pystr_eqb_eq in E. apply pystr_eqb_eq. symmetry.
      apply H; [left; reflexivity|congruence].
    - destruct (pystr_eqb c (rn x)) eqn:E'; [|reflexivity].
      apply pystr_eqb_eq in E'.
      assert (Hxc : x = c) by (apply H; [left; reflexivity|congruence]).
      rewrite Hxc, pystr_eqb_refl in E. discriminate. }
  rewrite Hx, IH; [reflexivity|].
  intros y Hy. apply H. right. exact Hy.
Qed.

Lemma index_of_Some_nth c cols j :
  index_of c cols = Some j -> nth_error cols j = Some c.
Proof.
  revert j. induction cols as [|x cols IH]; cbn [index_of]; intros j H;
    [discriminate|].
  destruct (pystr_eqb c x) eqn:E.
  - injection H as <-. apply pystr_eqb_eq in E. subst. reflexivity.
  - destruct (index_of c cols) as [j'|]; [|discriminate].
    injection H as <-. cbn. apply IH. reflexivity.
Qed.

(** X20.  The display table never shows more than 19 characters of a
    hash: after a successful render of a table with distinct labels,
    every string in the [ipfs_hash] and [block_tx] columns of the display
    table is at most 19 characters long, whatever the ledger held. *)
Theorem display_hashes_are_short :
  forall (df : DataFrame) (rounds_to_show : Z) (d : dashboard),
    NoDup (columns df) ->
    render_dashboard_content df rounds_to_show = Ok (Dashboard d) ->
    forall r c s,
      In r (data (df_display d)) ->
      In c [U "ipfs_hash"; U "block_tx"] ->
      cell_at (columns (df_display d)) r c = Val (PyStr s) ->
      py_len s <= 19.
Proof.
  intros df n d Hnd Hr r c s Hrow Hc Hcell.
  destruct (render_inv _ _ Hr)
    as (_ & d1 & d2 & latest & E1 & E2 & Hrm & Hshown & _).
  assert (Hc1 : columns d1 = columns df)
    by (rewrite (apply_column_columns _ _ _ E1); reflexivity).
  assert (Hc2 : columns d2 = columns df)
    by (rewrite (apply_column_columns _ _ _ E2); exact Hc1).
  destruct (apply_column_data _ _ _ E1) as (j1 & Hj1 & Hd1).
  destruct (apply_column_data _ _ _ E2) as (j2 & Hj2 & Hd2).
  cbn [tail columns] in Hj1. rewrite Hc1 in Hj2.
  destruct (@relabel_combine (business_cols (columns df)) (rename_map d))
    as (als & Hals & Hlen & Hcomb);
    [apply business_cols_NoDup, Hnd|exact Hrm|].
  assert (Hkeys : map fst (rename_map d) = business_cols (columns df))
    by (rewrite Hcomb; apply combine_fst; symmetry; exact Hlen).
  assert (Hvals : map snd (rename_map d) = als)
    by (rewrite Hcomb; apply combine_snd; symmetry; exact Hlen).
  assert (Hplain : startswith c (U "Store_") = false)
    by (destruct Hc as [<-|[<-|[]]]; reflexivity).
  (* the column keeps its place under the renaming *)
  rewrite Hshown in Hrow, Hcell. unfold rename_columns in Hrow, Hcell.
  cbn [columns data] in Hrow, Hcell. rewrite Hc2 in Hcell.
  unfold cell_at in Hcell. rewrite index_of_rename in Hcell.
  2:{ intros x Hx. destruct (dict_get x (rename_map d)) as [a|] eqn:Ex.
      - assert (Ha : startswith a (U "Store_") = true).
        { eapply aliases_prefixed; [exact Hals|]. rewrite <- Hvals.
          apply dict_get_Some_In in Ex. apply (in_map snd) in Ex. exact Ex. }
        assert (Hxk : startswith x (U "Store_") = true).
        { assert (In x (map fst (rename_map d)))
            by (apply dict_get_In; congruence).
          rewrite Hkeys in H. apply business_cols_In in H. apply H. }
        split; intros ->; congruence.
      - tauto. }
  destruct (index_of c (columns df)) as [j|] eqn:Ej; [|discriminate].
  (* the cell went through the truncation *)
  rewrite Hd2, Hd1 in Hrow. rewrite map_map in Hrow.
  apply in_map_iff in Hrow. destruct Hrow as (r0 & <- & _).
  assert (Hj : j = j1 \/ j = j2)
    by (destruct Hc as [<-|[<-|[]]]; [left|right]; congruence).
  assert (Htr : exists v, nth j (on_row j2 truncate_hash_default
                                   (on_row j1 truncate_hash_default r0)) NaN
                          = Val (truncate_hash_default v)).
  { destruct Hj as [-> | ->].
    - destruct (Nat.eq_dec j1 j2) as [-> | Hneq].
      + rewrite on_row_nth_same. rewrite on_row_nth_same in *.
        rewrite on_row_nth_same in Hcell.
        destruct (nth j2 r0 NaN); [discriminate|eauto].
      + rewrite on_row_nth_other in * by exact Hneq.
        rewrite on_row_nth_same in *.
        destruct (nth j1 r0 NaN); [discriminate|eauto].
    - rewrite on_row_nth_same in *.
      destruct (nth j2 (on_row j1 truncate_hash_default r0) NaN);
        [discriminate|eauto]. }
  destruct Htr as (v & Hv). rewrite Hv in Hcell. injection Hcell as Hcell.
  apply (truncate_default_bound _ Hcell).
Qed.

Lemma display_hashes_are_short_witness :
  exists d,
    render_dashboard_content frame_e2e 10 = Ok (Dashboard d)
    /\ forall r s,
         In r (data (df_display d)) ->
         cell_at (columns (df_display d)) r (U "ipfs_hash") = Val (PyStr s) ->
         py_len s <= 19.
Proof.
  destruct (render_dashboard_content frame_e2e 10) as [[w|d]|e] eqn:Hr;
    try (vm_compute in Hr; discriminate Hr).
  exists d. split; [reflexivity|].
  intros r s Hrow Hcell.
  refine (@display_hashes_are_short frame_e2e 10 d _ Hr r (U "ipfs_hash") s
            Hrow _ Hcell).
  - destruct (NoDup_pystr_dec (columns frame_e2e)) as [H|H] eqn:E;
      [exact H|discriminate E].
  - left. reflexivity.
Defined.

(** *** The trailing window *)

Lemma sorted_app_le (l1 l2 : list Z) :
  Sorted Z.le (l1 ++ l2) ->
  forall x y, In x l1 -> In y l2 -> x <= y.
Proof.
  intros Hs. apply Sorted_StronglySorted in Hs;
    [|intros a b c; apply Z.le_trans].
  induction l1 as [|a l1 IH]; intros x y Hx Hy; [destruct Hx|].
  cbn [app] in Hs. inversion Hs as [|? ? Hs' Hall]; subst.
  destruct Hx as [<-|Hx].
  - rewrite Forall_forall in Hall. apply Hall. apply in_or_app. right.
    exact Hy.
  - apply IH; assumption.
Qed.

(** X22.  A positive window shows the most recent rounds: for the table
    of a non-empty well-formed ledger and [rounds_to_show = n > 0],
    [df.tail(n)] keeps [min n rows] rows, they are the last rows of the
    table, and no round left out is larger than a round kept. *)
Theorem tail_keeps_latest_rounds :
  forall (K : SortKind) (entries : list pyval) (df : DataFrame) (n : Z),
    entries <> [] -> forallb well_formed entries = true ->
    ledger_to_df K (PyList entries) = Ok df ->
    0 < n ->
    exists dropped,
      data df = dropped ++ data (tail df n)
      /\ Z.of_nat (List.length (data (tail df n)))
         = Z.min n (Z.of_nat (List.length entries))
      /\ (forall r_out r_in,
            In r_out dropped -> In r_in (data (tail df n)) ->
            row_round (columns df) r_out <= row_round (columns df) r_in).
Proof.
  intros K entries df n Hne Hwf Hdf Hn.
  destruct (ledger_to_df_sorted_nonempty K Hne Hwf)
    as (df' & Hdf' & Hsorted & _ & _ & Hlen).
  rewrite Hdf in Hdf'. injection Hdf' as <-.
  cbn [tail data].
  replace (n =? 0) with false by (symmetry; apply Z.eqb_neq; lia).
  unfold slice_from.
  set (m := Z.to_nat (clamp_index (- n) (Z.of_nat (List.length (data df))))).
  exists (firstn m (data df)).
  split; [symmetry; apply firstn_skipn|]. split.
  - rewrite length_skipn. subst m. unfold clamp_index.
    replace (- n <? 0) with true by (symmetry; apply Z.ltb_lt; lia).
    rewrite <- Hlen. lia.
  - intros r_out r_in Hout Hin.
    unfold rounds in Hsorted.
    rewrite <- (firstn_skipn m (data df)), map_app in Hsorted.
    apply (sorted_app_le _ _ Hsorted); apply in_map; assumption.
Qed.

Lemma tail_keeps_latest_rounds_witness :
  exists dropped,
    data frame_3211 = dropped ++ data (tail frame_3211 2)
    /\ Z.of_nat (List.length (data (tail frame_3211 2))) = 2.
Proof.
  destruct (@tail_keeps_latest_rounds (vector_kind stable_kind) entries_3211
              frame_3211 2 ltac:(discriminate)
              entries_3211_well_formed ltac:(vm_compute; reflexivity)
              ltac:(lia))
    as (dropped & Hsplit & Hlen & _).
  exists dropped. split; [exact Hsplit|exact Hlen].
Defined.
